(** * Media Triage: drive provisioning, import walk and purge pipeline

    A shallow embedding of [triage.py] (with the logging helpers of
    [console.py]) and the properties of its specification.

    Conventions of the embedding.
    - Python [str] is [string]: a character is a code point up to U+00FF.
      [isspace] knows the white space of that range, U+0085 and U+00A0
      included.  [lower] and [upper] move the ASCII letters only: the
      program compares what they return with ASCII literals, and no
      character above U+007F of the range is mapped to an ASCII one.
    - Indices are [Z], as Python's [rfind] answers [-1].
    - [os.path] is [ntpath]: the program imports [ctypes.windll] and so
      only runs on Windows.  Its functions follow the Python definitions
      of CPython 3.11 ([Lib/ntpath.py], [Lib/genericpath.py]).
    - Mutable globals, the console, the debug log and the file system are
      threaded through explicit state records.
    - A [drive.json] is held as the JSON value it contains: [json.dump]
      followed by [json.load] gives a value back as it was.
    - A write that fails is taken to fail in [open], before the file is
      touched.
    - The debug log is taken to open during discovery and the walk, which
      leave the disk around it alone.  In the deletion step the removals
      change the disk: whether the debug log opens there is a parameter,
      and the [write_debug] of the handler raises when it does not.
    - [print] is taken to succeed on the ASCII repertoire and on the names
      it is given.  Whether standard output encodes U+2192, which the
      report lines of [validate_paths] hold, is a parameter.
    - Nothing is created or removed on a volume while it is walked (the
      backup is a dry run, marking is in memory), so a walk reads one
      fixed directory tree.
    - [time.sleep] and the floating-point arithmetic that draws the
      progress bar are left out; a progress line is recorded by its
      arguments. *)

From Stdlib Require Import ZArith List Bool Lia Ascii.
From Stdlib Require String.
From stdpp Require Import base option list strings gmap.

Local Open Scope Z_scope.
Set Warnings "-register-all".

(* ===================================================================== *)
(** * Python string primitives                                            *)
(* ===================================================================== *)

Module pystr.

Definition chr (n : nat) : ascii := ascii_of_nat n.

Definition LF : ascii := chr 10.
Definition CR : ascii := chr 13.

Definition code (c : ascii) : Z := Z.of_nat (nat_of_ascii c).

(** [str.lower] on one character: [A]..[Z] move down by 32. *)
Definition lower_char (c : ascii) : ascii :=
  if (65 <=? code c) && (code c <=? 90)
  then chr (Z.to_nat (code c + 32)) else c.

Fixpoint lower (s : string) : string :=
  match s with
  | EmptyString => EmptyString
  | String c r => String (lower_char c) (lower r)
  end.

(** [str.upper]: [a]..[z] move up by 32. *)
Definition upper_char (c : ascii) : ascii :=
  if (97 <=? code c) && (code c <=? 122)
  then chr (Z.to_nat (code c - 32)) else c.

Fixpoint upper (s : string) : string :=
  match s with
  | EmptyString => EmptyString
  | String c r => String (upper_char c) (upper r)
  end.

(** [str.isspace] on one character: TAB, LF, VT, FF, CR, the four
    separators FS GS RS US, the blank, NEL (U+0085) and the no-break
    space (U+00A0). *)
Definition isspace (c : ascii) : bool :=
  ((9 <=? code c) && (code c <=? 13))
  || ((28 <=? code c) && (code c <=? 32))
  || (code c =? 133) || (code c =? 160).

Fixpoint lstrip (s : string) : string :=
  match s with
  | EmptyString => EmptyString
  | String c r => if isspace c then lstrip r else s
  end.

Fixpoint rstrip (s : string) : string :=
  match s with
  | EmptyString => EmptyString
  | String c r =>
      match rstrip r with
      | EmptyString => if isspace c then EmptyString else String c EmptyString
      | r' => String c r'
      end
  end.

(** [s.strip()] *)
Definition strip (s : string) : string := rstrip (lstrip s).

(** Truth value of a [str]: the empty string is false. *)
Definition nonempty (s : string) : bool :=
  match s with EmptyString => false | _ => true end.

(** [s.rfind(c)] for a one-character needle. *)
Fixpoint rfind_from (c : ascii) (s : string) (i : Z) (last : Z) : Z :=
  match s with
  | EmptyString => last
  | String d r => rfind_from c r (i + 1) (if Ascii.eqb d c then i else last)
  end.

Definition rfind (c : ascii) (s : string) : Z := rfind_from c s 0 (-1).

(** [s.find(c, start)] for a one-character needle. *)
Fixpoint find_from (c : ascii) (s : string) (i : Z) (start : Z) : Z :=
  match s with
  | EmptyString => -1
  | String d r =>
      if (start <=? i) && Ascii.eqb d c then i
      else find_from c r (i + 1) start
  end.

Definition find (c : ascii) (s : string) (start : Z) : Z :=
  find_from c s 0 start.

Definition len (s : string) : Z := Z.of_nat (String.length s).

(** [s[:i]] and [s[i:]] for [0 <= i]. *)
Definition take (i : Z) (s : string) : string :=
  String.substring 0 (Z.to_nat i) s.

Definition drop (i : Z) (s : string) : string :=
  String.substring (Z.to_nat i) (String.length s - Z.to_nat i) s.

(** [s[i:i+1]] *)
Definition at_ (i : Z) (s : string) : string :=
  if i <? 0 then EmptyString else String.substring (Z.to_nat i) 1 s.

(** [s.replace(a, b)] for one-character [a] and [b]. *)
Fixpoint replace (a b : ascii) (s : string) : string :=
  match s with
  | EmptyString => EmptyString
  | String c r => String (if Ascii.eqb c a then b else c) (replace a b r)
  end.

(** [s.lstrip(c)] for a one-character set. *)
Fixpoint lstrip_char (c : ascii) (s : string) : string :=
  match s with
  | EmptyString => EmptyString
  | String d r => if Ascii.eqb d c then lstrip_char c r else s
  end.

(** [s.split(c)]: never empty, [''.split(c) = ['']]. *)
Fixpoint split (c : ascii) (s : string) : list string :=
  match s with
  | EmptyString => [EmptyString]
  | String d r =>
      if Ascii.eqb d c then EmptyString :: split c r
      else match split c r with
           | w :: ws => String d w :: ws
           | [] => [String d EmptyString]
           end
  end.

(** [c.join(ws)] for a one-character separator. *)
Fixpoint join (c : ascii) (ws : list string) : string :=
  match ws with
  | [] => EmptyString
  | [w] => w
  | w :: ws' => w +:+ String c (join c ws')
  end.

(** [s.startswith(p)] *)
Fixpoint startswith (p s : string) : bool :=
  match p with
  | EmptyString => true
  | String a p' =>
      match s with
      | EmptyString => false
      | String b s' => Ascii.eqb b a && startswith p' s'
      end
  end.

(** Last character of [s] as a string, [s[-1:]]. *)
Fixpoint last_char (s : string) : option ascii :=
  match s with
  | EmptyString => None
  | String c EmptyString => Some c
  | String _ r => last_char r
  end.

(** [c in s] for a one-character needle. *)
Fixpoint contains (c : ascii) (s : string) : bool :=
  match s with
  | EmptyString => false
  | String d r => Ascii.eqb d c || contains c r
  end.

End pystr.

(* ===================================================================== *)
(** * [ntpath]: the functions of [os.path] the program calls              *)
(* ===================================================================== *)

Module ntpath.
Import pystr.

Definition sep : ascii := "\"%char.
Definition altsep : ascii := "/"%char.
Definition extsep : ascii := "."%char.
Definition colon : ascii := ":"%char.

Definition is_sep (c : ascii) : bool := Ascii.eqb c sep || Ascii.eqb c altsep.

(** The scan of [genericpath._splitext] over the leading dots:
    [n] positions are left between [filenameIndex] and [dotIndex]. *)
Fixpoint skip_leading_dots (p : string) (filenameIndex : Z) (n : nat) : bool :=
  match n with
  | O => false
  | S n' =>
      if negb (String.eqb (at_ filenameIndex p) (String extsep EmptyString))
      then true
      else skip_leading_dots p (filenameIndex + 1) n'
  end.

(** [os.path.splitext(p)] *)
Definition splitext (p : string) : string * string :=
  let sepIndex := Z.max (rfind sep p) (rfind altsep p) in
  let dotIndex := rfind extsep p in
  if (sepIndex <? dotIndex)
     && skip_leading_dots p (sepIndex + 1) (Z.to_nat (dotIndex - (sepIndex + 1)))
  then (take dotIndex p, drop dotIndex p)
  else (p, EmptyString).

Definition unc_prefix : string := "\\?\UNC\".

(** [os.path.splitdrive(p)] *)
Definition splitdrive (p : string) : string * string :=
  if 2 <=? len p then
    let normp := replace altsep sep p in
    if String.eqb (take 2 normp) (String sep (String sep EmptyString))
    then
      (* UNC drives \\server\share and device drives \\.\device *)
      let start := if String.eqb (upper (take 8 normp)) unc_prefix then 8 else 2 in
      let index := find sep normp start in
      if index =? -1 then (p, EmptyString)
      else
        let index2 := find sep normp (index + 1) in
        if index2 =? -1 then (p, EmptyString)
        else (take index2 p, drop index2 p)
    else if String.eqb (at_ 1 normp) (String colon EmptyString)
    then (take 2 p, drop 2 p)
    else (EmptyString, p)
  else (EmptyString, p).

Definition curdir : string := ".".
Definition pardir : string := "..".

(** The component loop of [normpath].  The source edits [comps] in
    place with an index [i]; the entries before [i] are the kept ones,
    held here as a stack with the most recent on top. *)
Definition norm_step (rooted : bool) (kept : list string) (comp : string)
  : list string :=
  if negb (nonempty comp) || String.eqb comp curdir then kept
  else if String.eqb comp pardir then
    match kept with
    | top :: below =>
        if negb (String.eqb top pardir) then below else comp :: kept
    | [] => if rooted then kept else comp :: kept
    end
  else comp :: kept.

Definition norm_comps (rooted : bool) (comps : list string) : list string :=
  rev (fold_left (norm_step rooted) comps []).

(** [os.path.normpath] once the drive is split off: [prefix] is the
    drive, [path] the rest. *)
Definition normpath_tail (prefix path : string) : string :=
  (* collapse initial backslashes *)
  let '(prefix, path) :=
    if startswith (String sep EmptyString) path
    then (prefix +:+ String sep EmptyString, lstrip_char sep path)
    else (prefix, path) in
  let rooted :=
    match last_char prefix with
    | Some c => Ascii.eqb c sep
    | None => false
    end in
  let comps := norm_comps rooted (split sep path) in
  (* if the path is now empty, substitute '.' *)
  let comps :=
    if negb (nonempty prefix) && match comps with [] => true | _ => false end
    then [curdir] else comps in
  prefix +:+ join sep comps.

(** [os.path.normpath(path)] *)
Definition normpath (path : string) : string :=
  let path := replace altsep sep path in
  let '(prefix, path) := splitdrive path in
  normpath_tail prefix path.

(** One round of the loop of [os.path.join]. *)
Definition join_step (acc : string * string) (p : string) : string * string :=
  let '(result_drive, result_path) := acc in
  let '(p_drive, p_path) := splitdrive p in
  if match p_path with String c _ => is_sep c | EmptyString => false end
  then
    ((if nonempty p_drive || negb (nonempty result_drive)
      then p_drive else result_drive), p_path)
  else if nonempty p_drive && negb (String.eqb p_drive result_drive)
  then
    if negb (String.eqb (lower p_drive) (lower result_drive))
    then (p_drive, p_path)
    else
      (p_drive,
       (if match last_char result_path with
           | Some c => negb (is_sep c) | None => false end
        then result_path +:+ String sep EmptyString else result_path)
       +:+ p_path)
  else
    (result_drive,
     (if match last_char result_path with
         | Some c => negb (is_sep c) | None => false end
      then result_path +:+ String sep EmptyString else result_path)
     +:+ p_path).

(** [os.path.join(path, p)] *)
Definition join2 (path p : string) : string :=
  let '(result_drive, result_path) := join_step (splitdrive path) p in
  if match result_path with String c _ => negb (is_sep c) | EmptyString => false end
     && match last_char result_drive with
        | Some c => negb (Ascii.eqb c colon) | None => false end
  then result_drive +:+ String sep (result_path)
  else result_drive +:+ result_path.

End ntpath.


(* ===================================================================== *)
(** * JSON values and Python dictionaries                                 *)
(* ===================================================================== *)

(** What [json.load] can return.  A [dict] keeps its keys in insertion
    order, which is the order [json.dump] writes them in. *)
Inductive jvalue : Type :=
| JNull
| JBool (b : bool)
| JInt (z : Z)
| JFloat (zero : bool)          (* a float; Python only asks whether it is 0.0 *)
| JStr (s : string)
| JArr (xs : list jvalue)
| JObj (kvs : list (string * jvalue)).

Abbreviation dict := (list (string * jvalue)).

(** [d.get(k)]; [None] is Python's [None] for a missing key. *)
Fixpoint dict_get (d : dict) (k : string) : option jvalue :=
  match d with
  | [] => None
  | (k', v) :: d' => if String.eqb k' k then Some v else dict_get d' k
  end.

(** [k in d] *)
Definition dict_has (d : dict) (k : string) : bool :=
  match dict_get d k with Some _ => true | None => false end.

(** [d[k] = v]: an existing key keeps its place, a new key goes last. *)
Fixpoint dict_set (d : dict) (k : string) (v : jvalue) : dict :=
  match d with
  | [] => [(k, v)]
  | (k', v') :: d' =>
      if String.eqb k' k then (k', v) :: d' else (k', v') :: dict_set d' k v
  end.

(** Truth value of a Python object obtained from JSON. *)
Definition truthy (v : jvalue) : bool :=
  match v with
  | JNull => false
  | JBool b => b
  | JInt z => negb (z =? 0)
  | JFloat zero => negb zero
  | JStr s => pystr.nonempty s
  | JArr xs => match xs with [] => false | _ => true end
  | JObj kvs => match kvs with [] => false | _ => true end
  end.

(** [x is True] for the result of [d.get(k)]. *)
Definition is_True (x : option jvalue) : bool :=
  match x with Some (JBool true) => true | _ => false end.

(* ===================================================================== *)
(** * [console.py]                                                        *)
(* ===================================================================== *)

(** An f-string is kept as its pieces: literal text, and the values that
    Python would format with [str()]. *)
Inductive frag : Type :=
| Lit (s : string)
| Val (v : jvalue)
| Num (n : nat).

Abbreviation text := (list frag).

Inductive colour : Type := WHITE | GREEN | YELLOW | RED | CYAN | LIGHTBLACK_EX.

(** What reaches standard output. *)
Inductive out : Type :=
| Line (c : colour) (prefix : string) (message : text)  (* a coloured line *)
| CursorUp                     (* print("\033[F\033[F", end="") *)
| ClearLine                    (* print(" " * 100, end="\r") *)
| ProgressBar (i total : nat)  (* print(bar.ljust(100)) *)
| Current (folder : string).   (* print(f"Deleting: {folder}".ljust(100), end="\r") *)

Definition bullets (level : string) : string :=
  if String.eqb level "INFO" then "-"
  else if String.eqb level "OK" then "- [OK]"
  else if String.eqb level "WARN" then "- [!]"
  else if String.eqb level "ERROR" then "- [ERROR]"
  else if String.eqb level "ACTION" then ">"
  else if String.eqb level "TITLE" then ">"
  else "-".

Definition colors (level : string) : colour :=
  if String.eqb level "INFO" then WHITE
  else if String.eqb level "OK" then GREEN
  else if String.eqb level "WARN" then YELLOW
  else if String.eqb level "ERROR" then RED
  else if String.eqb level "ACTION" then CYAN
  else if String.eqb level "TITLE" then CYAN
  else LIGHTBLACK_EX.

Fixpoint repeat_str (s : string) (n : nat) : string :=
  match n with O => EmptyString | S n' => s +:+ repeat_str s n' end.

(** [write_console(message, level, indent)]: the line it prints. *)
Definition console_line (message : text) (level : string) (indent : nat) : out :=
  let level := pystr.upper level in
  let bullet := bullets level in
  let prefix := repeat_str "  " indent +:+ bullet +:+ " " in
  Line (colors level) prefix message.

(** [write_delete_line(folder_path, indent)] *)
Definition delete_line (folder_path : string) (indent : nat) : out :=
  Line RED (repeat_str "  " indent +:+ "- [DELETE] ") [Lit folder_path].

(** The state of the running process: the module-level list
    [folders_marked_for_deletion], standard output, and the lines appended
    to [triage.debug.log] by [write_debug]. *)
Record proc : Type := mkProc {
  folders_marked_for_deletion : list string;
  stdout : list out;
  debug_log : list text;
}.

Definition write_console (message : text) (level : string) (indent : nat)
    (p : proc) : proc :=
  mkProc (folders_marked_for_deletion p)
         (stdout p ++ [console_line message level indent])
         (debug_log p).

(** [write_debug(message)] once the debug log is open: the line is
    appended. *)
Definition write_debug (message : text) (p : proc) : proc :=
  mkProc (folders_marked_for_deletion p) (stdout p) (debug_log p ++ [message]).

Definition write_delete_line (folder_path : string) (indent : nat)
    (p : proc) : proc :=
  mkProc (folders_marked_for_deletion p)
         (stdout p ++ [delete_line folder_path indent])
         (debug_log p).

Definition print (o : out) (p : proc) : proc :=
  mkProc (folders_marked_for_deletion p) (stdout p ++ [o]) (debug_log p).

(** [folders_marked_for_deletion.append(path)] *)
Definition mark (path : string) (p : proc) : proc :=
  mkProc (folders_marked_for_deletion p ++ [path]) (stdout p) (debug_log p).

(* ===================================================================== *)
(** * Drive Registry: [detect_external_drives]                            *)
(* ===================================================================== *)

(** A [drive.json] as [open] + [json.load] finds it: either a value, or a
    file that makes the read raise (unreadable, not JSON). *)
Inductive descriptor_file : Type :=
| Parsed (data : jvalue)
| Unreadable (e : string).

(** The machine [detect_external_drives] runs on.  [uuid_at] and
    [choice_at] are the successive answers of [uuid4()] and of
    [random.choice]'s index draw; [open_w_error] says for which paths
    [open(path, "w")] raises, and with what message; [written] lists the
    paths [json.dump] has written to, oldest first. *)
Record host : Type := mkHost {
  GetDriveTypeW : string -> Z;
  descriptors : gmap string descriptor_file;
  open_w_error : string -> option string;
  uuid_at : nat -> string;
  uuids_drawn : nat;
  choice_at : nat -> nat;
  choices_drawn : nat;
  written : list string;
  console : proc;
}.

(** An entry of [valid_drives]: the dict with keys [path], [id], [name]
    and [json]. *)
Record drive_info : Type := mkDrive {
  drive_path : string;
  drive_id : jvalue;
  drive_name : jvalue;
  drive_json : dict;
}.

(** Computations over a state [S] that may raise an uncaught exception. *)
Inductive outcome (S A : Type) : Type :=
| Returns (a : A) (s : S)
| Raises (e : string) (s : S).
Arguments Returns {S A} a s.
Arguments Raises {S A} e s.

Definition M (S A : Type) : Type := S -> outcome S A.

Definition ret {S A} (a : A) : M S A := fun s => Returns a s.

Definition bind {S A B} (m : M S A) (k : A -> M S B) : M S B :=
  fun s => match m s with
           | Returns a s' => k a s'
           | Raises e s' => Raises e s'
           end.

Definition raise {S A} (e : string) : M S A := fun s => Raises e s.

Definition gets {S A} (f : S -> A) : M S A := fun s => Returns (f s) s.

Definition modify {S} (f : S -> S) : M S unit := fun s => Returns tt (f s).

Declare Scope py_scope.
Delimit Scope py_scope with py.
Notation "x <- m ;; k" := (bind m (fun x => k))
  (at level 100, m at next level, right associativity) : py_scope.
Notation "m ;;; k" := (bind m (fun _ => k))
  (at level 100, right associativity) : py_scope.

Fixpoint for_each {S A B} (xs : list A) (body : A -> B -> M S B) (acc : B)
  : M S B :=
  match xs with
  | [] => ret acc
  | x :: xs' => bind (body x acc) (for_each xs' body)
  end.

Definition on_console (f : proc -> proc) : M host unit :=
  modify (fun h => mkHost (GetDriveTypeW h) (descriptors h) (open_w_error h)
                          (uuid_at h) (uuids_drawn h)
                          (choice_at h) (choices_drawn h) (written h)
                          (f (console h))).

(** [str(uuid4())] *)
Definition uuid4_str : M host string :=
  fun h => Returns (uuid_at h (uuids_drawn h))
             (mkHost (GetDriveTypeW h) (descriptors h) (open_w_error h)
                     (uuid_at h) (S (uuids_drawn h))
                     (choice_at h) (choices_drawn h) (written h) (console h)).

(** [random.choice(seq)] *)
Definition random_choice (seq : list string) : M host string :=
  fun h => Returns (nth (choice_at h (choices_drawn h) mod length seq)%nat seq EmptyString)
             (mkHost (GetDriveTypeW h) (descriptors h) (open_w_error h)
                     (uuid_at h) (uuids_drawn h)
                     (choice_at h) (S (choices_drawn h)) (written h) (console h)).

Definition adjectives : list string :=
  ["Silver"; "Crimson"; "Midnight"; "Blue"; "Quiet"; "Stormy"; "Velvet"].
Definition animals : list string :=
  ["Falcon"; "Goose"; "Panther"; "Fox"; "Whale"; "Wolf"; "Jackal"].

Definition generate_human_name : M host string :=
  (a <- random_choice adjectives ;;
   b <- random_choice animals ;;
   ret (a +:+ " " +:+ b))%py.

(** [with open(path, "w") as f: json.dump(data, f, indent=2)] under
    [try]: the exception text and the file as it was, or the file
    replaced. *)
Definition json_dump (path : string) (data : dict) : M host (option string) :=
  fun h => match open_w_error h path with
           | Some e => Returns (Some e) h
           | None =>
               Returns None
                 (mkHost (GetDriveTypeW h) (<[path := Parsed (JObj data)]> (descriptors h))
                         (open_w_error h) (uuid_at h) (uuids_drawn h)
                         (choice_at h) (choices_drawn h) (written h ++ [path])
                         (console h))
           end.

(** [data.get] and [in] need a [dict]: on any other JSON value the
    attribute lookup raises [AttributeError], which nothing catches. *)
Definition as_dict (data : jvalue) : M host dict :=
  match data with
  | JObj kvs => ret kvs
  | _ => raise "AttributeError"
  end.

(** [str(v)] inside an f-string: a [str] prints as itself. *)
Definition fmt (v : jvalue) : frag :=
  match v with JStr s => Lit s | _ => Val v end.

Definition or_null (x : option jvalue) : jvalue :=
  match x with Some v => v | None => JNull end.

(** The body of [for drive in removable_drives]; a [continue] returns
    [valid_drives] as it stands. *)
Definition detect_drive (drive : string) (valid_drives : list drive_info)
  : M host (list drive_info) :=
  (on_console (write_console [Lit "Found drive: "; Lit drive] "INFO" 1) ;;;
   let drive_json_path := ntpath.join2 drive "drive.json" in
   file <- gets (fun h => descriptors h !! drive_json_path) ;;
   match file with
   | Some file =>
       on_console (write_console [Lit "drive.json found"] "OK" 2) ;;;
       match file with
       | Unreadable e =>
           on_console (write_console [Lit "Failed to read drive.json: "; Lit e] "ERROR" 2) ;;;
           ret valid_drives
       | Parsed data =>
           data <- as_dict data ;;
           if negb (is_True (dict_get data "source")) then
             on_console (write_console
                           [Lit "'source' is not set to true. Skipping drive."] "WARN" 2) ;;;
             ret valid_drives
           else
             let updated := false in
             du <- (if negb (dict_has data "id")
                    then u <- uuid4_str ;; ret (dict_set data "id" (JStr u), true)
                    else ret (data, updated)) ;;
             let '(data, updated) := du in
             du <- (if negb (dict_has data "name")
                    then n <- generate_human_name ;;
                         ret (dict_set data "name" (JStr n), true)
                    else ret (data, updated)) ;;
             let '(data, updated) := du in
             let name := or_null (dict_get data "name") in
             let id_ := or_null (dict_get data "id") in
             let entry := mkDrive drive id_ name data in
             if updated then
               r <- json_dump drive_json_path data ;;
               match r with
               | None =>
                   on_console (write_console
                     [Lit "Drive baptized as: "; fmt name; Lit " ("; fmt id_; Lit ")"] "OK" 2) ;;;
                   ret (valid_drives ++ [entry])
               | Some e =>
                   on_console (write_console
                     [Lit "Failed to write updated drive.json: "; Lit e] "ERROR" 2) ;;;
                   ret valid_drives
               end
             else
               on_console (write_console
                 [Lit "Drive already baptized: "; fmt name; Lit " ("; fmt id_; Lit ")"] "INFO" 2) ;;;
               ret (valid_drives ++ [entry])
       end
   | None =>
       on_console (write_console [Lit "No drive.json found. Skipping."] "INFO" 2) ;;;
       ret valid_drives
   end)%py.

Definition ascii_uppercase : list ascii :=
  String.list_ascii_of_string "ABCDEFGHIJKLMNOPQRSTUVWXYZ".

(** [f"{letter}:\\"] *)
Definition drive_root (letter : ascii) : string := String letter ":\".

Definition DRIVE_REMOVABLE : Z := 2.

(** [detect_external_drives()] *)
Definition detect_external_drives : M host (list drive_info) :=
  (on_console (write_console [Lit "Detecting external sources"] "TITLE" 0) ;;;
   let valid_drives := [] in
   types <- gets GetDriveTypeW ;;
   let removable_drives :=
     map drive_root
         (filter (fun letter => types (drive_root letter) = DRIVE_REMOVABLE)
                 ascii_uppercase) in
   (match removable_drives with
    | [] => on_console (write_console [Lit "No removable drives detected."] "WARN" 1)
    | _ => ret tt
    end) ;;;
   for_each removable_drives detect_drive valid_drives)%py.

(* ===================================================================== *)
(** * Media Classifier and Import Walker                                  *)
(* ===================================================================== *)

(** A directory entry as [os.scandir] reports it.  [EFile] answers
    [is_file()], [EDir] answers [is_dir()] (a link to a directory has
    [islink] set), [EOther] answers neither.  The listing of a directory
    is its entries, or the message of the [OSError] that listing it
    raises.  The tree is the state of a volume during the walk: nothing is
    created or removed on the volume before the deletion step. *)
Inductive entry : Type :=
| EFile (name : string)
| EOther (name : string)
| EDir (name : string) (islink : bool) (listing : string + list entry).

Abbreviation scan := (string + list entry)%type.

Definition entry_name (e : entry) : string :=
  match e with
  | EFile n | EOther n | EDir n _ _ => n
  end.

Definition is_dir (e : entry) : bool :=
  match e with EDir _ _ _ => true | _ => false end.

Definition is_file (e : entry) : bool :=
  match e with EFile _ => true | _ => false end.

(** [x in xs] for a list of strings. *)
Definition str_in (x : string) (xs : list string) : bool :=
  existsb (String.eqb x) xs.

(** The list literal of [try_remove_folder]. *)
Definition media_exts_purge : list string :=
  [".jpg"; ".jpeg"; ".png"; ".gif"; ".bmp"; ".heic"; ".mp4"; ".mov"; ".avi"; ".mkv"].

(** The list literal of [import_from_external_drives]. *)
Definition media_exts_import : list string :=
  [".jpg"; ".jpeg"; ".png"; ".gif"; ".bmp"; ".heic"; ".mp4"; ".mov"; ".avi"; ".mkv"].

(** [os.path.splitext(name)[1].lower()] *)
Definition ext_of (name : string) : string :=
  pystr.lower (snd (ntpath.splitext name)).

(** The media test of [try_remove_folder] on a file name. *)
Definition is_media_purge (name : string) : bool :=
  str_in (ext_of name) media_exts_purge.

(** The media test of [import_from_external_drives] on a file name. *)
Definition is_media_import (name : string) : bool :=
  str_in (ext_of name) media_exts_import.

(** One round of [for entry in entries] on [(has_media, has_subfolders)]. *)
Definition inspect_entry (flags : bool * bool) (e : entry) : bool * bool :=
  let '(has_media, has_subfolders) := flags in
  if is_dir e then (has_media, true)
  else if is_file e then
    (if is_media_purge (entry_name e) then (true, has_subfolders)
     else (has_media, has_subfolders))
  else (has_media, has_subfolders).

Definition inspect_entries (entries : list entry) : bool * bool :=
  fold_left inspect_entry entries (false, false).

(** [try_remove_folder(folder_path, drive_info)]; [listing] is what
    [os.scandir(folder_path)] answers. *)
Definition try_remove_folder (folder_path : string) (listing : scan)
    (p : proc) : proc :=
  let p := write_debug [Lit "[CALL] try_remove_folder → "; Lit folder_path] p in
  match listing with
  | inl e =>
      write_debug [Lit "[ERROR] Cannot access "; Lit folder_path; Lit ": "; Lit e] p
  | inr entries =>
      let '(has_media, has_subfolders) := inspect_entries entries in
      if negb has_media && negb has_subfolders then
        let p := mark folder_path p in
        let p := write_delete_line folder_path 2 p in
        write_debug [Lit "[MARKED] "; Lit folder_path; Lit " marked for deletion"] p
      else p
  end.

(** [backup_media_file(file_path, drive_info)] *)
Definition backup_media_file (file_path : string) (drive : drive_info)
    (p : proc) : proc :=
  write_console [Lit "[DRY RUN] Would backup: "; Lit file_path; Lit " from ";
                 fmt (drive_name drive)] "INFO" 2 p.

(** One item produced by [os.walk]: the triple [(root, dirs, files)],
    together with the listing [os.scandir(root)] answers while the item is
    being processed. *)
Record visit : Type := mkVisit {
  v_root : string;
  v_dirs : list string;
  v_files : list string;
  v_listing : list entry;
}.

Definition visit_of (top : string) (entries : list entry) : visit :=
  mkVisit top
          (map entry_name (List.filter is_dir entries))
          (map entry_name (List.filter (fun e => negb (is_dir e)) entries))
          entries.

(** [os.walk] below [top], top-down: a directory that is not a link and
    can be listed is visited, then its subdirectories in order. *)
Fixpoint walk_entry (top : string) (e : entry) : list visit :=
  match e with
  | EDir name false (inr entries) =>
      let new_path := ntpath.join2 top name in
      visit_of new_path entries :: flat_map (walk_entry new_path) entries
  | _ => []
  end.

(** [os.walk(top)], where [listing] is the listing of [top]. *)
Definition os_walk (top : string) (listing : scan) : list visit :=
  match listing with
  | inl _ => []
  | inr entries => visit_of top entries :: flat_map (walk_entry top) entries
  end.

(** [json_data.get("purge", False)] *)
Definition purge_flag (json_data : dict) : jvalue :=
  match dict_get json_data "purge" with
  | Some v => v
  | None => JBool false
  end.

(** The root test of the walk: [os.path.normpath(root) !=
    os.path.normpath(root_path)]. *)
Definition differs_from_root (root root_path : string) : bool :=
  negb (String.eqb (ntpath.normpath root) (ntpath.normpath root_path)).

(** The loop [for file in files] of the walk. *)
Definition import_files (root : string) (drive : drive_info)
    (files : list string) (p : proc) : proc :=
  fold_left
    (fun p file =>
       if is_media_import file
       then backup_media_file (ntpath.join2 root file) drive p
       else p)
    files p.

(** The body of [for root, dirs, files in os.walk(root_path)].  The
    [try] around the root test has nothing to catch here: [normpath] does
    not raise on a [str], and [try_remove_folder] handles its own listing
    error. *)
Definition import_visit (drive : drive_info) (purge : jvalue) (v : visit)
    (p : proc) : proc :=
  let root := v_root v in
  let root_path := drive_path drive in
  let p := import_files root drive (v_files v) p in
  let p := write_debug [Lit "[BEFORE PURGE] Purge is active in "; Lit root] p in
  let p := write_debug [Lit "[PURGE] =  "; Val purge] p in
  if truthy purge then
    let p := write_debug [Lit "[AFTER PURGE] Purge is active in "; Lit root] p in
    let p := write_debug [Lit "CHECK: comparing root="; Lit root;
                          Lit " vs root_path="; Lit root_path] p in
    if differs_from_root root root_path
    then try_remove_folder root (inr (v_listing v)) p
    else write_debug [Lit "✘ PATHS MATCH → skipping "; Lit root] p
  else p.

(** The body of [for drive in drives]; [volumes] answers
    [os.scandir] at a mount root. *)
Definition import_drive (volumes : string -> scan) (drive : drive_info)
    (p : proc) : proc :=
  let root_path := drive_path drive in
  let json_data := drive_json drive in
  let purge := purge_flag json_data in
  let p := write_debug [Lit "[DEBUG CONFIG] drive JSON raw: "; Val (JObj json_data)] p in
  let p := write_console [Lit "Processing drive: "; fmt (drive_name drive)] "ACTION" 1 p in
  fold_left (fun p v => import_visit drive purge v p)
            (os_walk root_path (volumes root_path)) p.

(** [import_from_external_drives(drives)] *)
Definition import_from_external_drives (volumes : string -> scan)
    (drives : list drive_info) (p : proc) : proc :=
  let p := write_console [Lit "Importing from external drives"] "TITLE" 0 p in
  fold_left (fun p drive => import_drive volumes drive p) drives p.

(* ===================================================================== *)
(** * Deletion Pipeline                                                   *)
(* ===================================================================== *)

(** Reading a text file translates [\r\n] and a lone [\r] to [\n]. *)
Fixpoint universal_newlines (s : string) : string :=
  match s with
  | EmptyString => EmptyString
  | String c r =>
      if Ascii.eqb c pystr.CR then
        String pystr.LF
               match r with
               | String d r' =>
                   if Ascii.eqb d pystr.LF then universal_newlines r'
                   else universal_newlines r
               | EmptyString => EmptyString
               end
      else String c (universal_newlines r)
  end.

(** The lines of a text, each with its line end. *)
Fixpoint keepends (s : string) : list string :=
  match s with
  | EmptyString => []
  | String c r =>
      if Ascii.eqb c pystr.LF then String c EmptyString :: keepends r
      else match keepends r with
           | [] => [String c EmptyString]
           | l :: ls => String c l :: ls
           end
  end.

(** [for line in f] on a file opened for reading in text mode. *)
Definition file_lines (content : string) : list string :=
  keepends (universal_newlines content).

(** [[line.strip() for line in f if line.strip()]] *)
Definition read_folders (content : string) : list string :=
  map pystr.strip
      (List.filter (fun line => pystr.nonempty (pystr.strip line))
                   (file_lines content)).

(** What [write_folders_to_delete_log] writes for a candidate list:
    [folder + "\n"] for each folder in turn. *)
Fixpoint log_text (folders : list string) : string :=
  match folders with
  | [] => EmptyString
  | folder :: rest => folder +:+ String pystr.LF (log_text rest)
  end.

(** The disk as the pipeline sees it: the text files by path.
    [removals] lists the calls of [shutil.rmtree] so far, oldest first. *)
Record sys : Type := mkSys {
  files : gmap string string;
  removals : list string;
  process : proc;
}.

Definition on_process (f : proc -> proc) (st : sys) : sys :=
  mkSys (files st) (removals st) (f (process st)).

(** [enumerate(xs, start)] *)
Fixpoint enumerate {A} (xs : list A) (start : nat) : list (nat * A) :=
  match xs with
  | [] => []
  | x :: xs' => (start, x) :: enumerate xs' (S start)
  end.

(** [os.path.join(config["system"]["logs_path"], "folders_to_delete.log")] *)
Definition deletion_log (logs_path : string) : string :=
  ntpath.join2 logs_path "folders_to_delete.log".

Section Pipeline.

(** [shutil.rmtree] is taken as given: on a disk and a path it leaves a
    disk, and either returns or raises an [Exception] with a message. *)
Variable rmtree : gmap string string -> string -> gmap string string * option string.

(** For which paths [open(path, "w")] raises. *)
Variable open_w_error : string -> option string.

(** In which states [open(DEBUG_LOG_PATH, "a")] raises during the batch:
    the removals change the disk the debug log lives on, and [write_debug]
    catches nothing. *)
Variable open_a_error : sys -> option string.

(** [write_folders_to_delete_log(config)] *)
Definition write_folders_to_delete_log (logs_path : string) : M sys unit :=
  fun st =>
    let deletion_log := deletion_log logs_path in
    match open_w_error deletion_log with
    | Some e => Raises e st
    | None =>
        let text := log_text (folders_marked_for_deletion (process st)) in
        let st := mkSys (<[deletion_log := text]> (files st)) (removals st)
                        (process st) in
        Returns tt
          (on_process
             (write_console [Lit "Wrote list of folders to delete: ";
                             Lit deletion_log] "OK" 1) st)
    end.

(** [shutil.rmtree(folder)] under [try]: what [except Exception as e]
    caught, if anything was raised. *)
Definition remove_tree (folder : string) : M sys (option string) :=
  fun st =>
    let '(disk, raised) := rmtree (files st) folder in
    Returns raised (mkSys disk (removals st ++ [folder]) (process st)).

(** [write_debug(message)] in the handler of the loop: the exception of
    its [open] leaves the handler and the loop. *)
Definition write_debug_line (message : text) : M sys unit :=
  fun st =>
    match open_a_error st with
    | Some e => Raises e st
    | None => Returns tt (on_process (write_debug message) st)
    end.

(** The four [print] calls of a round, after the cursor has moved up. *)
Definition show_progress (total i : nat) (folder : string) (st : sys) : sys :=
  let st := if (1 <? i)%nat then on_process (print CursorUp) st else st in
  let st := on_process (print ClearLine) st in
  let st := on_process (print ClearLine) st in
  let st := on_process (print (ProgressBar i total)) st in
  on_process (print (Current folder)) st.

(** One round of [for i, folder in enumerate(folders, 1)]. *)
Definition delete_round (total : nat) (item : nat * string) (_ : unit)
  : M sys unit :=
  let '(i, folder) := item in
  (raised <- remove_tree folder ;;
   (match raised with
    | Some e =>
        write_debug_line [Lit "[DELETE ERROR] "; Lit folder; Lit ": "; Lit e]
    | None => ret tt
    end) ;;;
   modify (show_progress total i folder))%py.

(** The prints after the loop. *)
Definition show_done (st : sys) : sys :=
  let st := on_process (print CursorUp) st in
  let st := on_process (print ClearLine) st in
  let st := on_process (print ClearLine) st in
  on_process (write_console [Lit "Folder deletion completed."] "OK" 0) st.

(** The rounds for [items], up to the first one that raises. *)
Definition delete_rounds (total : nat) (items : list (nat * string))
  : M sys unit :=
  for_each items (delete_round total) tt.

(** [confirm_and_delete_folders(config)] *)
Definition confirm_and_delete_folders (logs_path : string) : M sys unit :=
  fun st =>
    let deletion_log := deletion_log logs_path in
    match files st !! deletion_log with
    | None => Returns tt st
    | Some content =>
        let folders := read_folders content in
        match folders with
        | [] => Returns tt st
        | _ =>
            (modify (on_process
                       (write_console [Lit "Deleting "; Num (length folders);
                                       Lit " folders..."] "TITLE" 0)) ;;;
             let total := length folders in
             delete_rounds total (enumerate folders 1) ;;;
             modify show_done)%py st
        end
    end.

(** [finalize_purge_log_and_delete(config)] *)
Definition finalize_purge_log_and_delete (logs_path : string) : M sys unit :=
  fun st =>
    match folders_marked_for_deletion (process st) with
    | [] => Returns tt st
    | _ =>
        (write_folders_to_delete_log logs_path ;;;
         confirm_and_delete_folders logs_path)%py st
    end.

End Pipeline.

(** [path] is [folder] or lies under it. *)
Definition below (folder path : string) : bool :=
  String.eqb path folder
  || pystr.startswith (folder +:+ String ntpath.sep EmptyString) path.

(** A [shutil.rmtree] on a disk where nothing is protected: everything at
    or below [folder] goes; a folder with nothing in it is reported as
    missing. *)
Definition rmtree_all (disk : gmap string string) (folder : string)
  : gmap string string * option string :=
  let rest := filter (fun kv => below folder kv.1 = false) disk in
  (rest, if decide (rest = disk)
         then Some "[WinError 3] The system cannot find the path specified"
         else None).

(** Every file can be opened for writing. *)
Definition no_error (path : string) : option string := None.

(* ===================================================================== *)
(** * Vocabulary of the specification                                     *)
(* ===================================================================== *)

(** What the classifier can see of an entry without descending into it:
    its name and the answers of [is_dir()] and [is_file()]. *)
Definition shallow (e : entry) : string * bool * bool :=
  (entry_name e, is_dir e, is_file e).

(** A file with a media extension, as [try_remove_folder] judges it. *)
Definition media_file (e : entry) : bool :=
  is_file e && is_media_purge (entry_name e).

(** The directory holds zero media files and zero subdirectories. *)
Definition purge_eligible (entries : list entry) : bool :=
  forallb (fun e => negb (media_file e)) entries
  && forallb (fun e => negb (is_dir e)) entries.

(** The specification's [MediaExtensionSet]. *)
Definition MediaExtensionSet : list string :=
  [".jpg"; ".jpeg"; ".png"; ".gif"; ".bmp"; ".heic"; ".mp4"; ".mov"; ".avi"; ".mkv"].

(** The specification's [is_media(filename)]: true iff the lower-cased
    extension is in [MediaExtensionSet]. *)
Definition is_media (filename : string) : bool :=
  str_in (pystr.lower (snd (ntpath.splitext filename))) MediaExtensionSet.

(** A string without a dot and without a path separator. *)
Fixpoint plain (s : string) : bool :=
  match s with
  | EmptyString => true
  | String c r =>
      negb (Ascii.eqb c ntpath.extsep) && negb (Ascii.eqb c ntpath.sep)
      && negb (Ascii.eqb c ntpath.altsep) && plain r
  end.

(** A name that is a dot followed by a media extension and nothing else,
    in any mix of upper and lower case. *)
Definition bare_extension (name : string) : bool :=
  str_in (pystr.lower name) MediaExtensionSet.

(** A string of dots only. *)
Fixpoint only_dots (s : string) : bool :=
  match s with
  | EmptyString => true
  | String c r => Ascii.eqb c ntpath.extsep && only_dots r
  end.

(** A string without a path separator. *)
Fixpoint no_separator (s : string) : bool :=
  match s with
  | EmptyString => true
  | String c r => negb (ntpath.is_sep c) && no_separator r
  end.

(** A file name made of a stem and a media extension in any mix of upper
    and lower case; the stem holds no separator and at least one character
    that is not a dot.  [IMG_1.JPG] and [trip.2020.jpeg] are such names. *)
Definition media_name (name : string) : Prop :=
  exists stem ext,
    name = stem +:+ ext /\ no_separator stem = true /\ only_dots stem = false
    /\ bare_extension ext = true.

(** A media extension with nothing but dots before it: [.jpg], [..mp4]. *)
Definition dotted_name (name : string) : Prop :=
  exists dots ext,
    name = dots +:+ ext /\ only_dots dots = true /\ bare_extension ext = true.

(** [s] ends with [suffix]. *)
Definition ends_with (s suffix : string) : Prop :=
  exists front, s = front +:+ suffix.

(** The same, computed. *)
Fixpoint endswith (suffix s : string) : bool :=
  String.eqb suffix s
  || match s with
     | EmptyString => false
     | String _ r => endswith suffix r
     end.

(** The name, in lower case, ends with none of the media extensions. *)
Definition no_media_suffix (name : string) : Prop :=
  forall ext, In ext MediaExtensionSet -> ~ ends_with (pystr.lower name) ext.

(** ** Drive Registry *)

(** The state a computation ends in, returned or raised. *)
Definition state_of {S A} (o : outcome S A) : S :=
  match o with
  | Returns _ s => s
  | Raises _ s => s
  end.

(** [m] run from [s] ends in a state and, if it returns, a value that
    satisfy [Q]; if it raises, in a state that satisfies [E]. *)
Definition wp {S A} (m : M S A) (Q : A -> S -> Prop) (E : S -> Prop) (s : S)
  : Prop :=
  match m s with
  | Returns a s' => Q a s'
  | Raises _ s' => E s'
  end.

(** Where the descriptor of the volume mounted at [root] lives. *)
Definition descriptor_path (root : string) : string :=
  ntpath.join2 root "drive.json".

(** The descriptor holds both an [id] and a [name]. *)
Definition complete (data : dict) : bool :=
  dict_has data "id" && dict_has data "name".

(** [extra] holds only [id] and [name] fields, and only ones [data] lacks. *)
Definition provisioned (data extra : dict) : Prop :=
  Forall (fun kv => (kv.1 = "id" \/ kv.1 = "name") /\ dict_has data kv.1 = false)
         extra.

(** Between [h] and [h'] the descriptor at [path] was provisioned: it was
    an eligible object without [id] or without [name], and it now is that
    same object followed by the fields it lacked. *)
Definition rewritten (h h' : host) (path : string) : Prop :=
  exists data extra,
    descriptors h !! path = Some (Parsed (JObj data))
    /\ descriptors h' !! path = Some (Parsed (JObj (data ++ extra)))
    /\ provisioned data extra
    /\ complete data = false
    /\ complete (data ++ extra) = true
    /\ is_True (dict_get data "source") = true.

(** How discovery may change the host: the machine stays the same, and
    the descriptors that were written are exactly the provisioned ones. *)
Definition evolves (h h' : host) : Prop :=
  GetDriveTypeW h' = GetDriveTypeW h
  /\ open_w_error h' = open_w_error h
  /\ uuid_at h' = uuid_at h
  /\ choice_at h' = choice_at h
  /\ exists ws,
      written h' = written h ++ ws
      /\ (forall path, path ∉ ws -> descriptors h' !! path = descriptors h !! path)
      /\ (forall path, path ∈ ws -> rewritten h h' path).

(** The descriptor of the volume at [root] is an object whose [source]
    is the boolean [true]. *)
Definition source_is_true (h : host) (root : string) : bool :=
  match descriptors h !! descriptor_path root with
  | Some (Parsed (JObj data)) => is_True (dict_get data "source")
  | _ => false
  end.

(** An entry of the result agrees with the descriptor on disk. *)
Definition registered (h : host) (d : drive_info) : Prop :=
  descriptors h !! descriptor_path (drive_path d) = Some (Parsed (JObj (drive_json d)))
  /\ complete (drive_json d) = true
  /\ is_True (dict_get (drive_json d) "source") = true
  /\ drive_id d = or_null (dict_get (drive_json d) "id")
  /\ drive_name d = or_null (dict_get (drive_json d) "name").

(** ** Worked example: two removable volumes

    [E:] carries an eligible descriptor without identity; the descriptor
    of [F:] has [source] set to the number 1; [G:] is baptized already. *)
Definition example_host : host :=
  mkHost
    (fun root =>
       if String.eqb root "E:\" || String.eqb root "F:\" || String.eqb root "G:\"
       then 2 else 3)
    (<["E:\drive.json" := Parsed (JObj [("source", JBool true); ("purge", JBool true);
                                       ("owner", JStr "jorge")])]>
     (<["F:\drive.json" := Parsed (JObj [("source", JInt 1); ("id", JStr "f-1");
                                         ("name", JStr "Blue Fox")])]>
      (<["G:\drive.json" := Parsed (JObj [("id", JStr "g-7"); ("source", JBool true);
                                          ("name", JStr "Quiet Whale")])]> ∅)))
    (fun _ => None)
    (fun n => "3f2b8c1e-0000-4000-8000-000000000000")
    0
    (fun n => n)
    0
    []
    (mkProc [] [] []).

(** ** Import Walker *)

(** A path on the drive with letter [letter]: it starts with the letter
    and a colon. *)
Definition on_drive (letter : ascii) (path : string) : Prop :=
  exists rest, path = String letter (String ntpath.colon rest).

(** A name a Windows volume can hold: no colon and no path separator. *)
Fixpoint valid_name (name : string) : bool :=
  match name with
  | EmptyString => true
  | String c r =>
      negb (Ascii.eqb c ntpath.colon) && negb (Ascii.eqb c ntpath.sep)
      && negb (Ascii.eqb c ntpath.altsep) && valid_name r
  end.

Fixpoint valid_entry (e : entry) : bool :=
  valid_name (entry_name e)
  && match e with
     | EDir _ _ (inr entries) => forallb valid_entry entries
     | _ => true
     end.

Definition valid_listing (listing : scan) : bool :=
  match listing with
  | inl _ => true
  | inr entries => forallb valid_entry entries
  end.

(** The visits of a walk that put their directory on the candidate list. *)
Definition marking_visit (drive : drive_info) (v : visit) : bool :=
  truthy (purge_flag (drive_json drive))
  && differs_from_root (v_root v) (drive_path drive)
  && purge_eligible (v_listing v).

(** The scenario of the specification: [E:\DCIM\100\IMG_1.JPG] and an
    empty [E:\DCIM\EMPTY], on a drive with [purge] set. *)
Definition example_volume : list entry :=
  [EFile "drive.json";
   EDir "DCIM" false
        (inr [EDir "100" false (inr [EFile "IMG_1.JPG"]);
              EDir "EMPTY" false (inr [])])].

Definition example_drive : drive_info :=
  mkDrive "E:\" (JStr "3f2b8c1e") (JStr "Silver Goose")
          [("source", JBool true); ("purge", JBool true)].

(** A volume with nothing on it. *)
Definition empty_drive : drive_info :=
  mkDrive "F:\" (JStr "77aa") (JStr "Blue Fox")
          [("source", JBool true); ("purge", JBool true)].

(** ** Deletion Pipeline *)

(** The white space of the range: the characters [str.strip] removes. *)
Definition white_space : list ascii :=
  map pystr.chr [9; 10; 11; 12; 13; 28; 29; 30; 31; 32; 133; 160]%nat.

Definition white (c : ascii) : bool := existsb (Ascii.eqb c) white_space.

(** A string of white space only. *)
Fixpoint all_white (s : string) : bool :=
  match s with
  | EmptyString => true
  | String c r => white c && all_white r
  end.

(** [entry] is [line] without the white space at its two ends: what is
    cut off is white space, and [entry] neither starts nor ends with a
    white space character. *)
Definition trimmed (line entry : string) : Prop :=
  exists front back,
    line = front +:+ entry +:+ back
    /\ all_white front = true /\ all_white back = true
    /\ (forall c r, entry = String c r -> white c = false)
    /\ (forall r c, entry = r +:+ String c EmptyString -> white c = false).

(** A line of the log that holds white space only, as [strip] sees it. *)
Fixpoint blank (s : string) : bool :=
  match s with
  | EmptyString => true
  | String c r => pystr.isspace c && blank r
  end.

(** The character [c] does not occur in [s]. *)
Fixpoint lacks (c : ascii) (s : string) : bool :=
  match s with
  | EmptyString => true
  | String d r => negb (Ascii.eqb d c) && lacks c r
  end.


(** The last character of [String c r]. *)
Fixpoint last_of (c : ascii) (r : string) : ascii :=
  match r with
  | EmptyString => c
  | String d r' => last_of d r'
  end.

(** A path that survives the round trip through the log: not empty, no
    white space at either end, no line break inside. *)
Definition clean_path (path : string) : bool :=
  match path with
  | EmptyString => false
  | String c r => negb (white c) && negb (white (last_of c r))
  end
  && lacks pystr.CR path && lacks pystr.LF path.

(** The line [write_debug] leaves for a failed removal. *)
Definition delete_error (folder e : string) : text :=
  [Lit "[DELETE ERROR] "; Lit folder; Lit ": "; Lit e].

(** The state Phase 2 is in when its loop starts: the banner is out. *)
Definition deletion_started (folders : list string) (st : sys) : sys :=
  on_process
    (write_console [Lit "Deleting "; Num (length folders); Lit " folders..."]
                   "TITLE" 0) st.

(** The state after the first [k] rounds of the loop over [folders], or
    the state in which an earlier round raised. *)
Definition after_rounds
    (rmtree : gmap string string -> string -> gmap string string * option string)
    (open_a_error : sys -> option string)
    (folders : list string) (k : nat) (st : sys) : sys :=
  state_of (delete_rounds rmtree open_a_error (length folders)
                          (take k (enumerate folders 1))
                          (deletion_started folders st)).

(** The disk after [shutil.rmtree] on [folders], one after the other. *)
Definition disk_after
    (rmtree : gmap string string -> string -> gmap string string * option string)
    (folders : list string) (disk : gmap string string) : gmap string string :=
  fold_left (fun disk folder => (rmtree disk folder).1) folders disk.

(** The lines the failed removals of [folders] leave in the debug log. *)
Fixpoint batch_errors
    (rmtree : gmap string string -> string -> gmap string string * option string)
    (folders : list string) (disk : gmap string string) : list text :=
  match folders with
  | [] => []
  | folder :: rest =>
      match (rmtree disk folder).2 with
      | Some e => [delete_error folder e]
      | None => []
      end
      ++ batch_errors rmtree rest (rmtree disk folder).1
  end.

(** The state right after the call of [shutil.rmtree] on [folder]. *)
Definition attempt
    (rmtree : gmap string string -> string -> gmap string string * option string)
    (folder : string) (st : sys) : sys :=
  mkSys (rmtree (files st) folder).1 (removals st ++ [folder]) (process st).


(** The debug log opens whenever the batch needs it. *)
Definition debug_log_opens (st : sys) : option string := None.

(** The debug log is locked by another process. *)
Definition debug_log_locked (st : sys) : option string :=
  Some "[Errno 13] Permission denied: 'triage.debug.log'".

(** ** Worked examples for the pipeline

    The tool lives in [C:\triage]; two directories of [E:] are candidates,
    [E:\DCIM\EMPTY] holds nothing and [E:\DCIM\OLD] holds a text file. *)
Definition example_sys : sys :=
  mkSys {["E:\DCIM\OLD\notes.txt" := "sidecar"]} []
        (mkProc ["E:\DCIM\EMPTY"; "E:\DCIM\OLD"] [] []).



(** The tool kept on the removable drive itself, in [E:\triage], with the
    [logs] directory that [initialize_triage] makes. *)
Definition portable_volume : list entry :=
  [EFile "drive.json";
   EDir "triage" false
        (inr [EFile "triage.py"; EFile "console.py"; EFile "config.json";
              EFile "triage.debug.log"; EDir "logs" false (inr [])])].

(** The process after the import of that drive, on a disk with no text
    file of interest yet. *)
Definition example_sys_portable : sys :=
  mkSys ∅ []
        (import_from_external_drives (fun _ => inr portable_volume)
                                     [example_drive] (mkProc [] [] [])).

(** ** Drive Registry, continued *)

(** The removable mount roots, in the order discovery visits them. *)
Definition removable_roots (h : host) : list string :=
  map drive_root
      (filter (fun letter => GetDriveTypeW h (drive_root letter) = DRIVE_REMOVABLE)
              ascii_uppercase).

(** The descriptor at [root] parses, but not to an object. *)
Definition non_object (h : host) (root : string) : bool :=
  match descriptors h !! descriptor_path root with
  | Some (Parsed (JObj _)) => false
  | Some (Parsed _) => true
  | _ => false
  end.

(** The descriptor at [root] is an object that holds [id] and [name]. *)
Definition baptized (h : host) (root : string) : bool :=
  match descriptors h !! descriptor_path root with
  | Some (Parsed (JObj data)) => complete data
  | _ => false
  end.

(** The descriptor at [root] can be opened for writing. *)
Definition writable (h : host) (root : string) : bool :=
  match open_w_error h (descriptor_path root) with
  | None => true
  | Some _ => false
  end.

(** The volume at [root] ends up in the result: its descriptor is an
    eligible object that is baptized already or can be written back. *)
Definition accepted (h : host) (root : string) : bool :=
  source_is_true h root && (baptized h root || writable h root).

(** Two hosts that differ in what is on the console and in how much
    randomness was drawn, at most. *)
Definition same_machine (h h' : host) : Prop :=
  GetDriveTypeW h' = GetDriveTypeW h
  /\ open_w_error h' = open_w_error h
  /\ uuid_at h' = uuid_at h
  /\ choice_at h' = choice_at h.

(** The names [generate_human_name] can produce. *)
Definition human_names : list string :=
  flat_map (fun a => map (fun b => a +:+ " " +:+ b) animals) adjectives.

(** ** Import Walker, continued *)

(** The line [backup_media_file] prints for [file] found in [root]. *)
Definition backup_line (root : string) (drive : drive_info) (file : string) : out :=
  console_line [Lit "[DRY RUN] Would backup: "; Lit (ntpath.join2 root file);
                Lit " from "; fmt (drive_name drive)] "INFO" 2.

(** What the visit of one directory puts on the console: a line for each
    media file, then the [DELETE] line if the directory is marked. *)
Definition visit_output (drive : drive_info) (v : visit) : list out :=
  map (backup_line (v_root v) drive) (List.filter is_media_import (v_files v))
  ++ (if marking_visit drive v then [delete_line (v_root v) 2] else []).

(** A path at or under the mount root of the drive with letter [letter]. *)
Definition below_root (letter : ascii) (path : string) : Prop :=
  exists rest,
    path = String letter (String ntpath.colon (String ntpath.sep rest)).

(** ** Deletion Pipeline, continued *)

(** The paths Phase 2 works through: what the log on disk lists, nothing
    when there is no log. *)
Definition work_list (logs_path : string) (st : sys) : list string :=
  match files st !! deletion_log logs_path with
  | Some content => read_folders content
  | None => []
  end.

(** What one round of Phase 2 prints. *)
Definition round_output (total : nat) (item : nat * string) : list out :=
  (if (1 <? item.1)%nat then [CursorUp] else [])
  ++ [ClearLine; ClearLine; ProgressBar item.1 total; Current item.2].

(** What the completed rounds for [items] have made of [st]: every path
    was handed to [shutil.rmtree] in turn, every failure is in the debug
    log, every round has drawn its progress, and the candidate list is as
    it was. *)
Definition rounds_done
    (rmtree : gmap string string -> string -> gmap string string * option string)
    (total : nat) (items : list (nat * string)) (st st' : sys) : Prop :=
  removals st' = removals st ++ map snd items
  /\ files st' = disk_after rmtree (map snd items) (files st)
  /\ folders_marked_for_deletion (process st')
     = folders_marked_for_deletion (process st)
  /\ stdout (process st')
     = stdout (process st) ++ flat_map (round_output total) items
  /\ debug_log (process st')
     = debug_log (process st) ++ batch_errors rmtree (map snd items) (files st).


(** ** Start-up: [load_config], [validate_paths], [initialize_triage], [main] *)

(** [s.rstrip("\\/")] *)
Fixpoint rstrip_seps (s : string) : string :=
  match s with
  | EmptyString => EmptyString
  | String c r =>
      match rstrip_seps r with
      | EmptyString => if ntpath.is_sep c then EmptyString else String c EmptyString
      | r' => String c r'
      end
  end.

(** The loop [while i and p[i-1] not in seps: i -= 1] of [ntpath.split],
    started at [i]. *)
Fixpoint tail_start (p : string) (i : nat) : nat :=
  match i with
  | O => O
  | S j =>
      match String.get j p with
      | Some c => if ntpath.is_sep c then i else tail_start p j
      | None => tail_start p j
      end
  end.

(** [os.path.split(p)] *)
Definition ntpath_split (p : string) : string * string :=
  let '(d, p) := ntpath.splitdrive p in
  let i := tail_start p (String.length p) in
  let head := pystr.take (Z.of_nat i) p in
  let tail := pystr.drop (Z.of_nat i) p in
  let head := match rstrip_seps head with
              | EmptyString => head
              | stripped => stripped
              end in
  (d +:+ head, tail).

(** [os.path.dirname(p)] *)
Definition dirname (p : string) : string := (ntpath_split p).1.

(** What the program takes from its surroundings and never changes:
    [config.json] in the working directory; what [os.path.exists] answers
    for a path and for a file descriptor ([None] when it raises
    [OverflowError]); for which paths [os.makedirs] raises (the flag is
    [exist_ok]); [__file__]; the [UnicodeEncodeError] that [print] raises
    on a line holding U+2192 when standard output cannot encode it (the
    ASCII repertoire and the names the program prints are taken to be
    encodable); and in which states of the deletion step the debug log
    cannot be opened for appending. *)
Record startup : Type := mkStartup {
  config_json : descriptor_file;
  path_exists : string -> bool;
  fd_exists : Z -> option bool;
  makedirs_error : string -> bool -> option string;
  module_file : string;
  arrow_error : option string;
  debug_a_error : sys -> option string;
}.

(** A run of the program: the surroundings, the calls of [os.makedirs] so
    far, the host of the drive registry (it holds the descriptors, and its
    console is the state of the process, debug log included), the
    directory trees of the volumes as they are when walked, the text files
    the deletion step reads and writes (the deletion log among them), and
    the calls of [shutil.rmtree] so far. *)
Record world : Type := mkWorld {
  boot : startup;
  made : list string;
  machine : host;
  volumes_of : string -> scan;
  disk : gmap string string;
  removed : list string;
}.

Definition with_machine (w : world) (h : host) : world :=
  mkWorld (boot w) (made w) h (volumes_of w) (disk w) (removed w).

(** A computation of the registry, run in the world. *)
Definition in_host {A} (m : M host A) : M world A :=
  fun w =>
    match m (machine w) with
    | Returns a h => Returns a (with_machine w h)
    | Raises e h => Raises e (with_machine w h)
    end.

(** A step on the process state, run in the world. *)
Definition on_proc (f : proc -> proc) : M world unit := in_host (on_console f).

Definition with_console (h : host) (p : proc) : host :=
  mkHost (GetDriveTypeW h) (descriptors h) (open_w_error h) (uuid_at h)
         (uuids_drawn h) (choice_at h) (choices_drawn h) (written h) p.

(** A computation of the deletion pipeline, run in the world. *)
Definition in_sys {A} (m : M sys A) : M world A :=
  fun w =>
    let back (st : sys) :=
      mkWorld (boot w) (made w) (with_console (machine w) (process st))
              (volumes_of w) (files st) (removals st) in
    match m (mkSys (disk w) (removed w) (console (machine w))) with
    | Returns a st => Returns a (back st)
    | Raises e st => Raises e (back st)
    end.

(** [sys.exit(1)] raises [SystemExit]. *)
Definition sys_exit_1 {A} : M world A := raise "SystemExit: 1".

(** [load_config()] *)
Definition load_config : M world jvalue :=
  (file <- gets (fun w => config_json (boot w)) ;;
   match file with
   | Parsed config => ret config
   | Unreadable e =>
       on_proc (write_console [Lit "[FATAL] Failed to load config.json: "; Lit e]
                              "INFO" 0) ;;;
       sys_exit_1
   end)%py.

(** [config.get(key, default)]; only a [dict] has [get]. *)
Definition config_get (config : jvalue) (key : string) (default : jvalue)
  : M world jvalue :=
  match config with
  | JObj d => ret (match dict_get d key with Some v => v | None => default end)
  | _ => raise "AttributeError"
  end.

(** [config[key]] *)
Definition config_index (config : jvalue) (key : string) : M world jvalue :=
  match config with
  | JObj d =>
      match dict_get d key with
      | Some v => ret v
      | None => raise "KeyError"
      end
  | _ => raise "TypeError"
  end.

(** [os.path.dirname(v)]; anything but a [str] raises. *)
Definition os_path_dirname (v : jvalue) : M world jvalue :=
  match v with
  | JStr s => ret (JStr (dirname s))
  | _ => raise "TypeError"
  end.

(** What [os.path.exists(v)] does in the surroundings [b]: the answer, or
    the exception it lets through.  An [int] (a [bool] is one) is taken as
    a file descriptor. *)
Definition exists_verdict (b : startup) (v : jvalue) : string + bool :=
  match v with
  | JStr s => inr (path_exists b s)
  | JInt z => match fd_exists b z with Some a => inr a | None => inl "OverflowError" end
  | JBool a =>
      match fd_exists b (if a then 1 else 0) with
      | Some a => inr a
      | None => inl "OverflowError"
      end
  | _ => inl "TypeError"
  end.

(** [os.path.exists(v)] *)
Definition os_path_exists (v : jvalue) : M world bool :=
  fun w =>
    match exists_verdict (boot w) v with
    | inr a => Returns a w
    | inl e => Raises e w
    end.

(** [not path or not os.path.exists(path)] *)
Definition path_missing (path : jvalue) : M world bool :=
  if negb (truthy path) then ret true
  else (found <- os_path_exists path ;; ret (negb found))%py.

(** [write_console] of a line that holds U+2192.  When standard output
    cannot encode the arrow, [print] raises before anything of the line
    is out. *)
Definition write_console_arrow (message : text) (level : string) (indent : nat)
  : M world unit :=
  fun w =>
    match arrow_error (boot w) with
    | Some e => Raises e w
    | None => on_proc (write_console message level indent) w
    end.

(** One round of the loop of [validate_paths] on [missing]. *)
Definition check_path (item : string * jvalue) (missing : bool) : M world bool :=
  let '(name, path) := item in
  (absent <- path_missing path ;;
   if absent then
     write_console_arrow [Lit "Path missing or invalid: "; Lit name; Lit " → ";
                          fmt path] "ERROR" 1 ;;;
     ret true
   else
     write_console_arrow [Lit "Valid path: "; Lit name; Lit " → "; fmt path]
                         "OK" 1 ;;;
     ret missing)%py.

(** [validate_paths(config)] *)
Definition validate_paths (config : jvalue) : M world unit :=
  (let missing := false in
   python_path <- config_get config "python_path" JNull ;;
   triage_script <- config_get config "triage_script" JNull ;;
   log_file <- config_get config "log_file" (JStr "") ;;
   log_dir <- os_path_dirname log_file ;;
   inbox_path <- config_get config "inbox_path" JNull ;;
   let paths_to_check :=
     [("python_path", python_path);
      ("triage_script", triage_script);
      ("log_file (parent dir)", log_dir);
      ("inbox_path", inbox_path)] in
   on_proc (write_console [Lit "Preloading configuration paths"] "TITLE" 0) ;;;
   missing <- for_each paths_to_check check_path missing ;;
   if missing then
     on_proc (write_console
                [Lit "One or more required paths are missing. Aborting."] "ERROR" 0) ;;;
     sys_exit_1
   else ret tt)%py.

(** [os.makedirs(path, exist_ok=...)] *)
Definition os_makedirs (path : jvalue) (exist_ok : bool) : M world unit :=
  match path with
  | JStr s =>
      fun w =>
        let w' := mkWorld (boot w) (made w ++ [s]) (machine w) (volumes_of w)
                          (disk w) (removed w) in
        match makedirs_error (boot w) s exist_ok with
        | Some e => Raises e w'
        | None => Returns tt w'
        end
  | _ => raise "TypeError"
  end.

(** [os.path.join(os.path.dirname(__file__), "logs")] *)
Definition logs_path_of (b : startup) : string :=
  ntpath.join2 (dirname (module_file b)) "logs".

(** [initialize_triage(config)]; the result is [config] as the function
    leaves it, with its [system] entry. *)
Definition initialize_triage (config : jvalue) : M world jvalue :=
  (inbox <- config_index config "inbox_path" ;;
   root_path <- os_path_dirname inbox ;;
   inbox_path <- config_index config "inbox_path" ;;
   on_proc (write_console [Lit "Starting Media Triage"] "TITLE" 0) ;;;
   on_proc (write_console [Lit "Root Path: "; fmt root_path] "INFO" 1) ;;;
   on_proc (write_console [Lit "INBOX Path: "; fmt inbox_path] "INFO" 1) ;;;
   found <- os_path_exists inbox_path ;;
   (if negb found then
      os_makedirs inbox_path false ;;;
      on_proc (write_console [Lit "Created INBOX folder at: "; fmt inbox_path] "OK" 1)
    else on_proc (write_console [Lit "INBOX folder already exists."] "OK" 1)) ;;;
   logs_path <- gets (fun w => logs_path_of (boot w)) ;;
   os_makedirs (JStr logs_path) true ;;;
   on_proc (write_console [Lit "Logs folder verified: "; Lit logs_path] "OK" 1) ;;;
   match config with
   | JObj d => ret (JObj (dict_set d "system" (JObj [("logs_path", JStr logs_path)])))
   | _ => raise "TypeError"
   end)%py.

(** [get_root_files()] *)
Definition get_root_files (p : proc) : proc :=
  write_console [Lit "Getting files in root folder..."] "INFO" 0 p.

(** [copy_with_hash_check(source, destination)]; it returns [True]. *)
Definition copy_with_hash_check (source destination : string) : M world bool :=
  (write_console_arrow [Lit "Copying with hash check: "; Lit source; Lit " → ";
                        Lit destination] "INFO" 0 ;;;
   ret true)%py.

(** [move_to_inbox(files)] *)
Definition move_to_inbox (files : list string) (p : proc) : proc :=
  write_console [Lit "Moving "; Num (length files); Lit " files to INBOX folders..."]
                "INFO" 0 p.

(** [refill_from_inbox()] *)
Definition refill_from_inbox (p : proc) : proc :=
  write_console [Lit "Refilling root folder from INBOX..."] "INFO" 0 p.

(** [recover_failed_copies()] *)
Definition recover_failed_copies (p : proc) : proc :=
  write_console [Lit "Attempting recovery of failed copies from log..."] "INFO" 0 p.

(** [show_deletion_summary()] *)
Definition show_deletion_summary (p : proc) : proc :=
  match folders_marked_for_deletion p with
  | [] => p
  | folders =>
      let p := write_console [Lit (repeat_str "===" 10)] "ERROR" 0 p in
      let p := write_console [Lit " FOLDERS MARKED FOR DELETION "] "ERROR" 0 p in
      let p := write_console [Lit (repeat_str "===" 10)] "ERROR" 0 p in
      fold_left (fun p folder => write_console [Lit "- "; Lit folder] "ERROR" 1 p)
                folders p
  end.

(** [DEBUG_LOG_PATH] *)
Definition DEBUG_LOG_PATH (b : startup) : string :=
  ntpath.join2 (dirname (module_file b)) "triage.debug.log".

(** [open(DEBUG_LOG_PATH, "w").close()]: the debug log starts empty. *)
Definition clear_debug_log : M world unit :=
  fun w =>
    match open_w_error (machine w) (DEBUG_LOG_PATH (boot w)) with
    | Some e => Raises e w
    | None =>
        let p := console (machine w) in
        Returns tt
          (with_machine w
             (with_console (machine w)
                (mkProc (folders_marked_for_deletion p) (stdout p) [])))
    end.

Section Main.

Variable rmtree : gmap string string -> string -> gmap string string * option string.

(** [finalize_purge_log_and_delete(config)] with [config] as
    [initialize_triage] left it: the logs path is looked up only when there
    are candidates. *)
Definition finalize_with_config (config : jvalue) : M world unit :=
  (marked <- gets (fun w => folders_marked_for_deletion (console (machine w))) ;;
   match marked with
   | [] => ret tt
   | _ =>
       system <- config_index config "system" ;;
       logs_path <- config_index system "logs_path" ;;
       match logs_path with
       | JStr logs_path =>
           errors <- gets (fun w => open_w_error (machine w)) ;;
           locked <- gets (fun w => debug_a_error (boot w)) ;;
           in_sys (finalize_purge_log_and_delete rmtree errors locked logs_path)
       | _ => raise "TypeError"
       end
   end)%py.

(** [main()] *)
Definition main : M world unit :=
  (clear_debug_log ;;;
   config <- load_config ;;
   validate_paths config ;;;
   config <- initialize_triage config ;;
   drives <- in_host detect_external_drives ;;
   volumes <- gets volumes_of ;;
   on_proc (import_from_external_drives volumes drives) ;;;
   on_proc get_root_files ;;;
   on_proc (write_console [Lit "Loose files detected: [placeholder count]"] "INFO" 0) ;;;
   on_proc refill_from_inbox ;;;
   on_proc recover_failed_copies ;;;
   finalize_with_config config ;;;
   on_proc (write_console [Lit "=== Triage Completed ==="] "OK" 0))%py.

End Main.

(** A configured path start-up accepts: not empty, and it exists. *)
Definition usable (b : startup) (path : string) : bool :=
  pystr.nonempty path && path_exists b path.


(** What [not path or not os.path.exists(path)] comes to in the
    surroundings [b]. *)
Definition missing_verdict (b : startup) (path : jvalue) : string + bool :=
  if negb (truthy path) then inr true
  else match exists_verdict b path with
       | inr found => inr (negb found)
       | inl e => inl e
       end.

(** Nothing but the console and the debug log differs between two worlds. *)
Definition only_console (w w' : world) : Prop :=
  boot w' = boot w /\ made w' = made w /\ volumes_of w' = volumes_of w
  /\ disk w' = disk w /\ removed w' = removed w
  /\ descriptors (machine w') = descriptors (machine w)
  /\ written (machine w') = written (machine w)
  /\ GetDriveTypeW (machine w') = GetDriveTypeW (machine w)
  /\ open_w_error (machine w') = open_w_error (machine w)
  /\ folders_marked_for_deletion (console (machine w'))
     = folders_marked_for_deletion (console (machine w)).

(** A computation that, returning or raising, leaves the world related to
    the one it started in. *)
Definition keeps {A} (R : world -> world -> Prop) (m : M world A) : Prop :=
  forall w, R w (state_of (m w)).

(** The descriptor asks for a purge: it is an object whose [purge] entry
    is truthy. *)
Definition purge_requested (file : descriptor_file) : bool :=
  match file with
  | Parsed (JObj data) => truthy (purge_flag data)
  | _ => false
  end.

(** Between two worlds no volume, descriptor or candidate changed; the
    console, the debug log and the directories asked for may have. *)
Definition undisturbed (w w' : world) : Prop :=
  boot w' = boot w /\ volumes_of w' = volumes_of w
  /\ disk w' = disk w /\ removed w' = removed w
  /\ descriptors (machine w') = descriptors (machine w)
  /\ GetDriveTypeW (machine w') = GetDriveTypeW (machine w)
  /\ open_w_error (machine w') = open_w_error (machine w)
  /\ folders_marked_for_deletion (console (machine w'))
     = folders_marked_for_deletion (console (machine w)).

(** The deletion step has done nothing: no call of [shutil.rmtree] was
    added, the text files it reads and writes (the deletion log is the
    one it writes) are as they were, and the candidate list is as it was.
    The descriptors, the directories asked for and the debug log are not
    part of this. *)
Definition nothing_deleted (w w' : world) : Prop :=
  disk w' = disk w /\ removed w' = removed w
  /\ folders_marked_for_deletion (console (machine w'))
     = folders_marked_for_deletion (console (machine w)).

(** What [show_deletion_summary] prints for a list of candidates. *)
Definition summary_lines (folders : list string) : list out :=
  match folders with
  | [] => []
  | _ =>
      [console_line [Lit (repeat_str "===" 10)] "ERROR" 0;
       console_line [Lit " FOLDERS MARKED FOR DELETION "] "ERROR" 0;
       console_line [Lit (repeat_str "===" 10)] "ERROR" 0]
      ++ map (fun folder => console_line [Lit "- "; Lit folder] "ERROR" 1) folders
  end.

(** ** Worked example: a configured machine

    The tool lives in [C:\triage\src]; every configured path exists. *)
Definition example_config : dict :=
  [("python_path", JStr "C:\py\python.exe");
   ("triage_script", JStr "C:\triage\src\triage.py");
   ("log_file", JStr "C:\triage\triage.log");
   ("inbox_path", JStr "D:\INBOX")].

Definition example_startup : startup :=
  mkStartup (Parsed (JObj example_config))
            (fun path => str_in path ["C:\py\python.exe"; "C:\triage\src\triage.py";
                                      "C:\triage"; "D:\INBOX"])
            (fun _ => Some false)
            (fun _ _ => None)
            "C:\triage\src\triage.py"
            None
            (fun _ => None).

Definition example_world : world :=
  mkWorld example_startup [] example_host (fun _ => inr example_volume) ∅ [].

(** The same machine with one removable volume, baptized and without a
    purge request. *)
Definition idle_host : host :=
  mkHost (fun root => if String.eqb root "G:\" then 2 else 3)
         {["G:\drive.json" := Parsed (JObj [("id", JStr "g-7"); ("source", JBool true);
                                            ("name", JStr "Quiet Whale")])]}
         (fun _ => None)
         (fun n => "3f2b8c1e-0000-4000-8000-000000000000")
         0 (fun n => n) 0 [] (mkProc [] [] []).

Definition idle_world : world :=
  mkWorld example_startup [] idle_host (fun _ => inr example_volume) ∅ [].

(** A machine whose [config.json] does not parse. *)
Definition broken_world : world :=
  mkWorld (mkStartup (Unreadable "Expecting value: line 1 column 1 (char 0)")
                     (fun _ => false) (fun _ => Some false) (fun _ _ => None)
                     "C:\triage\src\triage.py" None (fun _ => None))
          [] example_host (fun _ => inr example_volume) ∅ [].

(* ===================================================================== *)
(** * Properties of the string primitives                                 *)
(* ===================================================================== *)

Lemma ascii_eqb_refl (c : ascii) : Ascii.eqb c c = true.
Proof. apply Ascii.eqb_eq. reflexivity. Qed.

Lemma string_eqb_refl (s : string) : String.eqb s s = true.
Proof. apply String.eqb_eq. reflexivity. Qed.

Lemma substring_all (s : string) : String.substring 0 (String.length s) s = s.
Proof. induction s as [|c r IH]; simpl; [reflexivity|]. rewrite IH. reflexivity. Qed.

Lemma substring_none (s : string) : String.substring 0 0 s = EmptyString.
Proof. destruct s; reflexivity. Qed.

Lemma rfind_from_plain (c : ascii) (s : string) (i last : Z) :
  pystr.contains c s = false -> pystr.rfind_from c s i last = last.
Proof.
  revert i last. induction s as [|d r IH]; intros i last H; simpl in *.
  - reflexivity.
  - apply orb_false_iff in H as [Hd Hr]. rewrite Hd. apply IH, Hr.
Qed.

Lemma plain_contains (s : string) :
  plain s = true ->
  pystr.contains ntpath.extsep s = false
  /\ pystr.contains ntpath.sep s = false
  /\ pystr.contains ntpath.altsep s = false.
Proof.
  induction s as [|d r IH]; simpl; intros H.
  - auto.
  - repeat (apply andb_true_iff in H as [H ?]).
    destruct (IH ltac:(assumption)) as (I1 & I2 & I3).
    rewrite I1, I2, I3.
    repeat match goal with
           | E : negb _ = true |- _ => apply negb_true_iff in E; rewrite E
           end.
    auto.
Qed.

(** A name that starts with its only dot has no extension. *)
Lemma splitext_leading_dot (r : string) :
  plain r = true ->
  ntpath.splitext (String ntpath.extsep r) = (String ntpath.extsep r, EmptyString).
Proof.
  intros H. destruct (plain_contains r H) as (Hdot & Hsep & Halt).
  unfold ntpath.splitext, pystr.rfind. simpl pystr.rfind_from.
  rewrite !rfind_from_plain by assumption.
  reflexivity.
Qed.

Lemma lower_char_special (c d : ascii) :
  (d = ntpath.extsep \/ d = ntpath.sep \/ d = ntpath.altsep) ->
  Ascii.eqb (pystr.lower_char c) d = Ascii.eqb c d.
Proof.
  intros [-> | [-> | ->]];
    destruct c as [[] [] [] [] [] [] [] []]; reflexivity.
Qed.

Lemma plain_lower (s : string) : plain (pystr.lower s) = plain s.
Proof.
  induction s as [|c r IH]; simpl; [reflexivity|].
  rewrite !lower_char_special, IH by auto. reflexivity.
Qed.

Lemma lower_cons_inv (s : string) (c : ascii) (r : string) :
  pystr.lower s = String c r ->
  exists c' r', s = String c' r' /\ pystr.lower_char c' = c /\ pystr.lower r' = r.
Proof.
  destruct s as [|c' r']; simpl; intros H; [discriminate|].
  injection H as <- <-. eauto.
Qed.

(** Every bare extension is a dot followed by a plain rest. *)
Lemma bare_extension_shape (name : string) :
  bare_extension name = true ->
  exists r, name = String ntpath.extsep r /\ plain r = true.
Proof.
  unfold bare_extension, str_in, MediaExtensionSet. simpl existsb.
  intros H.
  assert (Hshape : exists r0, pystr.lower name = String ntpath.extsep r0
                              /\ plain r0 = true).
  { repeat (apply orb_true_iff in H as [H | H];
            [apply String.eqb_eq in H; rewrite H; eexists; split; reflexivity|]).
    discriminate. }
  destruct Hshape as (r0 & Hl & Hp).
  destruct (lower_cons_inv _ _ _ Hl) as (c' & r' & -> & Hc & Hr).
  exists r'. split.
  - f_equal.
    pose proof (lower_char_special c' ntpath.extsep (or_introl eq_refl)) as E.
    rewrite Hc, ascii_eqb_refl in E. symmetry in E.
    apply Ascii.eqb_eq in E. exact E.
  - rewrite <- plain_lower, Hr. exact Hp.
Qed.

Lemma ext_of_bare_extension (name : string) :
  bare_extension name = true -> ext_of name = EmptyString.
Proof.
  intros H. destruct (bare_extension_shape name H) as (r & -> & Hp).
  unfold ext_of. rewrite splitext_leading_dot by exact Hp. reflexivity.
Qed.

(* ===================================================================== *)
(** * Media Classifier                                                    *)
(* ===================================================================== *)

Lemma inspect_entries_from (entries : list entry) (m s : bool) :
  fold_left inspect_entry entries (m, s)
  = (m || existsb media_file entries, s || existsb is_dir entries).
Proof.
  revert m s. induction entries as [|e es IH]; intros m s; simpl.
  - rewrite !orb_false_r. reflexivity.
  - destruct e as [n | n | n l sub]; unfold media_file; simpl.
    + destruct (is_media_purge n); rewrite IH; simpl;
        rewrite ?orb_true_r; reflexivity.
    + rewrite IH. reflexivity.
    + rewrite IH. simpl. rewrite orb_true_r. reflexivity.
Qed.

Lemma forallb_negb_existsb {A} (f : A -> bool) (xs : list A) :
  forallb (fun x => negb (f x)) xs = negb (existsb f xs).
Proof.
  induction xs as [|x xs IH]; simpl; [reflexivity|].
  rewrite IH, negb_orb. reflexivity.
Qed.

Lemma inspect_entries_eligible (entries : list entry) :
  (let '(has_media, has_subfolders) := inspect_entries entries in
   negb has_media && negb has_subfolders) = purge_eligible entries.
Proof.
  unfold inspect_entries, purge_eligible.
  rewrite inspect_entries_from, !forallb_negb_existsb. reflexivity.
Qed.

(** What [try_remove_folder] does to the candidate list. *)
Lemma try_remove_folder_marked (folder_path : string) (entries : list entry)
    (p : proc) :
  folders_marked_for_deletion (try_remove_folder folder_path (inr entries) p)
  = folders_marked_for_deletion p
    ++ (if purge_eligible entries then [folder_path] else []).
Proof.
  unfold try_remove_folder.
  pose proof (inspect_entries_eligible entries) as E.
  destruct (inspect_entries entries) as [has_media has_subfolders].
  rewrite E. destruct (purge_eligible entries); simpl.
  - reflexivity.
  - rewrite app_nil_r. reflexivity.
Qed.

Lemma existsb_shallow (f : string * bool * bool -> bool) (g : entry -> bool)
    (es es' : list entry) :
  (forall e, g e = f (shallow e)) ->
  map shallow es = map shallow es' -> existsb g es = existsb g es'.
Proof.
  intros Hg H.
  assert (E : forall l, existsb g l = existsb f (map shallow l)).
  { induction l as [|e l IH]; simpl; [reflexivity|]. rewrite Hg, IH. reflexivity. }
  rewrite !E, H. reflexivity.
Qed.

Lemma inspect_entries_shallow (es es' : list entry) :
  map shallow es = map shallow es' -> inspect_entries es = inspect_entries es'.
Proof.
  intros H. unfold inspect_entries. rewrite !inspect_entries_from.
  f_equal; f_equal.
  - apply (existsb_shallow (fun x => x.2 && is_media_purge x.1.1)); [|exact H].
    intros e. reflexivity.
  - apply (existsb_shallow (fun x => x.1.2)); [|exact H].
    intros e. reflexivity.
Qed.

Lemma rfind_from_app (c : ascii) (s t : string) (i last : Z) :
  pystr.rfind_from c (s +:+ t) i last
  = pystr.rfind_from c t (i + pystr.len s) (pystr.rfind_from c s i last).
Proof.
  revert i last. induction s as [|d r IH]; intros i last.
  - simpl. unfold pystr.len. simpl. rewrite Z.add_0_r. reflexivity.
  - change (String d r +:+ t) with (String d (r +:+ t)). simpl pystr.rfind_from.
    rewrite IH. f_equal. unfold pystr.len. simpl String.length. lia.
Qed.

Lemma substring_app_l (s t : string) :
  String.substring 0 (String.length s) (s +:+ t) = s.
Proof.
  induction s as [|c r IH]; simpl.
  - destruct t; reflexivity.
  - rewrite IH. reflexivity.
Qed.

Lemma substring_app_r (s t : string) :
  String.substring (String.length s) (String.length t) (s +:+ t) = t.
Proof.
  induction s as [|c r IH]; simpl; [apply substring_all | exact IH].
Qed.

Lemma length_app_string (s t : string) :
  String.length (s +:+ t) = (String.length s + String.length t)%nat.
Proof. induction s as [|c r IH]; simpl; [reflexivity | rewrite IH; reflexivity]. Qed.

Lemma no_separator_contains (s : string) :
  no_separator s = true ->
  pystr.contains ntpath.sep s = false /\ pystr.contains ntpath.altsep s = false.
Proof.
  induction s as [|c r IH]; simpl; intros H; [auto|].
  apply andb_true_iff in H as [Hc Hr]. apply negb_true_iff in Hc.
  unfold ntpath.is_sep in Hc. apply orb_false_iff in Hc as [-> ->].
  destruct (IH Hr) as [-> ->]. auto.
Qed.

Lemma string_app_assoc (a b c : string) : (a +:+ b) +:+ c = a +:+ (b +:+ c).
Proof.
  induction a as [|x a IH]; [reflexivity|].
  change (String x ((a +:+ b) +:+ c) = String x (a +:+ (b +:+ c))). f_equal. exact IH.
Qed.

Lemma at_app (pre : string) (c : ascii) (t : string) :
  pystr.at_ (pystr.len pre) (pre +:+ String c t) = String c EmptyString.
Proof.
  unfold pystr.at_, pystr.len.
  replace (Z.of_nat (String.length pre) <? 0) with false
    by (symmetry; apply Z.ltb_ge; lia).
  rewrite Nat2Z.id. induction pre as [|x pre IH].
  - simpl. rewrite substring_none. reflexivity.
  - exact IH.
Qed.

Lemma len_snoc (pre : string) (c : ascii) :
  pystr.len (pre +:+ String c EmptyString) = pystr.len pre + 1.
Proof. unfold pystr.len. rewrite length_app_string. simpl. lia. Qed.

(** The scan over the leading dots of a stem: it stops at the first
    character that is not a dot. *)
Lemma skip_leading_dots_app (stem pre tail : string) :
  ntpath.skip_leading_dots (pre +:+ stem +:+ tail) (pystr.len pre)
                           (String.length stem)
  = negb (only_dots stem).
Proof.
  revert pre. induction stem as [|c r IH]; intros pre; [reflexivity|].
  cbn [String.length ntpath.skip_leading_dots only_dots].
  change (pre +:+ String c r +:+ tail) with (pre +:+ String c (r +:+ tail)).
  rewrite at_app. cbn [String.eqb].
  destruct (Ascii.eqb c ntpath.extsep) eqn:Hc; cbn [negb andb]; [|reflexivity].
  rewrite <- (IH (pre +:+ String c EmptyString)), len_snoc. f_equal.
  rewrite string_app_assoc. reflexivity.
Qed.

Lemma rfind_ext (stem rest : string) :
  plain rest = true ->
  pystr.rfind ntpath.extsep (stem +:+ String ntpath.extsep rest) = pystr.len stem.
Proof.
  intros Hr. destruct (plain_contains rest Hr) as (Rdot & _ & _).
  unfold pystr.rfind. rewrite rfind_from_app. simpl pystr.rfind_from.
  rewrite rfind_from_plain by exact Rdot. lia.
Qed.

Lemma rfind_sep_none (c : ascii) (stem rest : string) :
  (c = ntpath.sep \/ c = ntpath.altsep) ->
  no_separator stem = true -> plain rest = true ->
  pystr.rfind c (stem +:+ String ntpath.extsep rest) = -1.
Proof.
  intros Hc Hs Hr.
  destruct (no_separator_contains stem Hs) as (Ssep & Salt).
  destruct (plain_contains rest Hr) as (_ & Rsep & Ralt).
  unfold pystr.rfind. rewrite rfind_from_app. simpl pystr.rfind_from.
  destruct Hc as [-> | ->]; rewrite !rfind_from_plain by assumption; reflexivity.
Qed.

(** The extension of a name without separator that ends in a dot and a
    plain rest: the dot and the rest, unless only dots come before. *)
Lemma splitext_name (stem rest : string) :
  no_separator stem = true -> plain rest = true ->
  ntpath.splitext (stem +:+ String ntpath.extsep rest)
  = if only_dots stem
    then (stem +:+ String ntpath.extsep rest, EmptyString)
    else (stem, String ntpath.extsep rest).
Proof.
  intros Hs Hr. unfold ntpath.splitext.
  rewrite rfind_ext by exact Hr.
  rewrite !rfind_sep_none by auto.
  change (Z.max (-1) (-1)) with (-1). change (-1 + 1) with 0.
  rewrite Z.sub_0_r.
  replace (-1 <? pystr.len stem) with true
    by (symmetry; apply Z.ltb_lt; unfold pystr.len; lia).
  replace (Z.to_nat (pystr.len stem)) with (String.length stem)
    by (unfold pystr.len; lia).
  pose proof (skip_leading_dots_app stem EmptyString (String ntpath.extsep rest)) as H.
  change (pystr.len EmptyString) with 0 in H.
  change (EmptyString +:+ stem +:+ String ntpath.extsep rest)
    with (stem +:+ String ntpath.extsep rest) in H.
  rewrite H. cbn [andb]. destruct (only_dots stem); cbn [negb]; [reflexivity|].
  unfold pystr.take, pystr.drop, pystr.len.
  rewrite Nat2Z.id, length_app_string.
  replace (String.length stem + String.length (String ntpath.extsep rest)
           - String.length stem)%nat
    with (String.length (String ntpath.extsep rest)) by lia.
  rewrite substring_app_l, substring_app_r. reflexivity.
Qed.

Lemma lower_app (s t : string) :
  pystr.lower (s +:+ t) = pystr.lower s +:+ pystr.lower t.
Proof. induction s as [|c r IH]; simpl; [reflexivity | rewrite IH; reflexivity]. Qed.

Lemma substring_split (n : nat) (s : string) :
  String.substring 0 n s +:+ String.substring n (String.length s - n) s = s.
Proof.
  revert n. induction s as [|c r IH]; intros n.
  - destruct n; reflexivity.
  - destruct n as [|n].
    + simpl. rewrite substring_all. reflexivity.
    + change (String c (String.substring 0 n r
                        +:+ String.substring n (String.length r - n) r)
              = String c r).
      f_equal. apply IH.
Qed.

(** [splitext] cuts its argument in two. *)
Lemma splitext_app (p : string) :
  (ntpath.splitext p).1 +:+ (ntpath.splitext p).2 = p.
Proof.
  unfold ntpath.splitext.
  match goal with |- context [if ?b then _ else _] => destruct b end; simpl.
  - unfold pystr.take, pystr.drop. apply substring_split.
  - clear. induction p as [|c r IH]; [reflexivity|].
    change (String c (r +:+ EmptyString) = String c r). f_equal. exact IH.
Qed.

Lemma str_in_In (x : string) (xs : list string) :
  str_in x xs = true <-> In x xs.
Proof.
  unfold str_in. rewrite existsb_exists. split.
  - intros (y & Hy & E). apply String.eqb_eq in E. subst. exact Hy.
  - intros H. exists x. split; [exact H | apply string_eqb_refl].
Qed.

(** The media test says yes to a stem followed by a media extension, and
    no to dots followed by one. *)
Lemma is_media_purge_media_name (name : string) :
  media_name name -> is_media_purge name = true.
Proof.
  intros (stem & ext & -> & Hs & Hd & Hext).
  destruct (bare_extension_shape ext Hext) as (rest & -> & Hr).
  unfold is_media_purge, ext_of. rewrite splitext_name, Hd by assumption.
  exact Hext.
Qed.

Lemma is_media_purge_dotted_name (name : string) :
  dotted_name name -> is_media_purge name = false.
Proof.
  intros (dots & ext & -> & Hd & Hext).
  destruct (bare_extension_shape ext Hext) as (rest & -> & Hr).
  assert (Hs : no_separator dots = true).
  { clear -Hd. induction dots as [|c r IH]; [reflexivity|].
    simpl in *. apply andb_true_iff in Hd as [Hc Hr].
    apply Ascii.eqb_eq in Hc. subst c. rewrite (IH Hr). reflexivity. }
  unfold is_media_purge, ext_of. rewrite splitext_name, Hd by assumption.
  reflexivity.
Qed.

(** It says yes only to a name that ends in one. *)
Lemma is_media_purge_suffix (name : string) :
  is_media_purge name = true ->
  exists ext, In ext MediaExtensionSet /\ ends_with (pystr.lower name) ext.
Proof.
  unfold is_media_purge, ext_of. intros H. apply str_in_In in H.
  exists (pystr.lower (ntpath.splitext name).2). split; [exact H|].
  exists (pystr.lower (ntpath.splitext name).1).
  rewrite <- lower_app, splitext_app. reflexivity.
Qed.

Lemma ends_with_endswith (s suffix : string) :
  ends_with s suffix -> endswith suffix s = true.
Proof.
  intros [front ->]. induction front as [|c r IH].
  - destruct suffix; simpl; rewrite ?ascii_eqb_refl, ?string_eqb_refl; reflexivity.
  - change (String c r +:+ suffix) with (String c (r +:+ suffix)).
    cbn [endswith]. rewrite IH. apply orb_true_r.
Qed.

(** C6.  The purge-eligibility check of [try_remove_folder] looks at the
    immediate children of a directory only (their names and kinds, never
    what lies below them), and puts the directory on the candidate list
    iff none of them is a file with a media extension and none is a
    subdirectory.  So a directory holding only non-media files is marked,
    a directory with no entries is marked, and a directory holding one
    subdirectory and no files is not.  Which files are media: a file
    named by a stem and one of the ten extensions, in any case, keeps its
    directory off the list whatever else the directory holds; files whose
    names end in none of the ten do not, and neither do files named by
    dots and an extension alone. *)
Theorem purge_eligibility_check (folder_path : string) (p : proc) :
  (forall entries,
      folders_marked_for_deletion (try_remove_folder folder_path (inr entries) p)
      = folders_marked_for_deletion p
        ++ (if purge_eligible entries then [folder_path] else []))
  /\ (forall entries entries',
         map shallow entries = map shallow entries' ->
         try_remove_folder folder_path (inr entries) p
         = try_remove_folder folder_path (inr entries') p)
  /\ (forall names,
         forallb (fun n => negb (is_media_purge n)) names = true ->
         folders_marked_for_deletion
           (try_remove_folder folder_path (inr (map EFile names)) p)
         = folders_marked_for_deletion p ++ [folder_path])
  /\ folders_marked_for_deletion (try_remove_folder folder_path (inr []) p)
     = folders_marked_for_deletion p ++ [folder_path]
  /\ (forall name islink listing,
         folders_marked_for_deletion
           (try_remove_folder folder_path (inr [EDir name islink listing]) p)
         = folders_marked_for_deletion p)
  /\ (forall entries name,
         In (EFile name) entries -> media_name name ->
         folders_marked_for_deletion (try_remove_folder folder_path (inr entries) p)
         = folders_marked_for_deletion p)
  /\ (forall names,
         Forall no_media_suffix names ->
         folders_marked_for_deletion
           (try_remove_folder folder_path (inr (map EFile names)) p)
         = folders_marked_for_deletion p ++ [folder_path])
  /\ (forall names,
         Forall dotted_name names ->
         folders_marked_for_deletion
           (try_remove_folder folder_path (inr (map EFile names)) p)
         = folders_marked_for_deletion p ++ [folder_path]).
Proof.
  assert (Hfiles : forall names,
             forallb (fun n => negb (is_media_purge n)) names = true ->
             folders_marked_for_deletion
               (try_remove_folder folder_path (inr (map EFile names)) p)
             = folders_marked_for_deletion p ++ [folder_path]).
  { intros names H. rewrite try_remove_folder_marked.
    replace (purge_eligible (map EFile names)) with true; [reflexivity|].
    symmetry. unfold purge_eligible. apply andb_true_iff. split.
    + induction names as [|n ns IH]; simpl in *; [reflexivity|].
      apply andb_true_iff in H as [Hn Hns].
      unfold media_file at 1. simpl. rewrite Hn. simpl. apply IH, Hns.
    + clear H. induction names as [|n ns IH]; simpl; auto. }
  split; [|split; [|split; [|split; [|split; [|split; [|split]]]]]].
  - intros entries. apply try_remove_folder_marked.
  - intros entries entries' H. unfold try_remove_folder.
    rewrite (inspect_entries_shallow _ _ H). reflexivity.
  - exact Hfiles.
  - rewrite try_remove_folder_marked. reflexivity.
  - intros name islink listing. rewrite try_remove_folder_marked. simpl.
    apply app_nil_r.
  - intros entries name Hin Hname. rewrite try_remove_folder_marked.
    destruct (purge_eligible entries) eqn:E; [|apply app_nil_r].
    unfold purge_eligible in E. apply andb_true_iff in E as [E _].
    apply (proj1 (forallb_forall _ _) E) in Hin.
    unfold media_file in Hin. cbn [is_file entry_name andb] in Hin.
    rewrite (is_media_purge_media_name name Hname) in Hin. discriminate.
  - intros names H. apply Hfiles. apply forallb_forall.
    intros n Hn. apply (proj1 (List.Forall_forall _ _) H) in Hn.
    destruct (is_media_purge n) eqn:E; [|reflexivity].
    destruct (is_media_purge_suffix n E) as (ext & Hext & Hend).
    destruct (Hn ext Hext Hend).
  - intros names H. apply Hfiles. apply forallb_forall.
    intros n Hn. apply (proj1 (List.Forall_forall _ _) H) in Hn.
    rewrite (is_media_purge_dotted_name n Hn). reflexivity.
Qed.

(** A directory of three files, none of them media, is marked; a directory
    that holds [trip.2020.JPG] beside a text file is not; a directory of
    files that end in no media extension is, and so is one that holds
    [..mp4] only. *)
Lemma purge_eligibility_check_witness :
  folders_marked_for_deletion
    (try_remove_folder "E:\DCIM\NOTES"
       (inr (map EFile ["readme.txt"; "Thumbs.db"; ".jpg"])) (mkProc [] [] []))
  = ["E:\DCIM\NOTES"]
  /\ (In (EFile "trip.2020.JPG") [EFile "notes.txt"; EFile "trip.2020.JPG"]
      /\ media_name "trip.2020.JPG"
      /\ folders_marked_for_deletion
           (try_remove_folder "E:\DCIM\NOTES"
              (inr [EFile "notes.txt"; EFile "trip.2020.JPG"]) (mkProc [] [] []))
         = [])
  /\ (Forall no_media_suffix ["readme.txt"; "Thumbs.db"]
      /\ folders_marked_for_deletion
           (try_remove_folder "E:\DCIM\NOTES"
              (inr (map EFile ["readme.txt"; "Thumbs.db"])) (mkProc [] [] []))
         = ["E:\DCIM\NOTES"])
  /\ (Forall dotted_name ["..mp4"]
      /\ folders_marked_for_deletion
           (try_remove_folder "E:\DCIM\NOTES" (inr (map EFile ["..mp4"]))
                              (mkProc [] [] []))
         = ["E:\DCIM\NOTES"]).
Proof.
  pose proof (purge_eligibility_check "E:\DCIM\NOTES" (mkProc [] [] [])) as H.
  destruct H as (_ & _ & H3 & _ & _ & H6 & H7 & H8).
  split; [apply (H3 ["readme.txt"; "Thumbs.db"; ".jpg"]); reflexivity|].
  assert (Hin : In (EFile "trip.2020.JPG") [EFile "notes.txt"; EFile "trip.2020.JPG"])
    by (right; left; reflexivity).
  assert (Hname : media_name "trip.2020.JPG").
  { exists "trip.2020", ".JPG". repeat split. }
  assert (Hno : Forall no_media_suffix ["readme.txt"; "Thumbs.db"]).
  { repeat constructor; intros ext Hext Hend;
      apply ends_with_endswith in Hend;
      repeat (destruct Hext as [<- | Hext]; [vm_compute in Hend; discriminate|]);
      destruct Hext. }
  assert (Hdots : Forall dotted_name ["..mp4"]).
  { repeat constructor. exists ".", ".mp4". repeat split. }
  split; [split; [exact Hin | split; [exact Hname|]]|split].
  - exact (H6 _ _ Hin Hname).
  - split; [exact Hno | exact (H7 _ Hno)].
  - split; [exact Hdots | exact (H8 _ Hdots)].
Defined.

(** ** Case does not matter to the extension test *)

Lemma rfind_from_lower (c : ascii) (s : string) (i last : Z) :
  (c = ntpath.extsep \/ c = ntpath.sep \/ c = ntpath.altsep) ->
  pystr.rfind_from c (pystr.lower s) i last = pystr.rfind_from c s i last.
Proof.
  intros Hc. revert i last.
  induction s as [|d r IH]; intros i last; simpl; [reflexivity|].
  rewrite lower_char_special by exact Hc. apply IH.
Qed.

Lemma length_lower (s : string) : String.length (pystr.lower s) = String.length s.
Proof. induction s as [|c r IH]; simpl; congruence. Qed.

Lemma substring_lower (n m : nat) (s : string) :
  String.substring n m (pystr.lower s) = pystr.lower (String.substring n m s).
Proof.
  revert n m. induction s as [|c r IH]; intros n m.
  - destruct n, m; reflexivity.
  - destruct n as [|n]; destruct m as [|m]; simpl; try reflexivity.
    + rewrite IH. reflexivity.
    + apply IH.
    + apply IH.
Qed.

Lemma at_lower (i : Z) (s : string) :
  pystr.at_ i (pystr.lower s) = pystr.lower (pystr.at_ i s).
Proof.
  unfold pystr.at_. destruct (i <? 0); [reflexivity|]. apply substring_lower.
Qed.

Lemma eqb_lower_dot (x : string) :
  String.eqb (pystr.lower x) (String ntpath.extsep EmptyString)
  = String.eqb x (String ntpath.extsep EmptyString).
Proof.
  destruct x as [|c r]; simpl; [reflexivity|].
  rewrite lower_char_special by auto.
  destruct (Ascii.eqb c ntpath.extsep); [|reflexivity].
  destruct r; reflexivity.
Qed.

Lemma skip_leading_dots_lower (p : string) (i : Z) (n : nat) :
  ntpath.skip_leading_dots (pystr.lower p) i n = ntpath.skip_leading_dots p i n.
Proof.
  revert i. induction n as [|n IH]; intros i; simpl; [reflexivity|].
  rewrite at_lower, eqb_lower_dot, IH. reflexivity.
Qed.

Lemma splitext_lower (p : string) :
  ntpath.splitext (pystr.lower p)
  = (pystr.lower (ntpath.splitext p).1, pystr.lower (ntpath.splitext p).2).
Proof.
  unfold ntpath.splitext, pystr.rfind.
  rewrite !rfind_from_lower, skip_leading_dots_lower by auto.
  match goal with |- context [if ?b then _ else _] => destruct b end; simpl.
  - unfold pystr.take, pystr.drop.
    rewrite !substring_lower, length_lower. reflexivity.
  - reflexivity.
Qed.

Lemma lower_char_idem (c : ascii) :
  pystr.lower_char (pystr.lower_char c) = pystr.lower_char c.
Proof. destruct c as [[] [] [] [] [] [] [] []]; reflexivity. Qed.

Lemma lower_idem (s : string) : pystr.lower (pystr.lower s) = pystr.lower s.
Proof.
  induction s as [|c r IH]; simpl; [reflexivity|].
  rewrite lower_char_idem, IH. reflexivity.
Qed.

Lemma ext_of_lower (name : string) : ext_of (pystr.lower name) = ext_of name.
Proof. unfold ext_of. rewrite splitext_lower. simpl. apply lower_idem. Qed.

(** C7.  The extension list of the import walker and the extension list
    of the purge-eligibility check are the same list, the specification's
    [MediaExtensionSet]; both checks are the specification's [is_media], so
    they give the same answer on every file name, and that answer does not
    depend on the case of the name. *)
Theorem media_extension_sets_agree :
  media_exts_import = MediaExtensionSet
  /\ media_exts_purge = MediaExtensionSet
  /\ (forall name, is_media_import name = is_media name)
  /\ (forall name, is_media_purge name = is_media name)
  /\ (forall name, is_media_import name = is_media_purge name)
  /\ (forall name, is_media_import (pystr.lower name) = is_media_import name)
  /\ (forall name, is_media_purge (pystr.lower name) = is_media_purge name)
  /\ (forall name, is_media_import (pystr.upper name) = is_media_import name).
Proof.
  repeat split; try reflexivity.
  - intros name. unfold is_media_import. rewrite ext_of_lower. reflexivity.
  - intros name. unfold is_media_purge. rewrite ext_of_lower. reflexivity.
  - intros name. unfold is_media_import.
    rewrite <- (ext_of_lower (pystr.upper name)), <- (ext_of_lower name).
    f_equal. f_equal.
    induction name as [|c r IH]; simpl; [reflexivity|].
    rewrite IH. f_equal.
    destruct c as [[] [] [] [] [] [] [] []]; reflexivity.
Qed.

Lemma import_files_skip (root : string) (drive : drive_info)
    (files : list string) (p : proc) :
  forallb (fun f => negb (is_media_import f)) files = true ->
  import_files root drive files p = p.
Proof.
  unfold import_files. revert p.
  induction files as [|f fs IH]; intros p H; simpl in *; [reflexivity|].
  apply andb_true_iff in H as [Hf Hfs].
  apply negb_true_iff in Hf. rewrite Hf. apply IH, Hfs.
Qed.

Lemma purge_eligible_app (es es' : list entry) :
  purge_eligible (es ++ es') = purge_eligible es && purge_eligible es'.
Proof.
  unfold purge_eligible. rewrite !forallb_app.
  repeat match goal with |- context [forallb ?f ?l] =>
    generalize (forallb f l); intro end.
  repeat match goal with b : bool |- _ => destruct b end; reflexivity.
Qed.

(** C9.  A file whose whole name is a dot followed by a media extension
    (".jpg", ".MOV") has, for [os.path.splitext], an empty extension.  Both
    media checks therefore answer no: the walk never hands such a file to
    the backup, and its presence among the entries of a directory never
    changes whether the directory is marked for purge. *)
Theorem bare_extension_not_media (name : string) :
  bare_extension name = true ->
  ntpath.splitext name = (name, EmptyString)
  /\ is_media_import name = false
  /\ is_media_purge name = false
  /\ (forall root drive p, import_files root drive [name] p = p)
  /\ (forall before after,
         purge_eligible (before ++ EFile name :: after)
         = purge_eligible (before ++ after))
  /\ (forall folder_path p,
         folders_marked_for_deletion
           (try_remove_folder folder_path (inr [EFile name]) p)
         = folders_marked_for_deletion p ++ [folder_path]).
Proof.
  intros H.
  assert (Hext : ext_of name = EmptyString) by (apply ext_of_bare_extension, H).
  assert (Hi : is_media_import name = false)
    by (unfold is_media_import; rewrite Hext; reflexivity).
  assert (Hp : is_media_purge name = false)
    by (unfold is_media_purge; rewrite Hext; reflexivity).
  split; [|split; [|split; [|split; [|split]]]]; try assumption.
  - destruct (bare_extension_shape name H) as (r & -> & Hr).
    apply splitext_leading_dot, Hr.
  - intros root drive p. apply import_files_skip. simpl. rewrite Hi. reflexivity.
  - intros before after.
    change (EFile name :: after) with ([EFile name] ++ after).
    rewrite !purge_eligible_app.
    replace (purge_eligible [EFile name]) with true; [reflexivity|].
    unfold purge_eligible, media_file. simpl. rewrite Hp. reflexivity.
  - intros folder_path p. rewrite try_remove_folder_marked.
    unfold purge_eligible, media_file. simpl. rewrite Hp. reflexivity.
Qed.

(** The file [.jpg] is a bare extension and is not media. *)
Lemma bare_extension_not_media_witness :
  bare_extension ".jpg" = true
  /\ ntpath.splitext ".jpg" = (".jpg", EmptyString)
  /\ is_media_import ".jpg" = false
  /\ is_media_purge ".jpg" = false.
Proof.
  split; [reflexivity|].
  destruct (bare_extension_not_media ".jpg" eq_refl) as (H1 & H2 & H3 & _).
  auto.
Defined.

(* ===================================================================== *)
(** * Drive Registry                                                      *)
(* ===================================================================== *)

Lemma dict_get_app (d e : dict) (k : string) :
  dict_get (d ++ e) k
  = match dict_get d k with Some v => Some v | None => dict_get e k end.
Proof.
  induction d as [|[k' v'] d IH]; simpl; [reflexivity|].
  destruct (String.eqb k' k); [reflexivity | apply IH].
Qed.

Lemma dict_has_app (d e : dict) (k : string) :
  dict_has (d ++ e) k = dict_has d k || dict_has e k.
Proof.
  unfold dict_has. rewrite dict_get_app. destruct (dict_get d k); reflexivity.
Qed.

Lemma dict_set_fresh (d : dict) (k : string) (v : jvalue) :
  dict_has d k = false -> dict_set d k v = d ++ [(k, v)].
Proof.
  unfold dict_has. induction d as [|[k' v'] d IH]; simpl; [reflexivity|].
  destruct (String.eqb k' k); [discriminate|].
  intros H. rewrite IH by exact H. reflexivity.
Qed.

Lemma provisioned_get (data extra : dict) (k : string) (v : jvalue) :
  provisioned data extra ->
  dict_get data k = Some v -> dict_get (data ++ extra) k = Some v.
Proof. intros _ H. rewrite dict_get_app, H. reflexivity. Qed.

Lemma provisioned_other (data extra : dict) (k : string) :
  provisioned data extra -> k <> "id" -> k <> "name" ->
  dict_get (data ++ extra) k = dict_get data k.
Proof.
  intros H Hid Hname. rewrite dict_get_app.
  destruct (dict_get data k); [reflexivity|].
  induction H as [|[k' v'] extra [[Hk | Hk] _] _ IH]; simpl in *; [reflexivity| |].
  - subst k'. destruct (String.eqb_spec "id" k); [congruence | exact IH].
  - subst k'. destruct (String.eqb_spec "name" k); [congruence | exact IH].
Qed.

Lemma evolves_refl (h : host) : evolves h h.
Proof.
  repeat split. exists []. rewrite app_nil_r.
  split; [reflexivity|]. split; [reflexivity|].
  intros path H. inversion H.
Qed.

(** A step that leaves the disk and the machine alone. *)
Lemma evolves_quiet (h h' : host) :
  GetDriveTypeW h' = GetDriveTypeW h ->
  open_w_error h' = open_w_error h ->
  uuid_at h' = uuid_at h ->
  choice_at h' = choice_at h ->
  written h' = written h ->
  descriptors h' = descriptors h ->
  evolves h h'.
Proof.
  intros H1 H2 H3 H4 H5 H6. repeat split; try assumption.
  exists []. rewrite app_nil_r. split; [assumption|].
  split; [intros; rewrite H6; reflexivity|].
  intros path H. inversion H.
Qed.

Lemma evolves_trans (h1 h2 h3 : host) :
  evolves h1 h2 -> evolves h2 h3 -> evolves h1 h3.
Proof.
  intros (A1 & A2 & A3 & A4 & ws1 & Aw & Asame & Anew)
         (B1 & B2 & B3 & B4 & ws2 & Bw & Bsame & Bnew).
  repeat split; try congruence.
  exists (ws1 ++ ws2). split; [rewrite Bw, Aw, app_assoc; reflexivity|].
  split.
  - intros path H. rewrite not_elem_of_app in H. destruct H as [H1 H2].
    rewrite Bsame, Asame by assumption. reflexivity.
  - intros path H.
    destruct (decide (path ∈ ws2)) as [H2 | H2].
    + destruct (Bnew path H2) as (data & extra & E2 & E3 & P & C & C' & T).
      destruct (decide (path ∈ ws1)) as [H1 | H1].
      * destruct (Anew path H1) as (data0 & extra0 & _ & E2' & _ & _ & C0 & _).
        rewrite E2 in E2'. injection E2' as ->. congruence.
      * exists data, extra. rewrite <- (Asame path H1). auto 10.
    + apply elem_of_app in H as [H1 | H1]; [|contradiction].
      destruct (Anew path H1) as (data & extra & E1 & E2 & P & C & C' & T).
      exists data, extra. rewrite (Bsame path H2). auto 10.
Qed.

Lemma wp_bind {S A B} (m : M S A) (k : A -> M S B)
    (Q : B -> S -> Prop) (E : S -> Prop) (s : S) :
  wp m (fun a s' => wp (k a) Q E s') E s -> wp (bind m k) Q E s.
Proof. unfold wp, bind. destruct (m s); auto. Qed.

Lemma wp_weaken {S A} (m : M S A) (Q Q' : A -> S -> Prop) (E E' : S -> Prop)
    (s : S) :
  wp m Q E s -> (forall a s', Q a s' -> Q' a s') -> (forall s', E s' -> E' s') ->
  wp m Q' E' s.
Proof. unfold wp. destruct (m s); auto. Qed.

(** The rule of the [for] loop: an invariant [I] of the accumulator and
    the state that every round keeps is kept by the loop; a round that
    raises leaves a state in [E]. *)
Lemma wp_for_each {S A B} (body : A -> B -> M S B)
    (I : B -> S -> Prop) (E : S -> Prop) (xs : list A) :
  (forall x acc s, In x xs -> I acc s -> wp (body x acc) I E s) ->
  forall acc s, I acc s -> wp (for_each xs body acc) I E s.
Proof.
  induction xs as [|x xs IH]; intros Hbody acc s HI; simpl.
  - exact HI.
  - apply wp_bind.
    eapply wp_weaken; [apply Hbody; [left; reflexivity | exact HI] | | auto].
    intros acc' s' HI'. apply IH; [|exact HI'].
    intros y acc0 s0 Hy. apply Hbody. right. exact Hy.
Qed.

Ltac quiet := apply evolves_quiet; reflexivity.
Ltac prov :=
  unfold provisioned;
  repeat (apply List.Forall_cons; [split; simpl; [auto | assumption] |]);
  apply List.Forall_nil.

Lemma complete_app (data extra : dict) :
  complete data = true -> complete (data ++ extra) = true.
Proof.
  unfold complete. rewrite !dict_has_app.
  intros H. apply andb_true_iff in H as [-> ->]. reflexivity.
Qed.

(** The descriptor at [path] replaced by a provisioned one. *)
Lemma evolves_write (h h' : host) (path : string) (data extra : dict) :
  GetDriveTypeW h' = GetDriveTypeW h ->
  open_w_error h' = open_w_error h ->
  uuid_at h' = uuid_at h ->
  choice_at h' = choice_at h ->
  written h' = written h ++ [path] ->
  descriptors h' = <[path := Parsed (JObj (data ++ extra))]> (descriptors h) ->
  descriptors h !! path = Some (Parsed (JObj data)) ->
  provisioned data extra ->
  complete data = false ->
  complete (data ++ extra) = true ->
  is_True (dict_get data "source") = true ->
  evolves h h'.
Proof.
  intros H1 H2 H3 H4 H5 H6 Hfile P C C' T. repeat split; try assumption.
  exists [path]. split; [assumption|]. split.
  - intros q Hq. rewrite H6. apply lookup_insert_ne.
    intros ->. apply Hq. left.
  - intros q Hq. apply list_elem_of_singleton in Hq as ->.
    exists data, extra. rewrite H6, lookup_insert_eq. auto 10.
Qed.

(** The end of a round that has to write: the write fails and the round
    is a quiet one, or the descriptor is replaced and the drive entered. *)
Ltac write_back :=
  unfold json_dump; simpl;
  match goal with
  | |- context [open_w_error ?h ?path] =>
      destruct (open_w_error h path) as [e|] eqn:Hw; simpl
  end;
  [ split; [quiet | left; reflexivity]
  | split;
    [ eapply evolves_write; try reflexivity; eassumption
    | right; eexists; split; [reflexivity|]; split; [reflexivity|];
      unfold registered, descriptor_path; simpl;
      match goal with
      | P : provisioned _ _, C' : complete _ = true |- _ =>
          rewrite lookup_insert_eq, C';
          rewrite (provisioned_other _ _ "source" P) by discriminate; auto
      end ] ].

Lemma detect_drive_spec (drive : string) (vd : list drive_info) (h : host) :
  wp (detect_drive drive vd)
     (fun vd' h' =>
        evolves h h'
        /\ (vd' = vd
            \/ exists e, vd' = vd ++ [e] /\ drive_path e = drive /\ registered h' e))
     (evolves h) h.
Proof.
  unfold wp, detect_drive, bind, on_console, modify, gets, ret. simpl.
  destruct (descriptors h !! ntpath.join2 drive "drive.json")
    as [[data | e] | ] eqn:Hfile; simpl.
  2, 3: split; [quiet | left; reflexivity].
  destruct data as [ | b | z | zero | s | xs | data]; simpl; try quiet.
  destruct (is_True (dict_get data "source")) eqn:Hsource; simpl.
  2: split; [quiet | left; reflexivity].
  destruct (dict_has data "id") eqn:Hid; simpl.
  - destruct (dict_has data "name") eqn:Hname; simpl.
    + (* already baptized *)
      split; [quiet|]. right. eexists. split; [reflexivity|].
      split; [reflexivity|]. unfold registered, descriptor_path, complete. simpl.
      rewrite Hfile, Hid, Hname, Hsource. auto.
    + (* the name is missing *)
      match goal with |- context [dict_set data "name" ?v] => generalize v; intros n end.
      rewrite dict_set_fresh by exact Hname.
      assert (C : complete data = false).
      { unfold complete. rewrite Hid, Hname. reflexivity. }
      assert (C' : complete (data ++ [("name", n)]) = true).
      { unfold complete. rewrite !dict_has_app, Hid. simpl. apply orb_true_r. }
      assert (P : provisioned data [("name", n)]) by prov.
      write_back.
  - match goal with |- context [dict_set data "id" ?v] => generalize v; intros u end.
    rewrite dict_set_fresh by exact Hid.
    assert (C : complete data = false).
    { unfold complete. rewrite Hid. reflexivity. }
    destruct (dict_has (data ++ [("id", u)]) "name") eqn:Hname; simpl.
    + (* the id is missing *)
      assert (C' : complete (data ++ [("id", u)]) = true).
      { unfold complete. rewrite Hname, dict_has_app, orb_true_r. reflexivity. }
      assert (P : provisioned data [("id", u)]) by prov.
      write_back.
    + (* both are missing *)
      match goal with |- context [dict_set _ "name" ?v] => generalize v; intros n end.
      rewrite dict_set_fresh by exact Hname.
      rewrite <- app_assoc. simpl app.
      rewrite dict_has_app in Hname. apply orb_false_iff in Hname as [Hname _].
      assert (C' : complete (data ++ [("id", u); ("name", n)]) = true).
      { unfold complete. rewrite !dict_has_app. simpl. rewrite !orb_true_r. reflexivity. }
      assert (P : provisioned data [("id", u); ("name", n)]) by prov.
      write_back.
Qed.

Lemma registered_stable (h h' : host) (d : drive_info) :
  evolves h h' -> registered h d -> registered h' d.
Proof.
  intros (_ & _ & _ & _ & ws & _ & Hsame & Hnew) (Hfile & C & T & Hid & Hname).
  unfold registered. repeat split; try assumption.
  destruct (decide (descriptor_path (drive_path d) ∈ ws)) as [Hin | Hout].
  - destruct (Hnew _ Hin) as (data & extra & E & _ & _ & C0 & _).
    rewrite Hfile in E. injection E as <-. congruence.
  - rewrite (Hsame _ Hout). exact Hfile.
Qed.

(** What one run of discovery does: the host evolves, and every entry of
    the result is registered on the disk it leaves. *)
Lemma detect_external_drives_spec (h : host) :
  wp detect_external_drives
     (fun drives h' => evolves h h' /\ Forall (registered h') drives)
     (evolves h) h.
Proof.
  unfold detect_external_drives.
  apply wp_bind. unfold wp at 1, on_console, modify.
  apply wp_bind. unfold wp at 1, gets.
  apply wp_bind.
  match goal with
  | |- wp ?m _ _ ?s =>
      assert (Hm : exists h0, state_of (m s) = h0 /\ evolves h h0
                              /\ exists u, m s = Returns u h0)
  end.
  { match goal with |- context [match ?l with [] => _ | _ => _ end] =>
      destruct l end; eexists; (split; [reflexivity|]);
      (split; [quiet | eexists; reflexivity]). }
  destruct Hm as (h0 & _ & Hev & u & Hm). unfold wp at 1. rewrite Hm.
  apply (wp_for_each detect_drive
           (fun acc s => evolves h s /\ Forall (registered s) acc) (evolves h)).
  - intros drive acc s _ [Hs Hacc].
    eapply wp_weaken; [apply detect_drive_spec | |].
    + intros acc' s' [Hstep Hres]. split; [eapply evolves_trans; eassumption|].
      assert (Hacc' : Forall (registered s') acc).
      { eapply Forall_impl; [exact Hacc|]. intros d. apply registered_stable, Hstep. }
      destruct Hres as [-> | (e & -> & _ & He)]; [exact Hacc'|].
      apply Forall_app. split; [exact Hacc'|]. constructor; [exact He | constructor].
    + intros s' Hstep. eapply evolves_trans; eassumption.
  - split; [exact Hev | constructor].
Qed.

Lemma evolves_state_of (h : host) :
  evolves h (state_of (detect_external_drives h)).
Proof.
  pose proof (detect_external_drives_spec h) as H. unfold wp in H.
  destruct (detect_external_drives h); simpl; tauto.
Qed.

(** Over a run, a descriptor is either untouched or provisioned. *)
Lemma evolves_descriptor (h h' : host) (path : string) :
  evolves h h' ->
  descriptors h' !! path = descriptors h !! path \/ rewritten h h' path.
Proof.
  intros (_ & _ & _ & _ & ws & _ & Hsame & Hnew).
  destruct (decide (path ∈ ws)); [right | left]; auto.
Qed.

Lemma evolves_keeps_field (h h' : host) (path : string) (data : dict)
    (key : string) (value : jvalue) :
  evolves h h' ->
  descriptors h !! path = Some (Parsed (JObj data)) ->
  dict_get data key = Some value ->
  exists data', descriptors h' !! path = Some (Parsed (JObj data'))
                /\ dict_get data' key = Some value.
Proof.
  intros Hev Hfile Hget.
  destruct (evolves_descriptor h h' path Hev) as [Hsame | Hnew].
  - exists data. rewrite Hsame. auto.
  - destruct Hnew as (data0 & extra & E & E' & P & _).
    rewrite Hfile in E. injection E as <-.
    exists (data ++ extra). split; [exact E'|].
    apply provisioned_get; assumption.
Qed.

Lemma evolves_complete (h h' : host) (path : string) (data : dict) :
  evolves h h' ->
  descriptors h !! path = Some (Parsed (JObj data)) ->
  complete data = true ->
  descriptors h' !! path = Some (Parsed (JObj data))
  /\ forall ws, written h' = written h ++ ws -> path ∉ ws.
Proof.
  intros (_ & _ & _ & _ & ws & Hw & Hsame & Hnew) Hfile C.
  assert (Hout : path ∉ ws).
  { intros Hin. destruct (Hnew _ Hin) as (data0 & extra & E & _ & _ & C0 & _).
    rewrite Hfile in E. injection E as <-. congruence. }
  split; [rewrite (Hsame _ Hout); exact Hfile|].
  intros ws' Hw'. rewrite Hw in Hw'. apply app_inv_head in Hw'. subst ws'.
  exact Hout.
Qed.

(** C4.  Provisioning is idempotent.  A descriptor that holds both [id]
    and [name] is left as it is by a run of discovery, and by a second run
    after it, and neither run writes it back; in general no field that a
    descriptor holds, [id] and [name] among them, changes value over one
    run or two; and a drive returned from such a descriptor carries the
    descriptor's own [id] and [name]. *)
Theorem idempotent_provisioning (h : host) :
  let h1 := state_of (detect_external_drives h) in
  let h2 := state_of (detect_external_drives h1) in
  (forall path data,
      descriptors h !! path = Some (Parsed (JObj data)) ->
      complete data = true ->
      descriptors h1 !! path = Some (Parsed (JObj data))
      /\ (forall ws, written h1 = written h ++ ws -> path ∉ ws)
      /\ descriptors h2 !! path = Some (Parsed (JObj data))
      /\ (forall ws, written h2 = written h1 ++ ws -> path ∉ ws))
  /\ (forall path data key value,
         descriptors h !! path = Some (Parsed (JObj data)) ->
         dict_get data key = Some value ->
         exists data1 data2,
           descriptors h1 !! path = Some (Parsed (JObj data1))
           /\ dict_get data1 key = Some value
           /\ descriptors h2 !! path = Some (Parsed (JObj data2))
           /\ dict_get data2 key = Some value)
  /\ (forall drives h' d data,
         detect_external_drives h = Returns drives h' ->
         In d drives ->
         descriptors h !! descriptor_path (drive_path d) = Some (Parsed (JObj data)) ->
         complete data = true ->
         drive_json d = data
         /\ drive_id d = or_null (dict_get data "id")
         /\ drive_name d = or_null (dict_get data "name")).
Proof.
  intros h1 h2.
  pose proof (evolves_state_of h) as E1. fold h1 in E1.
  pose proof (evolves_state_of h1) as E2. fold h2 in E2.
  split; [|split].
  - intros path data Hfile C.
    destruct (evolves_complete h h1 path data E1 Hfile C) as [F1 W1].
    destruct (evolves_complete h1 h2 path data E2 F1 C) as [F2 W2].
    repeat split; assumption.
  - intros path data key value Hfile Hget.
    destruct (evolves_keeps_field h h1 path data key value E1 Hfile Hget)
      as (data1 & F1 & G1).
    destruct (evolves_keeps_field h1 h2 path data1 key value E2 F1 G1)
      as (data2 & F2 & G2).
    exists data1, data2. repeat split; assumption.
  - intros drives h' d data Hrun Hd Hfile C.
    pose proof (detect_external_drives_spec h) as Hspec.
    unfold wp in Hspec. rewrite Hrun in Hspec. destruct Hspec as [Hev Hreg].
    rewrite List.Forall_forall in Hreg.
    destruct (Hreg d Hd) as (Fd & _ & _ & Hid & Hname).
    destruct (evolves_complete h h' _ data Hev Hfile C) as [F' _].
    rewrite Fd in F'. injection F' as <-. repeat split; assumption || reflexivity.
Qed.

(** The descriptor of [G:] in [example_host] is complete: discovery
    leaves it alone twice. *)
Lemma idempotent_provisioning_witness :
  let data := [("id", JStr "g-7"); ("source", JBool true);
               ("name", JStr "Quiet Whale")] in
  let h1 := state_of (detect_external_drives example_host) in
  let h2 := state_of (detect_external_drives h1) in
  descriptors example_host !! "G:\drive.json" = Some (Parsed (JObj data))
  /\ complete data = true
  /\ descriptors h1 !! "G:\drive.json" = Some (Parsed (JObj data))
  /\ descriptors h2 !! "G:\drive.json" = Some (Parsed (JObj data)).
Proof.
  intros data h1 h2.
  destruct (idempotent_provisioning example_host) as (H & _ & _).
  destruct (H "G:\drive.json" data eq_refl eq_refl) as (F1 & _ & F2 & _).
  repeat split; assumption.
Defined.

(** C5.  A removable volume whose descriptor does not have [source] set
    to the boolean [true] (the field is missing, is [false], or is any
    other value, or the descriptor is not an object or cannot be read) is
    not among the drives discovery returns, whatever else the descriptor
    holds. *)
Theorem eligibility_gate (h : host) (root : string) :
  source_is_true h root = false ->
  forall drives h',
    detect_external_drives h = Returns drives h' ->
    ~ In root (map drive_path drives).
Proof.
  intros Hsrc drives h' Hrun Hin.
  apply in_map_iff in Hin as (d & <- & Hd).
  pose proof (detect_external_drives_spec h) as Hspec.
  unfold wp in Hspec. rewrite Hrun in Hspec. destruct Hspec as [Hev Hreg].
  rewrite List.Forall_forall in Hreg.
  destruct (Hreg d Hd) as (Fd & _ & T & _).
  unfold source_is_true in Hsrc.
  destruct (evolves_descriptor h h' (descriptor_path (drive_path d)) Hev)
    as [Hsame | (data & extra & E & E' & P & _ & _ & T0)].
  - rewrite <- Hsame, Fd, T in Hsrc. discriminate.
  - rewrite E, T0 in Hsrc. discriminate.
Qed.

(** In [example_host] the descriptor of [F:] has [source] set to 1, not
    to [true]: [F:\] is not returned. *)
Lemma eligibility_gate_witness :
  source_is_true example_host "F:\" = false
  /\ exists drives h',
      detect_external_drives example_host = Returns drives h'
      /\ ~ In "F:\" (map drive_path drives).
Proof.
  split; [reflexivity|].
  destruct (detect_external_drives example_host) as [drives h' | e h'] eqn:Hrun.
  - exists drives, h'. split; [reflexivity|].
    apply (eligibility_gate example_host "F:\" eq_refl drives h' Hrun).
  - vm_compute in Hrun. discriminate.
Defined.

(** C8.  When a run of discovery writes a descriptor back, the file it
    leaves is the object it found followed by the [id] and/or [name]
    fields that object lacked: every field of the original, recognized or
    not, is still there with the value it had and in the place it had, and
    no other key appears. *)
Theorem rewrite_preserves_fields (h : host) (path : string) (ws : list string) :
  let h' := state_of (detect_external_drives h) in
  written h' = written h ++ ws ->
  path ∈ ws ->
  exists data extra,
    descriptors h !! path = Some (Parsed (JObj data))
    /\ descriptors h' !! path = Some (Parsed (JObj (data ++ extra)))
    /\ provisioned data extra
    /\ (forall key value,
           dict_get data key = Some value ->
           dict_get (data ++ extra) key = Some value)
    /\ (forall key,
           key <> "id" -> key <> "name" ->
           dict_get (data ++ extra) key = dict_get data key).
Proof.
  intros h' Hw Hin.
  destruct (evolves_state_of h) as (_ & _ & _ & _ & ws0 & Hw0 & _ & Hnew).
  fold h' in Hw0, Hnew.
  rewrite Hw0 in Hw. apply app_inv_head in Hw. subst ws0.
  destruct (Hnew path Hin) as (data & extra & E & E' & P & _).
  exists data, extra. repeat split; try assumption.
  - intros key value. apply provisioned_get, P.
  - intros key. apply provisioned_other, P.
Qed.

(** In [example_host] the descriptor of [E:] is written back; its
    [source], [purge] and [owner] fields come through. *)
Lemma rewrite_preserves_fields_witness :
  let h' := state_of (detect_external_drives example_host) in
  written h' = written example_host ++ ["E:\drive.json"]
  /\ "E:\drive.json" ∈ ["E:\drive.json"]
  /\ exists data extra,
      descriptors example_host !! "E:\drive.json" = Some (Parsed (JObj data))
      /\ descriptors h' !! "E:\drive.json" = Some (Parsed (JObj (data ++ extra)))
      /\ provisioned data extra.
Proof.
  intros h'.
  assert (Hw : written h' = written example_host ++ ["E:\drive.json"])
    by reflexivity.
  assert (Hin : "E:\drive.json" ∈ ["E:\drive.json"]) by (left).
  split; [exact Hw|]. split; [exact Hin|].
  destruct (rewrite_preserves_fields example_host "E:\drive.json"
              ["E:\drive.json"] Hw Hin) as (data & extra & E & E' & P & _).
  exists data, extra. auto.
Defined.

(* ===================================================================== *)
(** * Import Walker                                                       *)
(* ===================================================================== *)

Lemma import_files_marked (root : string) (drive : drive_info)
    (files : list string) (p : proc) :
  folders_marked_for_deletion (import_files root drive files p)
  = folders_marked_for_deletion p.
Proof.
  unfold import_files. revert p.
  induction files as [|f fs IH]; intros p; simpl; [reflexivity|].
  rewrite IH. destruct (is_media_import f); reflexivity.
Qed.

Lemma import_visit_marked (drive : drive_info) (v : visit) (p : proc) :
  folders_marked_for_deletion
    (import_visit drive (purge_flag (drive_json drive)) v p)
  = folders_marked_for_deletion p
    ++ (if marking_visit drive v then [v_root v] else []).
Proof.
  unfold import_visit, marking_visit.
  destruct (truthy (purge_flag (drive_json drive)));
    cbn -[try_remove_folder import_files].
  - destruct (differs_from_root (v_root v) (drive_path drive));
      cbn -[try_remove_folder import_files].
    + rewrite try_remove_folder_marked. cbn -[import_files].
      rewrite import_files_marked. reflexivity.
    + rewrite import_files_marked, app_nil_r. reflexivity.
  - rewrite import_files_marked, app_nil_r. reflexivity.
Qed.

Lemma import_visits_marked (drive : drive_info) (visits : list visit) (p : proc) :
  folders_marked_for_deletion
    (fold_left (fun p v => import_visit drive (purge_flag (drive_json drive)) v p)
               visits p)
  = folders_marked_for_deletion p
    ++ map v_root (List.filter (marking_visit drive) visits).
Proof.
  revert p. induction visits as [|v vs IH]; intros p; simpl.
  - rewrite app_nil_r. reflexivity.
  - rewrite IH, import_visit_marked.
    destruct (marking_visit drive v); simpl.
    + rewrite <- app_assoc. reflexivity.
    + rewrite app_nil_r. reflexivity.
Qed.

(** The candidates a drive contributes: the roots of its marking visits,
    in the order of the walk. *)
Lemma import_drive_marked (volumes : string -> scan) (drive : drive_info)
    (p : proc) :
  folders_marked_for_deletion (import_drive volumes drive p)
  = folders_marked_for_deletion p
    ++ map v_root
         (List.filter (marking_visit drive)
            (os_walk (drive_path drive) (volumes (drive_path drive)))).
Proof. unfold import_drive. rewrite import_visits_marked. reflexivity. Qed.

Lemma marking_visit_differs (drive : drive_info) (v : visit) :
  marking_visit drive v = true ->
  ntpath.normpath (v_root v) <> ntpath.normpath (drive_path drive).
Proof.
  unfold marking_visit, differs_from_root. intros H.
  apply andb_true_iff in H as [H _]. apply andb_true_iff in H as [_ H].
  apply negb_true_iff in H. intros E. rewrite E, string_eqb_refl in H.
  discriminate.
Qed.

(** The spec's scenario: of the directories of the example volume only
    [E:\DCIM\EMPTY] becomes a candidate. *)
Example example_walk :
  folders_marked_for_deletion
    (import_from_external_drives (fun _ => inr example_volume) [example_drive]
                                 (mkProc [] [] []))
  = ["E:\DCIM\EMPTY"].
Proof. reflexivity. Qed.

(** ** [normpath] and trailing separators *)

Lemma replace_app (a b : ascii) (s t : string) :
  pystr.replace a b (s +:+ t) = pystr.replace a b s +:+ pystr.replace a b t.
Proof. induction s as [|c r IH]; simpl; [reflexivity|]. rewrite IH. reflexivity. Qed.

Lemma split_nonempty (c : ascii) (s : string) :
  exists w ws, pystr.split c s = w :: ws.
Proof.
  induction s as [|d r (w & ws & IH)]; simpl; [eauto|].
  destruct (Ascii.eqb d c); [eauto|]. rewrite IH. eauto.
Qed.

Lemma split_snoc_sep (c : ascii) (s : string) :
  pystr.split c (s +:+ String c EmptyString) = pystr.split c s ++ [EmptyString].
Proof.
  induction s as [|d r IH]; simpl.
  - rewrite ascii_eqb_refl. reflexivity.
  - destruct (Ascii.eqb d c); [rewrite IH; reflexivity|].
    rewrite IH. destruct (split_nonempty c r) as (w & ws & ->). reflexivity.
Qed.

Lemma norm_comps_snoc_empty (rooted : bool) (comps : list string) :
  ntpath.norm_comps rooted (comps ++ [EmptyString]) = ntpath.norm_comps rooted comps.
Proof. unfold ntpath.norm_comps. rewrite fold_left_app. reflexivity. Qed.

Lemma lstrip_char_snoc (c : ascii) (s : string) :
  pystr.lstrip_char c (s +:+ String c EmptyString)
  = match pystr.lstrip_char c s with
    | EmptyString => EmptyString
    | x => x +:+ String c EmptyString
    end.
Proof.
  induction s as [|d r IH]; simpl.
  - rewrite ascii_eqb_refl. reflexivity.
  - destruct (Ascii.eqb d c); [exact IH | reflexivity].
Qed.

Lemma normpath_tail_trailing_sep (prefix path : string) :
  path <> EmptyString ->
  ntpath.normpath_tail prefix (path +:+ String ntpath.sep EmptyString)
  = ntpath.normpath_tail prefix path.
Proof.
  intros Hne. unfold ntpath.normpath_tail.
  destruct path as [|d r]; [congruence|].
  change (String d r +:+ String ntpath.sep EmptyString)
    with (String d (r +:+ String ntpath.sep EmptyString)).
  assert (Hstart : forall t, pystr.startswith (String ntpath.sep EmptyString) (String d t)
                             = Ascii.eqb d ntpath.sep).
  { intros t. simpl. apply andb_true_r. }
  rewrite !Hstart.
  destruct (Ascii.eqb d ntpath.sep) eqn:Hd.
  - change (String d (r +:+ String ntpath.sep EmptyString))
      with (String d r +:+ String ntpath.sep EmptyString).
    rewrite lstrip_char_snoc.
    destruct (pystr.lstrip_char ntpath.sep (String d r)) as [|x xs]; [reflexivity|].
    rewrite split_snoc_sep, norm_comps_snoc_empty. reflexivity.
  - change (String d (r +:+ String ntpath.sep EmptyString))
      with (String d r +:+ String ntpath.sep EmptyString).
    rewrite split_snoc_sep, norm_comps_snoc_empty. reflexivity.
Qed.

(** A path that starts with a letter and a colon has that as its drive. *)
Lemma splitdrive_letter (letter : ascii) (rest : string) :
  ntpath.splitdrive (String letter (String ntpath.colon rest))
  = (String letter (String ntpath.colon EmptyString), rest).
Proof.
  unfold ntpath.splitdrive.
  assert (Hlen : (2 <=? pystr.len (String letter (String ntpath.colon rest))) = true).
  { unfold pystr.len. simpl String.length. apply Z.leb_le. lia. }
  rewrite Hlen. unfold pystr.take, pystr.drop, pystr.at_. simpl.
  rewrite !substring_none, Nat.sub_0_r, substring_all.
  match goal with
  | |- context [if ?c then false else false] => destruct c
  end; reflexivity.
Qed.

Lemma normpath_letter (letter : ascii) (rest : string) :
  ntpath.normpath (String letter (String ntpath.colon rest))
  = ntpath.normpath_tail
      (String (if Ascii.eqb letter ntpath.altsep then ntpath.sep else letter)
              (String ntpath.colon EmptyString))
      (pystr.replace ntpath.altsep ntpath.sep rest).
Proof.
  unfold ntpath.normpath.
  change (pystr.replace ntpath.altsep ntpath.sep (String letter (String ntpath.colon rest)))
    with (String (if Ascii.eqb letter ntpath.altsep then ntpath.sep else letter)
                 (String ntpath.colon (pystr.replace ntpath.altsep ntpath.sep rest))).
  rewrite splitdrive_letter. reflexivity.
Qed.

Lemma replace_nonempty (a b : ascii) (s : string) :
  s <> EmptyString -> pystr.replace a b s <> EmptyString.
Proof. destruct s; [congruence | discriminate]. Qed.

(** On a path with a drive letter and something after it, a trailing
    separator changes nothing for [normpath]. *)
Lemma normpath_trailing_sep (letter : ascii) (rest : string) (c : ascii) :
  rest <> EmptyString ->
  ntpath.is_sep c = true ->
  ntpath.normpath (String letter (String ntpath.colon rest) +:+ String c EmptyString)
  = ntpath.normpath (String letter (String ntpath.colon rest)).
Proof.
  intros Hne Hc.
  change (String letter (String ntpath.colon rest) +:+ String c EmptyString)
    with (String letter (String ntpath.colon (rest +:+ String c EmptyString))).
  rewrite !normpath_letter, replace_app.
  replace (pystr.replace ntpath.altsep ntpath.sep (String c EmptyString))
    with (String ntpath.sep EmptyString).
  - apply normpath_tail_trailing_sep, replace_nonempty, Hne.
  - unfold ntpath.is_sep in Hc. apply orb_true_iff in Hc as [Hc | Hc];
      apply Ascii.eqb_eq in Hc; subst c; reflexivity.
Qed.

(** ** The walk stays on its drive *)

Lemma replace_valid_name (name : string) :
  valid_name name = true -> pystr.replace ntpath.altsep ntpath.sep name = name.
Proof.
  induction name as [|c r IH]; simpl; intros H; [reflexivity|].
  repeat (apply andb_true_iff in H as [H ?]).
  rewrite IH by assumption.
  match goal with E : negb (Ascii.eqb c ntpath.altsep) = true |- _ =>
    apply negb_true_iff in E; rewrite E end.
  reflexivity.
Qed.

(** A valid name has no drive. *)
Lemma splitdrive_valid_name (name : string) :
  valid_name name = true -> ntpath.splitdrive name = (EmptyString, name).
Proof.
  intros H. unfold ntpath.splitdrive.
  rewrite replace_valid_name by exact H.
  destruct name as [|a [|b r]]; try reflexivity.
  simpl in H.
  repeat match goal with E : _ && _ = true |- _ => apply andb_true_iff in E as [? ?] end.
  repeat match goal with E : negb _ = true |- _ => apply negb_true_iff in E end.
  assert (Htake : pystr.take 2 (String a (String b r)) = String a (String b EmptyString)).
  { unfold pystr.take. simpl. rewrite substring_none. reflexivity. }
  assert (Hat : pystr.at_ 1 (String a (String b r)) = String b EmptyString).
  { unfold pystr.at_. simpl. rewrite substring_none. reflexivity. }
  rewrite Htake, Hat.
  cbn [String.eqb].
  repeat match goal with E : Ascii.eqb _ _ = false |- _ => rewrite E end.
  destruct (2 <=? pystr.len (String a (String b r))); reflexivity.
Qed.

Lemma join2_on_drive (letter : ascii) (top name : string) :
  on_drive letter top -> valid_name name = true ->
  on_drive letter (ntpath.join2 top name).
Proof.
  intros [rest ->] Hname. unfold ntpath.join2, ntpath.join_step.
  rewrite splitdrive_letter, splitdrive_valid_name by exact Hname.
  assert (Hstart : match name with
                   | EmptyString => false
                   | String c _ => ntpath.is_sep c
                   end = false).
  { destruct name as [|c r]; [reflexivity|]. simpl in Hname.
    repeat (apply andb_true_iff in Hname as [Hname ?]).
    repeat match goal with E : negb _ = true |- _ => apply negb_true_iff in E end.
    unfold ntpath.is_sep.
    repeat match goal with E : Ascii.eqb _ _ = false |- _ => rewrite E end.
    reflexivity. }
  rewrite Hstart. simpl.
  rewrite andb_false_r. eexists. reflexivity.
Qed.

(** Induction on a directory tree. *)
Lemma entry_tree_ind (P : entry -> Prop) :
  (forall name, P (EFile name)) ->
  (forall name, P (EOther name)) ->
  (forall name islink e, P (EDir name islink (inl e))) ->
  (forall name islink entries,
      Forall P entries -> P (EDir name islink (inr entries))) ->
  forall e, P e.
Proof.
  intros Hfile Hother Hdenied Hdir.
  fix IH 1. intros [name | name | name islink [e | entries]].
  - apply Hfile.
  - apply Hother.
  - apply Hdenied.
  - apply Hdir.
    induction entries as [|e es IHes]; constructor; [apply IH | exact IHes].
Qed.

Lemma walk_entry_on_drive (letter : ascii) (e : entry) :
  forall top,
    on_drive letter top -> valid_entry e = true ->
    Forall (fun v => on_drive letter (v_root v)) (walk_entry top e).
Proof.
  induction e as [name | name | name islink e | name islink entries IH]
    using entry_tree_ind; intros top Htop Hvalid; simpl; try constructor.
  - destruct islink; constructor.
  - destruct islink; [constructor|].
    simpl in Hvalid. apply andb_true_iff in Hvalid as [Hname Hsub].
    pose proof (join2_on_drive letter top name Htop Hname) as Hnew.
    constructor; [exact Hnew|].
    induction IH as [|e es He _ IHes]; simpl; [constructor|].
    simpl in Hsub. apply andb_true_iff in Hsub as [H1 H2].
    apply Forall_app. split; [apply He; assumption | apply IHes, H2].
Qed.

Lemma os_walk_on_drive (letter : ascii) (top : string) (listing : scan) :
  on_drive letter top -> valid_listing listing = true ->
  Forall (fun v => on_drive letter (v_root v)) (os_walk top listing).
Proof.
  intros Htop Hvalid. destruct listing as [e | entries]; simpl; constructor.
  - exact Htop.
  - simpl in Hvalid.
    induction entries as [|e es IH]; simpl; [constructor|].
    simpl in Hvalid. apply andb_true_iff in Hvalid as [H1 H2].
    apply Forall_app. split; [apply walk_entry_on_drive; assumption | apply IH, H2].
Qed.

(** ** Root exemption *)

(** What a drive contributes to the candidate list. *)
Lemma import_drive_added (volumes : string -> scan) (drive : drive_info)
    (p : proc) :
  exists added,
    folders_marked_for_deletion (import_drive volumes drive p)
    = folders_marked_for_deletion p ++ added
    /\ forall f, In f added ->
         ntpath.normpath f <> ntpath.normpath (drive_path drive)
         /\ exists v, In v (os_walk (drive_path drive) (volumes (drive_path drive)))
                      /\ v_root v = f.
Proof.
  eexists. split; [apply import_drive_marked|].
  intros f Hf. apply in_map_iff in Hf as (v & <- & Hv).
  apply List.filter_In in Hv as [Hv Hmark].
  split; [apply marking_visit_differs, Hmark | eauto].
Qed.

Lemma import_drives_added (volumes : string -> scan) (drives : list drive_info)
    (p : proc) :
  exists added,
    folders_marked_for_deletion
      (fold_left (fun p drive => import_drive volumes drive p) drives p)
    = folders_marked_for_deletion p ++ added
    /\ forall f, In f added ->
         exists d, In d drives
           /\ ntpath.normpath f <> ntpath.normpath (drive_path d)
           /\ exists v, In v (os_walk (drive_path d) (volumes (drive_path d)))
                        /\ v_root v = f.
Proof.
  revert p. induction drives as [|d ds IH]; intros p; simpl.
  - exists []. rewrite app_nil_r. split; [reflexivity|]. intros f [].
  - destruct (import_drive_added volumes d p) as (a1 & E1 & H1).
    destruct (IH (import_drive volumes d p)) as (a2 & E2 & H2).
    exists (a1 ++ a2). split; [rewrite E2, E1, app_assoc; reflexivity|].
    intros f Hf. apply in_app_iff in Hf as [Hf | Hf].
    + destruct (H1 f Hf) as [Hn Hv]. exists d. auto.
    + destruct (H2 f Hf) as (d' & Hd' & Hn & Hv). exists d'. auto.
Qed.

(** C2, as the code has it.  The walk of a drive never adds the drive's
    mount root to the candidate list, nor any path with the same
    [os.path.normpath] form, whatever the root holds and whatever its
    [purge] flag; an empty root with [purge] set adds nothing at all.  Over
    a whole import of lettered drives whose entries bear valid names, no
    drive's root is among the paths added.  The test compares
    [os.path.normpath] forms: it does not see a trailing separator after a
    directory name, be it [\] or [/]. *)
Theorem root_exemption :
  (forall volumes drive p,
      exists added,
        folders_marked_for_deletion (import_drive volumes drive p)
        = folders_marked_for_deletion p ++ added
        /\ Forall (fun f => ntpath.normpath f <> ntpath.normpath (drive_path drive))
                  added
        /\ ~ In (drive_path drive) added)
  /\ (forall volumes drive p,
         volumes (drive_path drive) = inr [] ->
         folders_marked_for_deletion (import_drive volumes drive p)
         = folders_marked_for_deletion p)
  /\ (forall volumes drives p,
         Forall (fun d => (exists letter, drive_path d = drive_root letter)
                          /\ valid_listing (volumes (drive_path d)) = true)
                drives ->
         exists added,
           folders_marked_for_deletion
             (import_from_external_drives volumes drives p)
           = folders_marked_for_deletion p ++ added
           /\ Forall (fun d => ~ In (drive_path d) added) drives)
  /\ (forall letter rest c other,
         rest <> EmptyString ->
         ntpath.is_sep c = true ->
         let path := String letter (String ntpath.colon rest) in
         differs_from_root (path +:+ String c EmptyString) other
         = differs_from_root path other
         /\ differs_from_root other (path +:+ String c EmptyString)
            = differs_from_root other path).
Proof.
  split; [|split; [|split]].
  - intros volumes drive p.
    destruct (import_drive_added volumes drive p) as (added & E & H).
    exists added. split; [exact E|]. split.
    + apply List.Forall_forall. intros f Hf. apply (H f Hf).
    + intros Hin. destruct (H _ Hin) as [Hn _]. apply Hn. reflexivity.
  - intros volumes drive p Hempty.
    rewrite import_drive_marked, Hempty. simpl.
    unfold marking_visit, differs_from_root. simpl.
    rewrite string_eqb_refl, andb_false_r. simpl. apply app_nil_r.
  - intros volumes drives p Hdrives.
    unfold import_from_external_drives.
    destruct (import_drives_added volumes drives
                (write_console [Lit "Importing from external drives"] "TITLE" 0 p))
      as (added & E & H).
    exists added. split; [exact E|].
    apply List.Forall_forall. intros d Hd Hin.
    destruct (H _ Hin) as (d' & Hd' & Hn & v & Hv & Hroot).
    rewrite List.Forall_forall in Hdrives.
    destruct (Hdrives d Hd) as [[l Hl] _].
    destruct (Hdrives d' Hd') as [[l' Hl'] Hvalid].
    assert (Hon : on_drive l' (v_root v)).
    { assert (Hall := os_walk_on_drive l' (drive_path d') (volumes (drive_path d'))).
      rewrite List.Forall_forall in Hall. apply Hall; [|exact Hvalid|exact Hv].
      rewrite Hl'. eexists. reflexivity. }
    destruct Hon as [rest Hrest].
    rewrite Hroot, Hl in Hrest. unfold drive_root in Hrest.
    injection Hrest as -> _.
    apply Hn. rewrite Hl, Hl'. reflexivity.
  - intros letter rest c other Hne Hc path. unfold differs_from_root, path.
    rewrite !normpath_trailing_sep by assumption. split; reflexivity.
Qed.

(** [E:\] with the example volume: the listing is valid, the root is a
    lettered drive, and [E:\] is not among the paths added; after
    [E:\DCIM] a trailing separator is not seen. *)
Lemma root_exemption_witness :
  (exists added,
      folders_marked_for_deletion
        (import_from_external_drives (fun _ => inr example_volume) [example_drive]
                                     (mkProc [] [] []))
      = [] ++ added
      /\ Forall (fun d => ~ In (drive_path d) added) [example_drive])
  /\ differs_from_root "E:\DCIM\" "E:\DCIM" = differs_from_root "E:\DCIM" "E:\DCIM"
  /\ folders_marked_for_deletion
       (import_drive (fun _ => inr []) empty_drive (mkProc [] [] []))
     = [].
Proof.
  destruct root_exemption as (_ & Hempty & Hall & Htrail).
  split; [|split].
  - apply (Hall (fun _ => inr example_volume) [example_drive] (mkProc [] [] [])).
    constructor; [|constructor].
    split; [exists "E"%char; reflexivity | reflexivity].
  - apply (Htrail "E"%char "\DCIM" "\"%char "E:\DCIM"); [discriminate | reflexivity].
  - apply (Hempty (fun _ => inr []) empty_drive (mkProc [] [] [])). reflexivity.
Defined.

(** C2 as stated fails on case: two spellings of one root that differ in
    case only are different paths to the test, and a visit whose root is
    spelled [f:\] on the drive mounted at [F:\] is not exempt. *)
Lemma root_test_is_case_sensitive :
  pystr.lower "f:\" = pystr.lower "F:\"
  /\ differs_from_root "f:\" "F:\" = true
  /\ folders_marked_for_deletion
       (import_visit empty_drive (purge_flag (drive_json empty_drive))
                     (visit_of "f:\" []) (mkProc [] [] []))
     = ["f:\"].
Proof. repeat split. Qed.

(* ===================================================================== *)
(** * Deletion Pipeline                                                   *)
(* ===================================================================== *)

(** ** Stripping and line splitting *)

Lemma rstrip_blank (s : string) :
  blank s = true -> pystr.rstrip s = EmptyString.
Proof.
  induction s as [|c r IH]; simpl; intros H; [reflexivity|].
  apply andb_true_iff in H as [Hc Hr]. rewrite IH, Hc by exact Hr. reflexivity.
Qed.

Lemma rstrip_empty_blank (s : string) :
  pystr.rstrip s = EmptyString -> blank s = true.
Proof.
  induction s as [|c r IH]; simpl; intros H; [reflexivity|].
  destruct (pystr.rstrip r) eqn:Hr; [|discriminate].
  destruct (pystr.isspace c); [|discriminate]. simpl. apply IH. reflexivity.
Qed.

Lemma lstrip_blank (s : string) :
  blank s = true -> pystr.lstrip s = EmptyString.
Proof.
  induction s as [|c r IH]; simpl; intros H; [reflexivity|].
  apply andb_true_iff in H as [Hc Hr]. rewrite Hc. apply IH, Hr.
Qed.

(** What [lstrip] leaves is empty or starts with a character that is not
    white space; it is empty only for a blank string. *)
Lemma lstrip_shape (s : string) :
  (pystr.lstrip s = EmptyString /\ blank s = true)
  \/ exists c r, pystr.lstrip s = String c r /\ pystr.isspace c = false
                 /\ blank s = false.
Proof.
  induction s as [|c r IH]; simpl; [left; auto|].
  destruct (pystr.isspace c) eqn:Hc; simpl; [exact IH|].
  right. eauto.
Qed.

Lemma rstrip_head (c : ascii) (r : string) :
  pystr.isspace c = false ->
  exists r', pystr.rstrip (String c r) = String c r'.
Proof.
  intros Hc. simpl. destruct (pystr.rstrip r); [rewrite Hc|]; eauto.
Qed.

Lemma strip_empty_iff (s : string) :
  pystr.nonempty (pystr.strip s) = negb (blank s).
Proof.
  unfold pystr.strip.
  destruct (lstrip_shape s) as [[-> ->] | (c & r & -> & Hc & ->)]; [reflexivity|].
  destruct (rstrip_head c r Hc) as [r' ->]. reflexivity.
Qed.

Lemma rstrip_idem (s : string) : pystr.rstrip (pystr.rstrip s) = pystr.rstrip s.
Proof.
  induction s as [|c r IH]; simpl; [reflexivity|].
  destruct (pystr.rstrip r) as [|d t] eqn:Hr.
  - destruct (pystr.isspace c) eqn:Hc; simpl; [reflexivity|]. rewrite Hc. reflexivity.
  - simpl. simpl in IH. 
    destruct (match pystr.rstrip t with
              | EmptyString => if pystr.isspace d then EmptyString else String d EmptyString
              | String a s0 => String d (String a s0)
              end) eqn:E; [discriminate|].
    rewrite <- IH. reflexivity.
Qed.

Lemma strip_idem (s : string) : pystr.strip (pystr.strip s) = pystr.strip s.
Proof.
  unfold pystr.strip.
  destruct (lstrip_shape s) as [[-> _] | (c & r & -> & Hc & _)]; [reflexivity|].
  destruct (rstrip_head c r Hc) as [r' Hr']. rewrite Hr'. simpl pystr.lstrip.
  rewrite Hc, <- Hr'. apply rstrip_idem.
Qed.

Lemma lacks_app (c : ascii) (s t : string) :
  lacks c (s +:+ t) = lacks c s && lacks c t.
Proof.
  induction s as [|d r IH]; simpl; [reflexivity|].
  rewrite IH, andb_assoc. reflexivity.
Qed.

Lemma universal_newlines_id (s : string) :
  lacks pystr.CR s = true -> universal_newlines s = s.
Proof.
  induction s as [|c r IH]; simpl; intros H; [reflexivity|].
  apply andb_true_iff in H as [Hc Hr]. apply negb_true_iff in Hc.
  rewrite Hc, IH by exact Hr. reflexivity.
Qed.

Lemma keepends_line (line rest : string) :
  lacks pystr.LF line = true ->
  keepends (line +:+ String pystr.LF rest)
  = (line +:+ String pystr.LF EmptyString) :: keepends rest.
Proof.
  induction line as [|c r IH]; intros H.
  - reflexivity.
  - simpl in H. apply andb_true_iff in H as [Hc Hr]. apply negb_true_iff in Hc.
    change (keepends (String c (r +:+ String pystr.LF rest))
            = String c (r +:+ String pystr.LF EmptyString) :: keepends rest).
    cbn [keepends]. rewrite Hc, IH by exact Hr. reflexivity.
Qed.

Lemma lstrip_snoc_space (s : string) (x : ascii) :
  pystr.isspace x = true ->
  pystr.lstrip (s +:+ String x EmptyString)
  = if blank s then EmptyString else pystr.lstrip s +:+ String x EmptyString.
Proof.
  intros Hx. induction s as [|c r IH]; simpl.
  - rewrite Hx. reflexivity.
  - destruct (pystr.isspace c); [exact IH | reflexivity].
Qed.

Lemma rstrip_snoc_space (s : string) (x : ascii) :
  pystr.isspace x = true ->
  pystr.rstrip (s +:+ String x EmptyString) = pystr.rstrip s.
Proof.
  intros Hx. induction s as [|c r IH]; simpl.
  - rewrite Hx. reflexivity.
  - rewrite IH. reflexivity.
Qed.

Lemma strip_snoc_space (s : string) (x : ascii) :
  pystr.isspace x = true ->
  pystr.strip (s +:+ String x EmptyString) = pystr.strip s.
Proof.
  intros Hx. unfold pystr.strip. rewrite lstrip_snoc_space by exact Hx.
  destruct (blank s) eqn:Hb.
  - rewrite lstrip_blank by exact Hb. reflexivity.
  - apply rstrip_snoc_space, Hx.
Qed.

Lemma lacks_log_text (c : ascii) (folders : list string) :
  Ascii.eqb pystr.LF c = false ->
  forallb (lacks c) folders = true -> lacks c (log_text folders) = true.
Proof.
  intros Hc. induction folders as [|f fs IH]; simpl; intros H; [reflexivity|].
  apply andb_true_iff in H as [Hf Hfs].
  rewrite lacks_app, Hf. cbn [lacks andb]. rewrite Hc. apply IH, Hfs.
Qed.

(** ** White space at the ends *)

Lemma isspace_white (c : ascii) : pystr.isspace c = white c.
Proof. destruct c as [[] [] [] [] [] [] [] []]; reflexivity. Qed.

Lemma blank_all_white (s : string) : blank s = all_white s.
Proof.
  induction s as [|c r IH]; simpl; [reflexivity|].
  rewrite isspace_white, IH. reflexivity.
Qed.

(** What [lstrip] cuts off is white space, and what it leaves does not
    start with one. *)
Lemma lstrip_trimmed (s : string) :
  exists front,
    s = front +:+ pystr.lstrip s
    /\ all_white front = true
    /\ forall c r, pystr.lstrip s = String c r -> white c = false.
Proof.
  induction s as [|c r IH].
  - exists EmptyString. repeat split. discriminate.
  - cbn [pystr.lstrip]. destruct (pystr.isspace c) eqn:Hc.
    + destruct IH as (front & E & W & F). exists (String c front).
      split; [|split; [|exact F]].
      * change (String c r = String c (front +:+ pystr.lstrip r)). f_equal. exact E.
      * cbn [all_white]. rewrite <- isspace_white, Hc. exact W.
    + exists EmptyString. split; [reflexivity|]. split; [reflexivity|].
      intros c0 r0 H. injection H as <- _. rewrite <- isspace_white. exact Hc.
Qed.

Lemma snoc_inv (r : string) (c d : ascii) :
  String d EmptyString = r +:+ String c EmptyString -> r = EmptyString /\ c = d.
Proof.
  destruct r as [|a [|b r']]; simpl; intros H; try discriminate.
  injection H as ->. auto.
Qed.

(** The same at the other end, for [rstrip]. *)
Lemma rstrip_trimmed (s : string) :
  exists back,
    s = pystr.rstrip s +:+ back
    /\ all_white back = true
    /\ forall r c, pystr.rstrip s = r +:+ String c EmptyString -> white c = false.
Proof.
  induction s as [|c r IH].
  - exists EmptyString. repeat split. intros [|a r] c H; discriminate.
  - destruct IH as (back & E & W & L). cbn [pystr.rstrip].
    destruct (pystr.rstrip r) as [|d t] eqn:Hr; rewrite ?Hr in E, L.
    + change (r = back) in E. subst back. destruct (pystr.isspace c) eqn:Hc.
      * exists (String c r). split; [reflexivity|]. split.
        -- cbn [all_white]. rewrite <- isspace_white, Hc. exact W.
        -- intros [|a r0] c0 H; discriminate.
      * exists r. split; [reflexivity|]. split; [exact W|].
        intros r0 c0 H. apply snoc_inv in H as [_ ->].
        rewrite <- isspace_white. exact Hc.
    + exists back. split; [|split; [exact W|]].
      * change (String c r = String c (String d t +:+ back)). f_equal. exact E.
      * intros [|a r0] c0 H.
        -- discriminate.
        -- change (String c (String d t) = String a (r0 +:+ String c0 EmptyString)) in H.
           injection H as _ H. exact (L r0 c0 H).
Qed.

Lemma rstrip_first (s : string) (c : ascii) (r : string) :
  pystr.rstrip s = String c r -> exists r', s = String c r'.
Proof.
  destruct s as [|d t]; [discriminate|]. cbn [pystr.rstrip].
  destruct (pystr.rstrip t); [destruct (pystr.isspace d); [discriminate|]|];
    intros H; injection H as -> _; eauto.
Qed.

(** [strip] trims. *)
Lemma strip_trimmed (s : string) : trimmed s (pystr.strip s).
Proof.
  unfold pystr.strip.
  destruct (lstrip_trimmed s) as (front & E & W & F).
  destruct (rstrip_trimmed (pystr.lstrip s)) as (back & E' & W' & L).
  exists front, back. split; [|split; [exact W | split; [exact W' | split; [|exact L]]]].
  - rewrite <- E'. exact E.
  - intros c r H. destruct (rstrip_first _ _ _ H) as [r' Hr']. exact (F c r' Hr').
Qed.

Lemma rstrip_last (r : string) (c : ascii) :
  white (last_of c r) = false -> pystr.rstrip (String c r) = String c r.
Proof.
  revert c. induction r as [|d r' IH]; intros c H.
  - cbn [last_of] in H. cbn [pystr.rstrip]. rewrite isspace_white, H. reflexivity.
  - cbn [last_of] in H. specialize (IH d H).
    change (pystr.rstrip (String c (String d r')))
      with (match pystr.rstrip (String d r') with
            | EmptyString =>
                if pystr.isspace c then EmptyString else String c EmptyString
            | String a s0 => String c (String a s0)
            end).
    rewrite IH. reflexivity.
Qed.

(** A clean path is what [strip] leaves of it. *)
Lemma clean_path_strip (path : string) :
  clean_path path = true ->
  pystr.strip path = path /\ pystr.nonempty path = true
  /\ lacks pystr.CR path = true /\ lacks pystr.LF path = true.
Proof.
  unfold clean_path. intros H.
  repeat (apply andb_true_iff in H as [H ?]).
  destruct path as [|c r]; [discriminate|].
  apply andb_true_iff in H as [Hc Hl].
  apply negb_true_iff in Hc. apply negb_true_iff in Hl.
  split; [|auto]. unfold pystr.strip. cbn [pystr.lstrip].
  rewrite isspace_white, Hc. apply rstrip_last, Hl.
Qed.

(** Reading back what was written gives the candidate list itself, when
    the candidates are clean paths. *)
Lemma read_folders_log_text (folders : list string) :
  forallb clean_path folders = true ->
  read_folders (log_text folders) = folders.
Proof.
  intros H. unfold read_folders, file_lines.
  rewrite universal_newlines_id.
  2:{ apply lacks_log_text; [reflexivity|].
      apply forallb_forall. intros f Hf.
      apply (proj1 (forallb_forall _ _) H) in Hf.
      apply clean_path_strip in Hf. tauto. }
  induction folders as [|f fs IH]; [reflexivity|].
  simpl in H. apply andb_true_iff in H as [Hf Hfs].
  destruct (clean_path_strip f Hf) as (Hs & Hn & _ & Hlf).
  cbn [log_text]. rewrite keepends_line by assumption.
  cbn [List.filter map].
  rewrite strip_snoc_space by reflexivity.
  rewrite Hs, Hn.
  cbn [map]. rewrite strip_snoc_space by reflexivity.
  rewrite IH by exact Hfs. congruence.
Qed.

(** ** The loop of Phase 2 *)

Lemma map_snd_enumerate {A} (xs : list A) (start : nat) :
  map snd (enumerate xs start) = xs.
Proof.
  revert start. induction xs as [|x xs IH]; intros start; simpl; [reflexivity|].
  rewrite IH. reflexivity.
Qed.

Lemma length_enumerate {A} (xs : list A) (start : nat) :
  length (enumerate xs start) = length xs.
Proof.
  revert start. induction xs as [|x xs IH]; intros start; simpl; [reflexivity|].
  rewrite IH. reflexivity.
Qed.

Lemma enumerate_lookup {A} (xs : list A) (start k : nat) (x : A) :
  xs !! k = Some x -> enumerate xs start !! k = Some ((start + k)%nat, x).
Proof.
  revert start k. induction xs as [|y ys IH]; intros start k H; [discriminate|].
  destruct k as [|k]; simpl in *.
  - injection H as ->. rewrite Nat.add_0_r. reflexivity.
  - rewrite (IH (S start) k H). f_equal. f_equal. lia.
Qed.

Lemma take_enumerate {A} (xs : list A) (start k : nat) :
  map snd (take k (enumerate xs start)) = take k xs.
Proof. rewrite <- firstn_map, map_snd_enumerate. reflexivity. Qed.

Section PipelineFacts.

Variable rmtree : gmap string string -> string -> gmap string string * option string.
Variable open_a_error : sys -> option string.

Lemma disk_after_app (a b : list string) (disk : gmap string string) :
  disk_after rmtree (a ++ b) disk = disk_after rmtree b (disk_after rmtree a disk).
Proof. unfold disk_after. apply fold_left_app. Qed.

Lemma batch_errors_app (a b : list string) (disk : gmap string string) :
  batch_errors rmtree (a ++ b) disk
  = batch_errors rmtree a disk ++ batch_errors rmtree b (disk_after rmtree a disk).
Proof.
  revert disk. induction a as [|f fs IH]; intros disk; [reflexivity|].
  cbn [app batch_errors]. rewrite IH, <- app_assoc. reflexivity.
Qed.

(** A removal that leaves a file alone leaves it alone over a batch. *)
Lemma disk_after_frame (folders : list string) (disk : gmap string string)
    (path : string) :
  (forall disk folder,
      In folder folders -> (rmtree disk folder).1 !! path = disk !! path) ->
  disk_after rmtree folders disk !! path = disk !! path.
Proof.
  revert disk. induction folders as [|f fs IH]; intros disk H; [reflexivity|].
  change (disk_after rmtree fs (rmtree disk f).1 !! path = disk !! path).
  rewrite IH.
  - apply H. left. reflexivity.
  - intros d folder Hin. apply H. right. exact Hin.
Qed.



Lemma rounds_done_nil (total : nat) (st : sys) : rounds_done rmtree total [] st st.
Proof. unfold rounds_done. simpl. rewrite !app_nil_r. auto. Qed.

Lemma rounds_done_app (total : nat) (a b : list (nat * string)) (st st1 st2 : sys) :
  rounds_done rmtree total a st st1 -> rounds_done rmtree total b st1 st2 ->
  rounds_done rmtree total (a ++ b) st st2.
Proof.
  intros (R1 & F1 & M1 & O1 & D1) (R2 & F2 & M2 & O2 & D2).
  unfold rounds_done.
  rewrite map_app, flat_map_app, disk_after_app, batch_errors_app.
  rewrite R2, R1, F2, F1, M2, M1, O2, O1, D2, D1, F1, <- !app_assoc. auto.
Qed.

(** What one round does. *)
Lemma delete_round_run (total i : nat) (folder : string) (st : sys) :
  delete_round rmtree open_a_error total (i, folder) tt st
  = match (rmtree (files st) folder).2 with
    | Some e =>
        match open_a_error (attempt rmtree folder st) with
        | Some e' => Raises e' (attempt rmtree folder st)
        | None =>
            Returns tt
              (show_progress total i folder
                 (on_process (write_debug (delete_error folder e))
                             (attempt rmtree folder st)))
        end
    | None => Returns tt (show_progress total i folder (attempt rmtree folder st))
    end.
Proof.
  unfold delete_round, bind, remove_tree, write_debug_line, modify, ret, attempt,
    delete_error.
  destruct (rmtree (files st) folder) as [disk [e|]]; cbn [fst snd]; [|reflexivity].
  destruct (open_a_error _); reflexivity.
Qed.

(** A round that returns is a round done. *)
Lemma delete_round_done (total i : nat) (folder : string) (st st' : sys) :
  delete_round rmtree open_a_error total (i, folder) tt st = Returns tt st' ->
  rounds_done rmtree total [(i, folder)] st st'.
Proof.
  rewrite delete_round_run. unfold rounds_done, round_output, show_progress.
  cbn [map flat_map snd fst disk_after fold_left batch_errors].
  destruct (rmtree (files st) folder) as [disk [e|]] eqn:Hrm; cbn [fst snd].
  - destruct (open_a_error _); [discriminate|]. intros H. injection H as <-.
    unfold attempt. rewrite Hrm.
    destruct (1 <? i)%nat; simpl; rewrite ?app_nil_r, <- ?app_assoc; auto.
  - intros H. injection H as <-. unfold attempt. rewrite Hrm.
    destruct (1 <? i)%nat; simpl; rewrite ?app_nil_r, <- ?app_assoc; auto.
Qed.

(** What the loop does: it returns with every round done, or it raises in
    the handler of the first failed removal whose line the debug log does
    not take, with the rounds before it done. *)
Lemma delete_rounds_outcome (total : nat) (items : list (nat * string)) (st : sys) :
  match delete_rounds rmtree open_a_error total items st with
  | Returns _ st' => rounds_done rmtree total items st st'
  | Raises e' st' =>
      exists k item e stk,
        items !! k = Some item
        /\ rounds_done rmtree total (take k items) st stk
        /\ (rmtree (files stk) item.2).2 = Some e
        /\ st' = attempt rmtree item.2 stk
        /\ open_a_error st' = Some e'
  end.
Proof.
  revert st. induction items as [|[i f] items IH]; intros st.
  - apply rounds_done_nil.
  - unfold delete_rounds. cbn [for_each]. unfold bind.
    pose proof (delete_round_done total i f st) as Hdone.
    pose proof (delete_round_run total i f st) as Hrun.
    destruct (delete_round rmtree open_a_error total (i, f) tt st)
      as [[] st1 | e' st1].
    + specialize (Hdone st1 eq_refl). specialize (IH st1).
      fold (delete_rounds rmtree open_a_error total items).
      destruct (delete_rounds rmtree open_a_error total items st1)
        as [[] st2 | e2 st2].
      * exact (rounds_done_app total [(i, f)] items st st1 st2 Hdone IH).
      * destruct IH as (k & item & e & stk & Hk & Hd & He & Hst & Ho).
        exists (S k), item, e, stk. split; [exact Hk|]. split; [|auto].
        exact (rounds_done_app total [(i, f)] (take k items) st st1 stk Hdone Hd).
    + exists O, (i, f). cbn [snd].
      destruct (rmtree (files st) f) as [disk [e|]] eqn:Hrm; cbn [snd] in Hrun;
        [|discriminate].
      destruct (open_a_error (attempt rmtree f st)) as [e0|] eqn:Ho; [|discriminate].
      injection Hrun as -> ->.
      exists e, st. split; [reflexivity|]. split; [apply rounds_done_nil|].
      rewrite Hrm. auto.
Qed.



(** What [confirm_and_delete_folders] does with a work list. *)
Lemma confirm_and_delete_folders_run (logs_path : string) (st : sys)
    (content : string) :
  files st !! deletion_log logs_path = Some content ->
  read_folders content <> [] ->
  let folders := read_folders content in
  confirm_and_delete_folders rmtree open_a_error logs_path st
  = match delete_rounds rmtree open_a_error (length folders)
                        (enumerate folders 1) (deletion_started folders st) with
    | Returns _ st' => Returns tt (show_done st')
    | Raises e st' => Raises e st'
    end.
Proof.
  intros Hfile Hne. cbv zeta. unfold confirm_and_delete_folders.
  rewrite Hfile.
  destruct (read_folders content) as [|f fs] eqn:E; [congruence|].
  unfold bind, modify, deletion_started.
  destruct (delete_rounds _ _ _ _ _); reflexivity.
Qed.

Lemma confirm_and_delete_folders_none (logs_path : string) (st : sys) :
  work_list logs_path st = [] ->
  confirm_and_delete_folders rmtree open_a_error logs_path st = Returns tt st.
Proof.
  unfold work_list, confirm_and_delete_folders.
  destruct (files st !! deletion_log logs_path) as [content|]; [|reflexivity].
  intros ->. reflexivity.
Qed.

End PipelineFacts.

Lemma enumerate_lookup_snd {A} (xs : list A) (start k : nat) (item : nat * A) :
  enumerate xs start !! k = Some item -> xs !! k = Some item.2.
Proof.
  intros H. rewrite <- (map_snd_enumerate xs start).
  rewrite list_lookup_fmap, H. reflexivity.
Qed.


(** The state in which the loop stands after [k] rounds at most: some
    [j <= k] rounds have handed their path to [shutil.rmtree]. *)
Lemma after_rounds_reached
    (rmtree : gmap string string -> string -> gmap string string * option string)
    (open_a_error : sys -> option string)
    (folders : list string) (k : nat) (st : sys) :
  exists j,
    (j <= k)%nat
    /\ removals (after_rounds rmtree open_a_error folders k st)
       = removals st ++ take j folders
    /\ files (after_rounds rmtree open_a_error folders k st)
       = disk_after rmtree (take j folders) (files st).
Proof.
  unfold after_rounds.
  pose proof (delete_rounds_outcome rmtree open_a_error (length folders)
                (take k (enumerate folders 1)) (deletion_started folders st)) as H.
  destruct (delete_rounds _ _ _ _ _) as [[] st' | e' st']; cbn [state_of].
  - destruct H as (R & F & _). rewrite take_enumerate in R, F.
    exists k. split; [lia|]. split; [exact R | exact F].
  - destruct H as (i & item & e & stk & Hi & (R & F & _) & _ & -> & _).
    assert (Hlt : (i < k)%nat).
    { apply lookup_lt_Some in Hi. rewrite length_take in Hi. lia. }
    rewrite take_take, Nat.min_l, take_enumerate in R, F by lia.
    rewrite lookup_take_lt in Hi by exact Hlt.
    apply enumerate_lookup_snd in Hi.
    exists (S i). split; [lia|]. unfold attempt. cbn [removals files].
    rewrite (take_S_r _ _ _ Hi), R, F, <- app_assoc.
    split; [reflexivity|].
    unfold disk_after. rewrite fold_left_app. reflexivity.
Qed.











(** [rmtree_all] touches nothing outside the folder it is given. *)
Lemma rmtree_all_frame (disk : gmap string string) (folder path : string) :
  below folder path = false ->
  (rmtree_all disk folder).1 !! path = disk !! path.
Proof.
  intros H. unfold rmtree_all. simpl.
  destruct (disk !! path) as [v|] eqn:E.
  - apply map_lookup_filter_Some. split; [exact E | exact H].
  - apply map_lookup_filter_None. left. exact E.
Qed.

(** C1, as the code has it.  In a run with candidates, Phase 1 writes the
    log (each candidate followed by a line end, in list order) before any
    removal is attempted, and a failed write ends the run with nothing
    removed.  Phase 2 works from the log as read back from disk: whatever
    way it ends, the removals it has attempted are the first paths read
    from the file, in order, and all of them when it returns; these paths
    are the candidates themselves when the candidates are clean paths.  As
    long as no removal of the batch touches the log file, the log on disk
    is the text Phase 1 wrote after every round of Phase 2 and at its end,
    also when Phase 2 ends with an exception. *)
Theorem checkpoint_before_delete
    (rmtree : gmap string string -> string -> gmap string string * option string)
    (open_w_error : string -> option string)
    (open_a_error : sys -> option string)
    (logs_path : string) (st : sys) :
  let log := deletion_log logs_path in
  let candidates := folders_marked_for_deletion (process st) in
  candidates <> [] ->
  (forall e,
      open_w_error log = Some e ->
      finalize_purge_log_and_delete rmtree open_w_error open_a_error logs_path st
      = Raises e st)
  /\ (open_w_error log = None ->
      exists st1,
        write_folders_to_delete_log open_w_error logs_path st = Returns tt st1
        /\ files st1 !! log = Some (log_text candidates)
        /\ removals st1 = removals st
        /\ finalize_purge_log_and_delete rmtree open_w_error open_a_error logs_path st
           = confirm_and_delete_folders rmtree open_a_error logs_path st1
        /\ let folders := read_folders (log_text candidates) in
           let phase2 := confirm_and_delete_folders rmtree open_a_error logs_path st1 in
           (forall k,
               exists j,
                 (j <= k)%nat
                 /\ removals (after_rounds rmtree open_a_error folders k st1)
                    = removals st ++ take j folders)
           /\ match phase2 with
              | Returns _ final => removals final = removals st ++ folders
              | Raises _ final =>
                  exists j, removals final = removals st ++ take j folders
              end
           /\ (forallb clean_path candidates = true -> folders = candidates)
           /\ ((forall disk folder,
                   In folder folders -> (rmtree disk folder).1 !! log = disk !! log) ->
               (forall k,
                   files (after_rounds rmtree open_a_error folders k st1) !! log
                   = Some (log_text candidates))
               /\ files (state_of phase2) !! log = Some (log_text candidates))).
Proof.
  intros log candidates Hne. split.
  - intros e He. unfold finalize_purge_log_and_delete.
    fold candidates. destruct candidates as [|c cs]; [congruence|].
    unfold bind, write_folders_to_delete_log. fold log. rewrite He. reflexivity.
  - intros Hw.
    set (st1 := on_process
                  (write_console [Lit "Wrote list of folders to delete: "; Lit log]
                                 "OK" 1)
                  (mkSys (<[log := log_text candidates]> (files st)) (removals st)
                         (process st))).
    assert (Hwrite : write_folders_to_delete_log open_w_error logs_path st
                     = Returns tt st1).
    { unfold write_folders_to_delete_log. fold log. rewrite Hw. reflexivity. }
    assert (Hfile : files st1 !! log = Some (log_text candidates)).
    { unfold st1. simpl. apply lookup_insert_eq. }
    exists st1. split; [exact Hwrite|]. split; [exact Hfile|].
    split; [reflexivity|]. split.
    { unfold finalize_purge_log_and_delete. fold candidates.
      destruct candidates as [|c cs] eqn:Ec; [congruence|].
      unfold bind. rewrite Hwrite. reflexivity. }
    intros folders phase2.
    assert (Hreach : forall k,
               exists j,
                 (j <= k)%nat
                 /\ removals (after_rounds rmtree open_a_error folders k st1)
                    = removals st ++ take j folders
                 /\ files (after_rounds rmtree open_a_error folders k st1)
                    = disk_after rmtree (take j folders) (files st1)).
    { intros k. apply (after_rounds_reached rmtree open_a_error folders k st1). }
    assert (Hend : exists j,
               removals (state_of phase2) = removals st ++ take j folders
               /\ files (state_of phase2)
                  = disk_after rmtree (take j folders) (files st1)
               /\ match phase2 with
                  | Returns _ _ => take j folders = folders
                  | Raises _ _ => True
                  end).
    { unfold phase2. destruct folders as [|f fs] eqn:Ef.
      - rewrite confirm_and_delete_folders_none.
        2:{ unfold work_list. fold log. rewrite Hfile. exact Ef. }
        exists O. simpl. rewrite app_nil_r. auto.
      - rewrite (confirm_and_delete_folders_run rmtree open_a_error logs_path st1
                   _ Hfile) by (fold folders; rewrite Ef; discriminate).
        fold folders. rewrite Ef.
        destruct (after_rounds_reached rmtree open_a_error (f :: fs)
                    (length (f :: fs)) st1) as (j & _ & R & F).
        unfold after_rounds in R, F.
        rewrite take_ge in R, F by (rewrite length_enumerate; reflexivity).
        pose proof (delete_rounds_outcome rmtree open_a_error (length (f :: fs))
                      (enumerate (f :: fs) 1) (deletion_started (f :: fs) st1)) as H.
        destruct (delete_rounds _ _ _ _ _) as [[] st' | e' st']; cbn [state_of] in *.
        + destruct H as (R' & F' & _). rewrite map_snd_enumerate in R', F'.
          exists (length (f :: fs)). rewrite take_ge by reflexivity.
          unfold show_done. cbn [removals files on_process]. auto.
        + exists j. auto. }
    split; [|split; [|split]].
    + intros k. destruct (Hreach k) as (j & Hj & R & _). eauto.
    + destruct Hend as (j & R & _ & Hall). destruct phase2; cbn [state_of] in R.
      * rewrite R, Hall. reflexivity.
      * eauto.
    + apply read_folders_log_text.
    + intros Hframe.
      assert (Hkeep : forall j,
                 disk_after rmtree (take j folders) (files st1) !! log
                 = Some (log_text candidates)).
      { intros j. rewrite disk_after_frame; [exact Hfile|].
        intros disk folder Hin. apply Hframe.
        rewrite <- (take_drop j folders). apply in_app_iff. left. exact Hin. }
      split.
      * intros k. destruct (Hreach k) as (j & _ & _ & ->). apply Hkeep.
      * destruct Hend as (j & _ & -> & _). apply Hkeep.
Qed.

(** On [example_sys] with the tool in [C:\triage] no candidate holds the
    log: the log survives the batch, also the batch that ends in the
    handler of its first removal because the debug log is locked. *)
Lemma checkpoint_before_delete_witness :
  let log := deletion_log "C:\triage\logs" in
  folders_marked_for_deletion (process example_sys) <> []
  /\ no_error log = None
  /\ forallb clean_path (folders_marked_for_deletion (process example_sys)) = true
  /\ exists st1,
      write_folders_to_delete_log no_error "C:\triage\logs" example_sys
      = Returns tt st1
      /\ read_folders (log_text ["E:\DCIM\EMPTY"; "E:\DCIM\OLD"])
         = ["E:\DCIM\EMPTY"; "E:\DCIM\OLD"]
      /\ files (state_of (confirm_and_delete_folders rmtree_all debug_log_locked
                                                     "C:\triage\logs" st1)) !! log
         = Some (log_text ["E:\DCIM\EMPTY"; "E:\DCIM\OLD"]).
Proof.
  intros log.
  assert (Hne : folders_marked_for_deletion (process example_sys) <> [])
    by discriminate.
  assert (Hclean : forallb clean_path
                     (folders_marked_for_deletion (process example_sys)) = true)
    by reflexivity.
  split; [exact Hne|]. split; [reflexivity|]. split; [exact Hclean|].
  destruct (checkpoint_before_delete rmtree_all no_error debug_log_locked
              "C:\triage\logs" example_sys Hne) as [_ H].
  destruct (H eq_refl) as (st1 & Hwrite & _ & _ & _ & _ & _ & Hread & Hframe).
  exists st1. split; [exact Hwrite|]. split; [exact (Hread Hclean)|].
  apply Hframe. intros disk folder Hin. apply rmtree_all_frame.
  rewrite (Hread Hclean) in Hin.
  destruct Hin as [<- | [<- | []]]; reflexivity.
Defined.

(** C1 as stated fails when a candidate holds the log file.  With the
    tool on the drive it purges, the walk marks [E:\triage\logs] (no media,
    no subfolder): Phase 1 writes the log into it, Phase 2 reads the log
    and removes the directory, and the log is gone from the disk.  And
    what is read back is not the candidate when the candidate ends in white
    space: for a directory whose name ends in a no-break space, the path
    read from the log is that of another directory. *)
Lemma log_removed_by_own_batch :
  let log := deletion_log "E:\triage\logs" in
  folders_marked_for_deletion (process example_sys_portable) = ["E:\triage\logs"]
  /\ (exists st1 st2,
        write_folders_to_delete_log no_error "E:\triage\logs" example_sys_portable
        = Returns tt st1
        /\ files st1 !! log = Some (log_text ["E:\triage\logs"])
        /\ finalize_purge_log_and_delete rmtree_all no_error debug_log_opens
                                         "E:\triage\logs" example_sys_portable
           = Returns tt st2
        /\ removals st2 = ["E:\triage\logs"]
        /\ files st2 !! log = None)
  /\ read_folders (log_text ["E:\DCIM\OLD" +:+ String (pystr.chr 160) EmptyString])
     = ["E:\DCIM\OLD"].
Proof.
  intros log. split; [reflexivity|]. split; [|reflexivity].
  destruct (write_folders_to_delete_log no_error "E:\triage\logs"
                                        example_sys_portable)
    as [[] st1 | e st1] eqn:E1; vm_compute in E1; [|discriminate].
  destruct (finalize_purge_log_and_delete rmtree_all no_error debug_log_opens
                                          "E:\triage\logs" example_sys_portable)
    as [[] st2 | e st2] eqn:E2; vm_compute in E2; [|discriminate].
  injection E1 as <-. injection E2 as <-.
  eexists. eexists. split; [reflexivity|]. split; [reflexivity|].
  split; [reflexivity|]. split; reflexivity.
Qed.

(* ===================================================================== *)
(** * Drive Registry: what a run returns, raises and touches             *)
(* ===================================================================== *)

(** One round of the loop, case by case. *)
Lemma detect_drive_exact (drive : string) (vd : list drive_info) (h : host) :
  match detect_drive drive vd h with
  | Raises e h' =>
      e = "AttributeError" /\ non_object h drive = true
      /\ same_machine h h'
      /\ descriptors h' = descriptors h /\ written h' = written h
  | Returns vd' h' =>
      non_object h drive = false
      /\ same_machine h h'
      /\ (forall q, q <> descriptor_path drive ->
                    descriptors h' !! q = descriptors h !! q)
      /\ if accepted h drive then
           (exists e, vd' = vd ++ [e] /\ drive_path e = drive /\ registered h' e)
           /\ written h' = written h
                           ++ (if baptized h drive then [] else [descriptor_path drive])
           /\ (baptized h drive = true -> descriptors h' = descriptors h)
         else vd' = vd /\ descriptors h' = descriptors h /\ written h' = written h
  end.
Proof.
  pose proof (detect_drive_spec drive vd h) as Hspec. unfold wp in Hspec.
  unfold accepted, source_is_true, baptized, writable, non_object, descriptor_path.
  unfold detect_drive, bind, on_console, modify, gets, ret in *. simpl in *.
  destruct (descriptors h !! ntpath.join2 drive "drive.json")
    as [[data | e] | ] eqn:Hfile; simpl in *.
  2, 3: repeat split; reflexivity.
  destruct data as [ | b | z | zero | s | xs | data]; simpl in *;
    try (repeat split; reflexivity).
  destruct (is_True (dict_get data "source")) eqn:Hsource; simpl in *.
  2: repeat split; reflexivity.
  destruct (dict_has data "id") eqn:Hid; simpl in *.
  - destruct (dict_has data "name") eqn:Hname; simpl in *.
    + unfold complete. rewrite Hid, Hname. simpl.
      destruct Hspec as [_ [Hres | Hres]].
      * exfalso. apply (f_equal (@length _)) in Hres.
        rewrite length_app in Hres. simpl in Hres. lia.
      * repeat split; try reflexivity.
        -- exact Hres.
        -- rewrite app_nil_r. reflexivity.
    + unfold complete. rewrite Hid, Hname. simpl.
      unfold json_dump in *. simpl in *.
      destruct (open_w_error h (ntpath.join2 drive "drive.json")) as [e|] eqn:Hw;
        simpl in *.
      * repeat split; reflexivity.
      * destruct Hspec as [_ [Hres | Hres]].
        { exfalso. apply (f_equal (@length _)) in Hres.
          rewrite length_app in Hres. simpl in Hres. lia. }
        repeat split; try reflexivity; try exact Hres.
        -- intros q Hq. apply lookup_insert_ne. congruence.
        -- intros Hcontra. discriminate.
  - unfold complete. rewrite Hid. simpl.
    destruct (dict_has (dict_set data "id" (JStr (uuid_at h (uuids_drawn h)))) "name")
      eqn:Hname; simpl in *.
    + unfold json_dump in *. simpl in *.
      destruct (open_w_error h (ntpath.join2 drive "drive.json")) as [e|] eqn:Hw;
        simpl in *.
      * repeat split; reflexivity.
      * destruct Hspec as [_ [Hres | Hres]].
        { exfalso. apply (f_equal (@length _)) in Hres.
          rewrite length_app in Hres. simpl in Hres. lia. }
        repeat split; try reflexivity; try exact Hres.
        -- intros q Hq. apply lookup_insert_ne. congruence.
        -- intros Hcontra. discriminate.
    + unfold json_dump in *. simpl in *.
      destruct (open_w_error h (ntpath.join2 drive "drive.json")) as [e|] eqn:Hw;
        simpl in *.
      * repeat split; reflexivity.
      * destruct Hspec as [_ [Hres | Hres]].
        { exfalso. apply (f_equal (@length _)) in Hres.
          rewrite length_app in Hres. simpl in Hres. lia. }
        repeat split; try reflexivity; try exact Hres.
        -- intros q Hq. apply lookup_insert_ne. congruence.
        -- intros Hcontra. discriminate.
Qed.

Lemma descriptor_path_root (letter : ascii) :
  descriptor_path (drive_root letter)
  = String letter (String ":" (String "\" "drive.json")).
Proof.
  unfold descriptor_path, drive_root, ntpath.join2, ntpath.join_step.
  change (String letter ":\") with (String letter (String ntpath.colon "\")).
  rewrite splitdrive_letter. reflexivity.
Qed.

Lemma ascii_uppercase_NoDup : NoDup ascii_uppercase.
Proof. apply (bool_decide_unpack _). vm_compute. reflexivity. Qed.

Lemma removable_roots_paths_NoDup (h : host) :
  NoDup (map descriptor_path (removable_roots h)).
Proof.
  unfold removable_roots. rewrite map_map.
  assert (Hinj : Inj eq eq (fun letter => descriptor_path (drive_root letter))).
  { intros a b Hab. rewrite !descriptor_path_root in Hab. congruence. }
  apply (NoDup_fmap_2 _).
  apply NoDup_filter, ascii_uppercase_NoDup.
Qed.

(** What the loop over a list of roots with distinct descriptors does. *)
Lemma detect_loop_exact (roots : list string) :
  NoDup (map descriptor_path roots) ->
  forall (vd : list drive_info) (h : host),
    match for_each roots detect_drive vd h with
    | Raises e h' =>
        e = "AttributeError" /\ existsb (non_object h) roots = true
        /\ same_machine h h'
    | Returns vd' h' =>
        existsb (non_object h) roots = false
        /\ same_machine h h'
        /\ map drive_path vd' = map drive_path vd ++ List.filter (accepted h) roots
        /\ (forall q, ~ In q (map descriptor_path roots) ->
                      descriptors h' !! q = descriptors h !! q)
        /\ exists ws,
            written h' = written h ++ ws
            /\ ws = map descriptor_path
                        (List.filter (fun r => accepted h r && negb (baptized h r)) roots)
    end.
Proof.
  induction roots as [|r rs IH]; intros Hnd vd h.
  - simpl. repeat split; try reflexivity.
    + rewrite app_nil_r. reflexivity.
    + exists []. rewrite app_nil_r. auto.
  - simpl in Hnd. apply NoDup_cons in Hnd as [Hr Hrs].
    simpl for_each. unfold bind.
    pose proof (detect_drive_exact r vd h) as Hstep.
    destruct (detect_drive r vd h) as [vd1 h1 | e h1].
    + destruct Hstep as (Hno & Hsame & Hother & Hacc).
      assert (Hrest : forall r', In r' rs ->
                 descriptors h1 !! descriptor_path r' = descriptors h !! descriptor_path r').
      { intros r' Hr'. apply Hother. intros E. apply Hr.
        apply list_elem_of_In. rewrite <- E. apply in_map, Hr'. }
      assert (Hsame_fn : forall (f : host -> string -> bool),
                 (forall r', In r' rs -> f h1 r' = f h r') ->
                 List.filter (f h1) rs = List.filter (f h) rs
                 /\ existsb (f h1) rs = existsb (f h) rs).
      { intros f Hf. clear -Hf. induction rs as [|x xs IHx]; simpl; [auto|].
        rewrite (Hf x) by (left; reflexivity).
        destruct IHx as [-> ->]; [intros; apply Hf; right; assumption|]. auto. }
      destruct Hsame as (S1 & S2 & S3 & S4).
      assert (Hnon : forall r', In r' rs -> non_object h1 r' = non_object h r').
      { intros r' Hr'. unfold non_object. rewrite (Hrest r' Hr'). reflexivity. }
      assert (Hbap : forall r', In r' rs -> baptized h1 r' = baptized h r').
      { intros r' Hr'. unfold baptized. rewrite (Hrest r' Hr'). reflexivity. }
      assert (Hac : forall r', In r' rs -> accepted h1 r' = accepted h r').
      { intros r' Hr'. unfold accepted, source_is_true, writable.
        rewrite (Hbap r' Hr'), (Hrest r' Hr'), S2. reflexivity. }
      specialize (IH Hrs vd1 h1).
      destruct (for_each rs detect_drive vd1 h1) as [vd2 h2 | e h2].
      * destruct IH as (Hno2 & Hsame2 & Hpaths & Hother2 & ws2 & Hw2 & Hws2).
        simpl existsb. rewrite Hno. simpl.
        rewrite (proj2 (Hsame_fn non_object Hnon)) in Hno2.
        split; [exact Hno2|]. split.
        { destruct Hsame2 as (T1 & T2 & T3 & T4). repeat split; congruence. }
        split.
        { rewrite Hpaths. rewrite (proj1 (Hsame_fn accepted Hac)).
          simpl List.filter. destruct (accepted h r).
          - destruct Hacc as ((e & -> & He & _) & _).
            rewrite map_app. simpl. rewrite He, <- app_assoc. reflexivity.
          - destruct Hacc as (-> & _). reflexivity. }
        split.
        { intros q Hq. simpl in Hq. rewrite Hother2, Hother; [reflexivity| |];
            intros E; apply Hq; auto. }
        eexists. split; [|reflexivity].
        rewrite Hw2, Hws2. simpl List.filter.
        assert (Hf : List.filter (fun r0 => accepted h1 r0 && negb (baptized h1 r0)) rs
                     = List.filter (fun r0 => accepted h r0 && negb (baptized h r0)) rs).
        { apply (Hsame_fn (fun x r0 => accepted x r0 && negb (baptized x r0))).
          intros r' Hr'. rewrite (Hac r' Hr'), (Hbap r' Hr'). reflexivity. }
        rewrite Hf.
        destruct (accepted h r).
        -- destruct Hacc as (_ & -> & _). destruct (baptized h r); simpl;
             rewrite <- app_assoc; reflexivity.
        -- destruct Hacc as (_ & _ & ->). reflexivity.
      * destruct IH as (-> & Hex & Hsame2).
        split; [reflexivity|]. split.
        { simpl. rewrite <- (proj2 (Hsame_fn non_object Hnon)), Hex.
          apply orb_true_r. }
        destruct Hsame2 as (T1 & T2 & T3 & T4). repeat split; congruence.
    + destruct Hstep as (-> & Hno & Hsame & _).
      split; [reflexivity|]. split; [simpl; rewrite Hno; reflexivity | exact Hsame].
Qed.

(** The run of discovery as its loop over the removable roots. *)
Lemma detect_external_drives_loop (h : host) :
  exists h0,
    same_machine h h0
    /\ descriptors h0 = descriptors h /\ written h0 = written h
    /\ detect_external_drives h
       = for_each (removable_roots h) detect_drive [] h0.
Proof.
  unfold detect_external_drives, bind, on_console, modify, gets. simpl.
  fold (removable_roots h).
  destruct (removable_roots h) as [|r rs].
  - eexists. split; [|split; [|split]]; [| | |reflexivity]; try reflexivity.
    repeat split.
  - eexists. split; [|split; [|split]]; [| | |reflexivity]; try reflexivity.
    repeat split.
Qed.

Lemma filter_ext_in_roots (f g : string -> bool) (roots : list string) :
  (forall r, In r roots -> f r = g r) ->
  List.filter f roots = List.filter g roots /\ existsb f roots = existsb g roots.
Proof.
  intros H. induction roots as [|x xs IH]; simpl; [auto|].
  rewrite (H x) by (left; reflexivity).
  destruct IH as [-> ->]; [intros; apply H; right; assumption|]. auto.
Qed.

(** The whole run, in terms of the host it starts from. *)
Lemma detect_external_drives_exact (h : host) :
  match detect_external_drives h with
  | Raises e h' =>
      e = "AttributeError" /\ existsb (non_object h) (removable_roots h) = true
  | Returns ds h' =>
      existsb (non_object h) (removable_roots h) = false
      /\ map drive_path ds = List.filter (accepted h) (removable_roots h)
      /\ (forall q, ~ In q (map descriptor_path (removable_roots h)) ->
                    descriptors h' !! q = descriptors h !! q)
      /\ written h'
         = written h
           ++ map descriptor_path
                (List.filter (fun r => accepted h r && negb (baptized h r))
                             (removable_roots h))
  end.
Proof.
  destruct (detect_external_drives_loop h) as (h0 & (S1 & S2 & S3 & S4) & Hd & Hw & ->).
  pose proof (detect_loop_exact (removable_roots h)
                (removable_roots_paths_NoDup h) [] h0) as Hloop.
  assert (Hnon : forall r, non_object h0 r = non_object h r).
  { intros r. unfold non_object. rewrite Hd. reflexivity. }
  assert (Hbap : forall r, baptized h0 r = baptized h r).
  { intros r. unfold baptized. rewrite Hd. reflexivity. }
  assert (Hacc : forall r, accepted h0 r = accepted h r).
  { intros r. unfold accepted, source_is_true, writable.
    rewrite Hbap, Hd, S2. reflexivity. }
  destruct (for_each (removable_roots h) detect_drive [] h0) as [ds h' | e h'].
  - destruct Hloop as (Hno & _ & Hpaths & Hother & ws & Hws & ->).
    rewrite (proj2 (filter_ext_in_roots _ _ _ (fun r _ => Hnon r))) in Hno.
    rewrite (proj1 (filter_ext_in_roots _ _ _ (fun r _ => Hacc r))) in Hpaths.
    split; [exact Hno|]. split; [exact Hpaths|]. split.
    + intros q Hq. rewrite Hother, Hd by exact Hq. reflexivity.
    + rewrite Hws, Hw. f_equal. f_equal.
      apply filter_ext_in_roots. intros r _. rewrite Hacc, Hbap. reflexivity.
  - destruct Hloop as (-> & Hex & _). split; [reflexivity|].
    rewrite <- Hex. symmetry. apply filter_ext_in_roots. intros r _. apply Hnon.
Qed.

(** X1.  Discovery raises exactly when the descriptor of some removable
    volume parses to something that is not an object (a list, a string, a
    number, [null]); the exception is the uncaught [AttributeError] of
    [data.get], and no drive list is returned, not even the drives found
    before.  Every other trouble with a descriptor (missing, unreadable,
    not eligible, not writable) lets the run return. *)
Theorem discovery_raises_on_non_object (h : host) :
  match detect_external_drives h with
  | Raises e _ =>
      e = "AttributeError" /\ existsb (non_object h) (removable_roots h) = true
  | Returns _ _ => existsb (non_object h) (removable_roots h) = false
  end.
Proof.
  pose proof (detect_external_drives_exact h) as H.
  destruct (detect_external_drives h); tauto.
Qed.

(** X2.  When discovery returns, the drives it returns are the removable
    volumes, in the order of their letters and each once, whose descriptor
    is an object with [source] true and which either hold [id] and [name]
    already or can be written back.  A volume that needs baptizing and
    cannot be written is dropped; one that is baptized is returned even on
    a read-only volume. *)
Theorem discovered_paths (h : host) (drives : list drive_info) (h' : host) :
  detect_external_drives h = Returns drives h' ->
  map drive_path drives = List.filter (accepted h) (removable_roots h)
  /\ NoDup (map drive_path drives).
Proof.
  intros Hrun. pose proof (detect_external_drives_exact h) as H.
  rewrite Hrun in H. destruct H as (_ & Hpaths & _).
  split; [exact Hpaths|]. rewrite Hpaths.
  apply NoDup_ListNoDup, List.NoDup_filter.
  pose proof (removable_roots_paths_NoDup h) as Hnd.
  apply NoDup_ListNoDup in Hnd. apply List.NoDup_map_inv in Hnd. exact Hnd.
Qed.

(** In [example_host] discovery returns [E:\] and [G:\]. *)
Lemma discovered_paths_witness :
  exists drives h',
    detect_external_drives example_host = Returns drives h'
    /\ map drive_path drives
       = List.filter (accepted example_host) (removable_roots example_host)
    /\ NoDup (map drive_path drives).
Proof.
  destruct (detect_external_drives example_host) as [drives h' | e h'] eqn:Hrun.
  - exists drives, h'. split; [reflexivity|].
    apply (discovered_paths example_host drives h' Hrun).
  - vm_compute in Hrun. discriminate.
Defined.

(** X3.  When discovery returns, the files it has written are the
    descriptors of the accepted volumes that lacked [id] or [name], one
    write each, in letter order; no file that is not the [drive.json] of a
    removable volume is changed. *)
Theorem discovery_writes (h : host) (drives : list drive_info) (h' : host) :
  detect_external_drives h = Returns drives h' ->
  written h'
  = written h
    ++ map descriptor_path
         (List.filter (fun r => accepted h r && negb (baptized h r))
                      (removable_roots h))
  /\ forall q, ~ In q (map descriptor_path (removable_roots h)) ->
               descriptors h' !! q = descriptors h !! q.
Proof.
  intros Hrun. pose proof (detect_external_drives_exact h) as H.
  rewrite Hrun in H. destruct H as (_ & _ & Hother & Hw). auto.
Qed.

(** In [example_host] only the descriptor of [E:] is written. *)
Lemma discovery_writes_witness :
  exists drives h',
    detect_external_drives example_host = Returns drives h'
    /\ written h'
       = written example_host
         ++ map descriptor_path
              (List.filter (fun r => accepted example_host r
                                     && negb (baptized example_host r))
                           (removable_roots example_host)).
Proof.
  destruct (detect_external_drives example_host) as [drives h' | e h'] eqn:Hrun.
  - exists drives, h'. split; [reflexivity|].
    apply (discovery_writes example_host drives h' Hrun).
  - vm_compute in Hrun. discriminate.
Defined.

Lemma registered_determines (h : host) (d d' : drive_info) :
  registered h d -> registered h d' -> drive_path d = drive_path d' -> d = d'.
Proof.
  intros (F & _ & _ & I & N) (F' & _ & _ & I' & N') Hp.
  rewrite Hp, F' in F. injection F as Hj.
  destruct d as [p i n j], d' as [p' i' n' j']. simpl in *. subst. reflexivity.
Qed.

Lemma registered_lists_equal (h : host) (ds ds' : list drive_info) :
  Forall (registered h) ds -> Forall (registered h) ds' ->
  map drive_path ds = map drive_path ds' -> ds = ds'.
Proof.
  intros H. revert ds'. induction H as [|d ds Hd _ IH]; intros ds' H' Hmap.
  - destruct ds'; [reflexivity | discriminate].
  - destruct H' as [|d' ds' Hd' Hds']; [discriminate|].
    simpl in Hmap. injection Hmap as Hp Hrest.
    f_equal; [eapply registered_determines; eassumption | apply IH; assumption].
Qed.

Lemma registered_same_descriptors (h h' : host) (d : drive_info) :
  descriptors h' = descriptors h -> registered h d -> registered h' d.
Proof. unfold registered. intros ->. tauto. Qed.

(** What a run leaves at an accepted root, and at one that is not. *)
Lemma accepted_after_run (h : host) (drives : list drive_info) (h' : host)
    (r : string) :
  detect_external_drives h = Returns drives h' ->
  In r (removable_roots h) ->
  accepted h' r = accepted h r
  /\ (accepted h r = true -> baptized h' r = true)
  /\ non_object h' r = false.
Proof.
  intros Hrun Hr.
  pose proof (evolves_state_of h) as Hev. rewrite Hrun in Hev. simpl in Hev.
  pose proof (detect_external_drives_exact h) as Hex. rewrite Hrun in Hex.
  destruct Hex as (Hno & _ & _ & Hw).
  assert (Hnon : non_object h r = false).
  { destruct (non_object h r) eqn:E; [|reflexivity].
    rewrite <- Hno. symmetry. apply existsb_exists. eauto. }
  destruct Hev as (_ & Hopen & _ & _ & ws & Hws & Hsame & Hnew).
  rewrite Hw in Hws. apply app_inv_head in Hws. subst ws.
  destruct (decide (descriptor_path r
                    ∈ map descriptor_path
                        (List.filter (fun r0 => accepted h r0 && negb (baptized h r0))
                                     (removable_roots h)))) as [Hin | Hout].
  - destruct (Hnew _ Hin) as (data & extra & E & E' & P & C & C' & T).
    unfold accepted, source_is_true, baptized, writable, non_object.
    rewrite E, E', C, C', T, Hopen.
    rewrite (provisioned_other _ _ "source" P), T by discriminate.
    simpl. repeat split; try reflexivity.
    destruct (open_w_error h (descriptor_path r)) eqn:Eo; [|reflexivity].
    exfalso. apply list_elem_of_In, in_map_iff in Hin as (r' & Hp & Hr').
    apply List.filter_In in Hr' as [Hr'in Hr'].
    unfold accepted, source_is_true, baptized, writable in Hr'.
    rewrite Hp in Hr'.
    rewrite E, C, T, Eo in Hr'. discriminate.
  - rewrite list_elem_of_In in Hout.
    assert (Hsame_r : descriptors h' !! descriptor_path r
                      = descriptors h !! descriptor_path r).
    { apply Hsame. rewrite list_elem_of_In. exact Hout. }
    unfold accepted, source_is_true, baptized, writable, non_object in *.
    rewrite Hsame_r, Hopen. split; [reflexivity|]. split; [|exact Hnon].
    intros Hacc.
    destruct (descriptors h !! descriptor_path r) as [[[]|]|] eqn:E;
      try discriminate.
    destruct (complete kvs) eqn:C; [reflexivity|].
    exfalso. apply Hout. apply in_map. apply List.filter_In. split; [exact Hr|].
    unfold accepted, source_is_true, baptized, writable.
    rewrite E, C. simpl. rewrite andb_true_r. simpl in Hacc. exact Hacc.
Qed.

Lemma filter_none {A} (f : A -> bool) (xs : list A) :
  (forall x, In x xs -> f x = false) -> List.filter f xs = [].
Proof.
  intros H. induction xs as [|x xs IH]; simpl; [reflexivity|].
  rewrite (H x) by (left; reflexivity). apply IH. intros y Hy. apply H. right. exact Hy.
Qed.

(** X4.  A second run of discovery, on the host the first run left,
    returns the same drives, with the same [id], [name] and descriptor, and
    writes nothing: neither the list of writes nor any descriptor
    changes. *)
Theorem discovery_twice (h : host) (drives : list drive_info) (h1 : host) :
  detect_external_drives h = Returns drives h1 ->
  exists h2,
    detect_external_drives h1 = Returns drives h2
    /\ descriptors h2 = descriptors h1
    /\ written h2 = written h1.
Proof.
  intros Hrun.
  pose proof (evolves_state_of h) as Hev. rewrite Hrun in Hev. simpl in Hev.
  assert (Hroots : removable_roots h1 = removable_roots h).
  { unfold removable_roots. destruct Hev as (-> & _). reflexivity. }
  pose proof (detect_external_drives_spec h) as Hspec1. unfold wp in Hspec1.
  rewrite Hrun in Hspec1. destruct Hspec1 as [_ Hreg1].
  pose proof (detect_external_drives_exact h) as Hex1. rewrite Hrun in Hex1.
  destruct Hex1 as (_ & Hpaths1 & _ & _).
  pose proof (detect_external_drives_exact h1) as Hex2.
  pose proof (detect_external_drives_spec h1) as Hspec2. unfold wp in Hspec2.
  pose proof (evolves_state_of h1) as Hev2.
  rewrite Hroots in Hex2.
  destruct (detect_external_drives h1) as [drives2 h2 | e h2]; simpl in Hev2.
  - destruct Hex2 as (_ & Hpaths2 & _ & Hw2). destruct Hspec2 as [_ Hreg2].
    rewrite filter_none in Hw2.
    2:{ intros r Hr.
        destruct (accepted_after_run h drives h1 r Hrun Hr) as (Ha & Hb & _).
        rewrite Ha. destruct (accepted h r); [rewrite Hb by reflexivity|]; reflexivity. }
    simpl in Hw2. rewrite app_nil_r in Hw2.
    assert (Hdesc : descriptors h2 = descriptors h1).
    { destruct Hev2 as (_ & _ & _ & _ & ws & Hws & Hsame & _).
      rewrite Hw2 in Hws. rewrite <- (app_nil_r (written h1)) in Hws at 1.
      apply app_inv_head in Hws. subst ws.
      apply map_eq. intros q. apply Hsame. intros Hq. inversion Hq. }
    exists h2. split; [|auto]. f_equal.
    apply (registered_lists_equal h2); [exact Hreg2| |].
    + eapply Forall_impl; [exact Hreg1|].
      intros d. apply registered_same_descriptors, Hdesc.
    + rewrite Hpaths2, Hpaths1. apply filter_ext_in_roots.
      intros r Hr. apply (accepted_after_run h drives h1 r Hrun Hr).
  - destruct Hex2 as (_ & Hex2). exfalso.
    apply existsb_exists in Hex2 as (r & Hr & Hnon).
    destruct (accepted_after_run h drives h1 r Hrun Hr) as (_ & _ & Hno).
    congruence.
Qed.

(** A second run on [example_host] after the first. *)
Lemma discovery_twice_witness :
  exists drives h1 h2,
    detect_external_drives example_host = Returns drives h1
    /\ detect_external_drives h1 = Returns drives h2
    /\ descriptors h2 = descriptors h1
    /\ written h2 = written h1.
Proof.
  destruct (detect_external_drives example_host) as [drives h1 | e h1] eqn:Hrun.
  - destruct (discovery_twice example_host drives h1 Hrun) as (h2 & H2).
    exists drives, h1, h2. split; [reflexivity | exact H2].
  - vm_compute in Hrun. discriminate.
Defined.

(** X5.  Each drive discovery returns carries, as its [json], the
    descriptor that is on the volume when the run ends: an object with
    [source] true that holds [id] and [name], whose [id] and [name] are
    the drive's; what was generated in memory is what was persisted. *)
Theorem returned_drives_match_disk (h : host) (drives : list drive_info)
    (h' : host) :
  detect_external_drives h = Returns drives h' ->
  Forall (fun d =>
            descriptors h' !! descriptor_path (drive_path d)
            = Some (Parsed (JObj (drive_json d)))
            /\ dict_get (drive_json d) "source" = Some (JBool true)
            /\ dict_get (drive_json d) "id" = Some (drive_id d)
            /\ dict_get (drive_json d) "name" = Some (drive_name d))
         drives.
Proof.
  intros Hrun. pose proof (detect_external_drives_spec h) as Hspec.
  unfold wp in Hspec. rewrite Hrun in Hspec. destruct Hspec as [_ Hreg].
  eapply Forall_impl; [exact Hreg|].
  intros d (F & C & T & I & N). split; [exact F|].
  unfold complete, dict_has in C. apply andb_true_iff in C as [Ci Cn].
  unfold is_True in T. rewrite I, N.
  destruct (dict_get (drive_json d) "source") as [[| [] | | | | |]|]; try discriminate.
  destruct (dict_get (drive_json d) "id"); [|discriminate].
  destruct (dict_get (drive_json d) "name"); [|discriminate].
  auto.
Qed.

(** The drives returned for [example_host]. *)
Lemma returned_drives_match_disk_witness :
  exists drives h',
    detect_external_drives example_host = Returns drives h'
    /\ Forall (fun d =>
                 descriptors h' !! descriptor_path (drive_path d)
                 = Some (Parsed (JObj (drive_json d)))
                 /\ dict_get (drive_json d) "source" = Some (JBool true)
                 /\ dict_get (drive_json d) "id" = Some (drive_id d)
                 /\ dict_get (drive_json d) "name" = Some (drive_name d))
              drives.
Proof.
  destruct (detect_external_drives example_host) as [drives h' | e h'] eqn:Hrun.
  - exists drives, h'. split; [reflexivity|].
    apply (returned_drives_match_disk example_host drives h' Hrun).
  - vm_compute in Hrun. discriminate.
Defined.

(** X6.  [generate_human_name] always returns one of the 49 names made
    of an adjective, a blank and an animal, whatever the random source
    answers; it takes two draws and touches nothing else. *)
Theorem generated_name_shape (h : host) :
  exists name h',
    generate_human_name h = Returns name h'
    /\ In name human_names
    /\ choices_drawn h' = S (S (choices_drawn h))
    /\ uuids_drawn h' = uuids_drawn h
    /\ descriptors h' = descriptors h
    /\ written h' = written h
    /\ console h' = console h.
Proof.
  exists (nth (choice_at h (choices_drawn h) mod length adjectives)%nat
              adjectives EmptyString
          +:+ " " +:+
          nth (choice_at h (S (choices_drawn h)) mod length animals)%nat
              animals EmptyString).
  eexists. split; [reflexivity|]. split; [|repeat split].
  unfold human_names. apply in_flat_map.
  exists (nth (choice_at h (choices_drawn h) mod length adjectives)%nat
              adjectives EmptyString).
  split.
  - apply nth_In. apply Nat.mod_upper_bound. discriminate.
  - apply in_map_iff. eexists. split; [reflexivity|].
    apply nth_In. apply Nat.mod_upper_bound. discriminate.
Qed.

(* ===================================================================== *)
(** * Import Walker: what is marked, what is printed                      *)
(* ===================================================================== *)

Lemma import_files_output (root : string) (drive : drive_info)
    (files : list string) (p : proc) :
  import_files root drive files p
  = mkProc (folders_marked_for_deletion p)
           (stdout p ++ map (backup_line root drive)
                            (List.filter is_media_import files))
           (debug_log p).
Proof.
  unfold import_files. revert p.
  induction files as [|f fs IH]; intros p; simpl.
  - rewrite app_nil_r. destruct p; reflexivity.
  - rewrite IH. destruct (is_media_import f); simpl; [|reflexivity].
    rewrite <- app_assoc. reflexivity.
Qed.

Lemma import_visit_output (drive : drive_info) (v : visit) (p : proc) :
  stdout (import_visit drive (purge_flag (drive_json drive)) v p)
  = stdout p ++ visit_output drive v.
Proof.
  unfold import_visit, visit_output, marking_visit.
  rewrite import_files_output.
  destruct (truthy (purge_flag (drive_json drive))); cbn -[try_remove_folder].
  - destruct (differs_from_root (v_root v) (drive_path drive));
      cbn -[try_remove_folder].
    + unfold try_remove_folder.
      pose proof (inspect_entries_eligible (v_listing v)) as E.
      destruct (inspect_entries (v_listing v)) as [has_media has_subfolders].
      rewrite E. destruct (purge_eligible (v_listing v)); simpl.
      * rewrite <- app_assoc. reflexivity.
      * rewrite app_nil_r. reflexivity.
    + rewrite app_nil_r. reflexivity.
  - rewrite app_nil_r. reflexivity.
Qed.



(** X8.  The [purge] field is read with Python's truth test.  When it is
    missing, [false], [null], zero, or an empty string, list or object, the
    drive contributes no candidate.  For any other value (the string
    "false" is one) the candidates of the drive are the directories of the
    walk other than the root that hold no media file and no subdirectory,
    in walk order. *)
Theorem purge_flag_truthiness (volumes : string -> scan) (drive : drive_info)
    (p : proc) :
  let flag := purge_flag (drive_json drive) in
  let walk := os_walk (drive_path drive) (volumes (drive_path drive)) in
  folders_marked_for_deletion (import_drive volumes drive p)
  = folders_marked_for_deletion p
    ++ (if truthy flag
        then map v_root
                 (List.filter
                    (fun v => differs_from_root (v_root v) (drive_path drive)
                              && purge_eligible (v_listing v))
                    walk)
        else [])
  /\ (dict_get (drive_json drive) "purge" = None -> truthy flag = false)
  /\ (forall s, dict_get (drive_json drive) "purge" = Some (JStr s) ->
                truthy flag = pystr.nonempty s)
  /\ (forall z, dict_get (drive_json drive) "purge" = Some (JInt z) ->
                truthy flag = negb (z =? 0)).
Proof.
  intros flag walk. split; [|split; [|split]].
  - rewrite import_drive_marked. fold walk. f_equal.
    unfold marking_visit. fold flag. destruct (truthy flag); simpl.
    + reflexivity.
    + induction walk as [|v vs IH]; [reflexivity | exact IH].
  - intros H. unfold flag, purge_flag. rewrite H. reflexivity.
  - intros s H. unfold flag, purge_flag. rewrite H. reflexivity.
  - intros z H. unfold flag, purge_flag. rewrite H. reflexivity.
Qed.

(** A descriptor with [purge] set to the string "false" asks for a
    purge. *)
Lemma purge_flag_truthiness_witness :
  let drive := mkDrive "E:\" (JStr "3f2b8c1e") (JStr "Silver Goose")
                       [("source", JBool true); ("purge", JStr "false")] in
  dict_get (drive_json drive) "purge" = Some (JStr "false")
  /\ truthy (purge_flag (drive_json drive)) = pystr.nonempty "false"
  /\ pystr.nonempty "false" = true.
Proof.
  intros drive. split; [reflexivity|]. split; [|reflexivity].
  destruct (purge_flag_truthiness (fun _ => inr example_volume) drive
                                  (mkProc [] [] [])) as (_ & _ & H & _).
  apply (H "false"). reflexivity.
Defined.

Lemma purge_eligible_leaf (entries : list entry) :
  purge_eligible entries = true ->
  List.filter is_dir entries = []
  /\ Forall (fun e => is_file e = true -> is_media_purge (entry_name e) = false)
            entries.
Proof.
  unfold purge_eligible. intros H. apply andb_true_iff in H as [Hm Hd].
  split.
  - apply filter_none. intros e He.
    apply (proj1 (forallb_forall _ _) Hd) in He. apply negb_true_iff in He. exact He.
  - apply List.Forall_forall. intros e He Hf.
    apply (proj1 (forallb_forall _ _) Hm) in He. apply negb_true_iff in He.
    unfold media_file in He. rewrite Hf in He. exact He.
Qed.

(** Every item of a walk lists its directory: its [dirs] and [files] are
    the names of the entries of its listing. *)
Lemma walk_entry_visits (e : entry) :
  forall top,
    Forall (fun v => v = visit_of (v_root v) (v_listing v)) (walk_entry top e).
Proof.
  induction e as [name | name | name islink e | name islink entries IH]
    using entry_tree_ind; intros top; simpl; try constructor.
  - destruct islink; constructor.
  - destruct islink; [constructor|]. constructor; [reflexivity|].
    induction IH as [|e es He _ IHes]; simpl; [constructor|].
    apply Forall_app. split; [apply He | exact IHes].
Qed.

Lemma os_walk_visits (top : string) (listing : scan) :
  Forall (fun v => v = visit_of (v_root v) (v_listing v)) (os_walk top listing).
Proof.
  destruct listing as [e | entries]; simpl; constructor; [reflexivity|].
  induction entries as [|e es IH]; simpl; [constructor|].
  apply Forall_app. split; [apply walk_entry_visits | exact IH].
Qed.

Lemma import_drive_leaves (volumes : string -> scan) (drive : drive_info)
    (p : proc) :
  exists added,
    folders_marked_for_deletion (import_drive volumes drive p)
    = folders_marked_for_deletion p ++ added
    /\ Forall
         (fun f =>
            exists v,
              In v (os_walk (drive_path drive) (volumes (drive_path drive)))
              /\ v_root v = f
              /\ truthy (purge_flag (drive_json drive)) = true
              /\ v_dirs v = []
              /\ Forall (fun e => is_file e = true ->
                                  is_media_purge (entry_name e) = false)
                        (v_listing v))
         added.
Proof.
  eexists. split; [apply import_drive_marked|].
  apply List.Forall_forall. intros f Hf.
  apply in_map_iff in Hf as (v & <- & Hv).
  apply List.filter_In in Hv as [Hv Hmark].
  exists v. split; [exact Hv|]. split; [reflexivity|].
  unfold marking_visit in Hmark.
  apply andb_true_iff in Hmark as [Hmark Hel].
  apply andb_true_iff in Hmark as [Hflag _].
  destruct (purge_eligible_leaf _ Hel) as [Hdirs Hfiles].
  split; [exact Hflag|]. split; [|exact Hfiles].
  pose proof (os_walk_visits (drive_path drive) (volumes (drive_path drive))) as Hall.
  rewrite List.Forall_forall in Hall. rewrite (Hall v Hv). simpl.
  rewrite Hdirs. reflexivity.
Qed.

(** X9.  Every path an import adds to the candidate list is the path of
    a directory of the walk of one of the drives, whose [purge] flag is
    truthy, and which at the time of the walk had no subdirectory at all
    and no regular file with a media extension.  Paths already on the
    list stay where they are.  So a directory is never marked in the run
    that marks a directory below it. *)
Theorem candidates_are_media_free_leaves (volumes : string -> scan)
    (drives : list drive_info) (p : proc) :
  exists added,
    folders_marked_for_deletion (import_from_external_drives volumes drives p)
    = folders_marked_for_deletion p ++ added
    /\ Forall
         (fun f =>
            exists d v,
              In d drives
              /\ In v (os_walk (drive_path d) (volumes (drive_path d)))
              /\ v_root v = f
              /\ truthy (purge_flag (drive_json d)) = true
              /\ v_dirs v = []
              /\ Forall (fun e => is_file e = true ->
                                  is_media_purge (entry_name e) = false)
                        (v_listing v))
         added.
Proof.
  unfold import_from_external_drives.
  change (folders_marked_for_deletion p)
    with (folders_marked_for_deletion
            (write_console [Lit "Importing from external drives"] "TITLE" 0 p)).
  generalize (write_console [Lit "Importing from external drives"] "TITLE" 0 p).
  induction drives as [|d ds IH]; intros q; simpl.
  - exists []. rewrite app_nil_r. split; [reflexivity | constructor].
  - destruct (import_drive_leaves volumes d q) as (a1 & E1 & H1).
    destruct (IH (import_drive volumes d q)) as (a2 & E2 & H2).
    exists (a1 ++ a2). split; [rewrite E2, E1, app_assoc; reflexivity|].
    apply Forall_app. split.
    + eapply Forall_impl; [exact H1|]. intros f (v & Hv). exists d, v.
      split; [left; reflexivity | exact Hv].
    + eapply Forall_impl; [exact H2|]. intros f (d' & v & Hd' & Hv). exists d', v.
      split; [right; exact Hd' | exact Hv].
Qed.

(** The candidates of the example volume. *)
Lemma candidates_are_media_free_leaves_witness :
  exists added,
    folders_marked_for_deletion
      (import_from_external_drives (fun _ => inr example_volume) [example_drive]
                                   (mkProc [] [] []))
    = added
    /\ Forall (fun f => exists d v,
                 In d [example_drive]
                 /\ In v (os_walk (drive_path d) (inr example_volume))
                 /\ v_root v = f
                 /\ v_dirs v = [])
              added.
Proof.
  destruct (candidates_are_media_free_leaves (fun _ => inr example_volume)
              [example_drive] (mkProc [] [] [])) as (added & E & H).
  exists added. split; [exact E|].
  eapply Forall_impl; [exact H|].
  intros f (d & v & Hd & Hv & Hf & _ & Hdirs & _). exists d, v. auto.
Defined.

(** X10.  An entry that is neither a regular file nor a directory (a
    dangling link, a device) is a file to [os.walk] but not to the purge
    check.  With a media extension in its name it is handed to the backup,
    and yet it does not keep its directory off the candidate list: a
    directory holding only such entries is backed up from and marked in the
    same visit. *)
Theorem special_entry_backed_up_and_purged (drive : drive_info) (root name : string)
    (p : proc) :
  is_media_import name = true ->
  truthy (purge_flag (drive_json drive)) = true ->
  differs_from_root root (drive_path drive) = true ->
  let p' := import_visit drive (purge_flag (drive_json drive))
                         (visit_of root [EOther name]) p in
  stdout p' = stdout p ++ [backup_line root drive name; delete_line root 2]
  /\ folders_marked_for_deletion p' = folders_marked_for_deletion p ++ [root].
Proof.
  intros Hmedia Hflag Hdiff p'. unfold p'. split.
  - rewrite import_visit_output. unfold visit_output, marking_visit. simpl.
    rewrite Hmedia, Hflag, Hdiff. reflexivity.
  - rewrite import_visit_marked. unfold marking_visit. simpl.
    rewrite Hflag, Hdiff. reflexivity.
Qed.

(** A dangling link [clip.mp4] alone in [E:\DCIM]. *)
Lemma special_entry_backed_up_and_purged_witness :
  let p' := import_visit example_drive (purge_flag (drive_json example_drive))
                         (visit_of "E:\DCIM" [EOther "clip.mp4"]) (mkProc [] [] []) in
  is_media_import "clip.mp4" = true
  /\ truthy (purge_flag (drive_json example_drive)) = true
  /\ differs_from_root "E:\DCIM" (drive_path example_drive) = true
  /\ stdout p' = [backup_line "E:\DCIM" example_drive "clip.mp4";
                  delete_line "E:\DCIM" 2]
  /\ folders_marked_for_deletion p' = ["E:\DCIM"].
Proof.
  intros p'.
  assert (H1 : is_media_import "clip.mp4" = true) by reflexivity.
  assert (H2 : truthy (purge_flag (drive_json example_drive)) = true) by reflexivity.
  assert (H3 : differs_from_root "E:\DCIM" (drive_path example_drive) = true)
    by reflexivity.
  split; [exact H1|]. split; [exact H2|]. split; [exact H3|].
  exact (special_entry_backed_up_and_purged example_drive "E:\DCIM" "clip.mp4"
           (mkProc [] [] []) H1 H2 H3).
Defined.

(** The walk stays at or below the mount root. *)
Lemma join2_below_root (letter : ascii) (top name : string) :
  below_root letter top -> valid_name name = true ->
  below_root letter (ntpath.join2 top name).
Proof.
  intros [rest ->] Hname. unfold ntpath.join2, ntpath.join_step.
  rewrite splitdrive_letter, splitdrive_valid_name by exact Hname.
  assert (Hstart : match name with
                   | EmptyString => false
                   | String c _ => ntpath.is_sep c
                   end = false).
  { destruct name as [|c r]; [reflexivity|]. simpl in Hname.
    repeat match goal with E : _ && _ = true |- _ => apply andb_true_iff in E as [? ?] end.
    repeat match goal with E : negb _ = true |- _ => apply negb_true_iff in E end.
    unfold ntpath.is_sep.
    repeat match goal with E : Ascii.eqb _ _ = false |- _ => rewrite E end.
    reflexivity. }
  rewrite Hstart. simpl. rewrite andb_false_r.
  match goal with |- context [if ?b then _ else _] => destruct b end;
    eexists; reflexivity.
Qed.

Lemma walk_entry_below_root (letter : ascii) (e : entry) :
  forall top,
    below_root letter top -> valid_entry e = true ->
    Forall (fun v => below_root letter (v_root v)) (walk_entry top e).
Proof.
  induction e as [name | name | name islink e | name islink entries IH]
    using entry_tree_ind; intros top Htop Hvalid; simpl; try constructor.
  - destruct islink; constructor.
  - destruct islink; [constructor|].
    simpl in Hvalid. apply andb_true_iff in Hvalid as [Hname Hsub].
    pose proof (join2_below_root letter top name Htop Hname) as Hnew.
    constructor; [exact Hnew|].
    induction IH as [|e es He _ IHes]; simpl; [constructor|].
    simpl in Hsub. apply andb_true_iff in Hsub as [H1 H2].
    apply Forall_app. split; [apply He; assumption | apply IHes, H2].
Qed.

Lemma os_walk_below_root (letter : ascii) (listing : scan) :
  valid_listing listing = true ->
  Forall (fun v => below_root letter (v_root v))
         (os_walk (drive_root letter) listing).
Proof.
  intros Hvalid.
  assert (Htop : below_root letter (drive_root letter)) by (eexists; reflexivity).
  destruct listing as [e | entries]; simpl; constructor; [exact Htop|].
  simpl in Hvalid.
  induction entries as [|e es IH]; simpl; [constructor|].
  simpl in Hvalid. apply andb_true_iff in Hvalid as [H1 H2].
  apply Forall_app. split; [apply walk_entry_below_root; assumption | apply IH, H2].
Qed.

(** X11.  The candidates of a lettered drive lie on that drive: when the
    entries of the volume bear valid names (no colon, no separator), every
    path the import of the drive adds starts with the drive's mount root,
    and is not the root itself.  A walk never marks a directory of another
    volume. *)
Theorem candidates_stay_on_drive (volumes : string -> scan) (drive : drive_info)
    (letter : ascii) (p : proc) :
  drive_path drive = drive_root letter ->
  valid_listing (volumes (drive_path drive)) = true ->
  exists added,
    folders_marked_for_deletion (import_drive volumes drive p)
    = folders_marked_for_deletion p ++ added
    /\ Forall (fun f => below_root letter f /\ f <> drive_root letter) added.
Proof.
  intros Hroot Hvalid.
  eexists. split; [apply import_drive_marked|].
  apply List.Forall_forall. intros f Hf.
  apply in_map_iff in Hf as (v & <- & Hv).
  apply List.filter_In in Hv as [Hv Hmark].
  split.
  - pose proof (os_walk_below_root letter (volumes (drive_path drive)) Hvalid) as Hall.
    rewrite List.Forall_forall in Hall. apply Hall. rewrite <- Hroot. exact Hv.
  - intros E. apply (marking_visit_differs drive v Hmark).
    rewrite E, Hroot. reflexivity.
Qed.

(** The candidates of the example volume lie on [E:]. *)
Lemma candidates_stay_on_drive_witness :
  drive_path example_drive = drive_root "E"
  /\ valid_listing (inr example_volume) = true
  /\ exists added,
       folders_marked_for_deletion
         (import_drive (fun _ => inr example_volume) example_drive (mkProc [] [] []))
       = added
       /\ Forall (fun f => below_root "E" f /\ f <> drive_root "E") added.
Proof.
  split; [reflexivity|]. split; [reflexivity|].
  exact (candidates_stay_on_drive (fun _ => inr example_volume) example_drive "E"
           (mkProc [] [] []) eq_refl eq_refl).
Defined.

(* ===================================================================== *)
(** * Deletion Pipeline: the round trip, the output, the disk             *)
(* ===================================================================== *)

(** X12.  Reading the log back strips every path and drops the ones that
    are blank: for candidates without a line break inside, what Phase 2
    reads is the stripped candidates that are not empty, in order; each
    is its candidate without the white space at the two ends.  A
    candidate with white space at an end comes back as a different path,
    and an all-blank candidate does not come back. *)
Theorem log_read_back (folders : list string) :
  forallb (lacks pystr.CR) folders = true ->
  forallb (lacks pystr.LF) folders = true ->
  read_folders (log_text folders)
  = List.filter pystr.nonempty (map pystr.strip folders)
  /\ Forall2 trimmed
             (List.filter (fun folder => negb (all_white folder)) folders)
             (read_folders (log_text folders)).
Proof.
  intros Hcr Hlf.
  assert (Hread : read_folders (log_text folders)
                  = List.filter pystr.nonempty (map pystr.strip folders)).
  { unfold read_folders, file_lines.
    rewrite universal_newlines_id
      by (apply lacks_log_text; [reflexivity | exact Hcr]).
    clear Hcr. induction folders as [|f fs IH]; [reflexivity|].
    simpl in Hlf. apply andb_true_iff in Hlf as [Hf Hfs].
    cbn [log_text]. rewrite keepends_line by exact Hf.
    cbn [List.filter map]. rewrite strip_snoc_space by reflexivity.
    destruct (pystr.nonempty (pystr.strip f)) eqn:E.
    - cbn [map]. rewrite strip_snoc_space by reflexivity.
      rewrite IH by exact Hfs. reflexivity.
    - apply IH, Hfs. }
  split; [exact Hread|]. rewrite Hread. clear.
  induction folders as [|f fs IH]; [constructor|].
  cbn [map List.filter].
  rewrite strip_empty_iff, blank_all_white.
  destruct (all_white f); cbn [negb]; [exact IH|].
  constructor; [apply strip_trimmed | exact IH].
Qed.

(** A padded path, a blank one, and one whose last character is a
    no-break space. *)
Lemma log_read_back_witness :
  let folders := [" E:\DCIM\EMPTY "; "   ";
                  "E:\DCIM\OLD" +:+ String (pystr.chr 160) EmptyString] in
  forallb (lacks pystr.CR) folders = true
  /\ forallb (lacks pystr.LF) folders = true
  /\ read_folders (log_text folders) = ["E:\DCIM\EMPTY"; "E:\DCIM\OLD"].
Proof.
  intros folders. split; [reflexivity|]. split; [reflexivity|].
  destruct (log_read_back folders eq_refl eq_refl) as [-> _]. reflexivity.
Defined.





(* ===================================================================== *)
(** * Start-up                                                            *)
(* ===================================================================== *)

Lemma on_proc_run (f : proc -> proc) (w : world) :
  on_proc f w
  = Returns tt (with_machine w (with_console (machine w) (f (console (machine w))))).
Proof. reflexivity. Qed.

Lemma path_missing_verdict (path : jvalue) (w : world) :
  path_missing path w
  = match missing_verdict (boot w) path with
    | inr absent => Returns absent w
    | inl e => Raises e w
    end.
Proof.
  unfold path_missing, missing_verdict, os_path_exists, bind, ret.
  destruct (negb (truthy path)); [reflexivity|].
  destruct (exists_verdict (boot w) path); reflexivity.
Qed.

Lemma missing_verdict_str (b : startup) (s : string) :
  missing_verdict b (JStr s) = inr (negb (usable b s)).
Proof.
  unfold missing_verdict, usable. simpl.
  destruct (pystr.nonempty s); reflexivity.
Qed.

Lemma only_console_refl (w : world) : only_console w w.
Proof. repeat split. Qed.

Lemma only_console_trans (w1 w2 w3 : world) :
  only_console w1 w2 -> only_console w2 w3 -> only_console w1 w3.
Proof.
  unfold only_console. intros H1 H2.
  repeat match goal with H : _ /\ _ |- _ => destruct H end.
  repeat split; congruence.
Qed.







Lemma valid_name_get (s : string) (j : nat) (c : ascii) :
  valid_name s = true -> String.get j s = Some c -> ntpath.is_sep c = false.
Proof.
  revert j. induction s as [|a r IH]; intros j Hv Hg; [discriminate|].
  simpl in Hv.
  repeat match goal with E : _ && _ = true |- _ => apply andb_true_iff in E as [? ?] end.
  destruct j as [|j]; simpl in Hg.
  - injection Hg as <-. unfold ntpath.is_sep.
    repeat match goal with E : negb _ = true |- _ => apply negb_true_iff in E; rewrite E end.
    reflexivity.
  - eapply IH; eassumption.
Qed.

Lemma tail_start_no_sep (p : string) (i : nat) :
  (forall j c, String.get j p = Some c -> ntpath.is_sep c = false) ->
  tail_start p i = O.
Proof.
  intros H. induction i as [|j IH]; [reflexivity|]. simpl.
  destruct (String.get j p) as [c|] eqn:E; [|exact IH].
  rewrite (H j c E). exact IH.
Qed.

(** A file name without drive and without separator has no directory
    part. *)
Lemma dirname_valid_name (s : string) :
  valid_name s = true -> dirname s = EmptyString.
Proof.
  intros H. unfold dirname, ntpath_split.
  rewrite splitdrive_valid_name by exact H.
  rewrite tail_start_no_sep by (intros j c; apply valid_name_get, H).
  unfold pystr.take. simpl. rewrite substring_none. reflexivity.
Qed.

(** One round of the validation loop, on any JSON value. *)
Lemma check_path_any (name : string) (path : jvalue) (missing : bool) (w : world) :
  match check_path (name, path) missing w with
  | Returns missing' w' =>
      only_console w w'
      /\ exists absent,
           missing_verdict (boot w) path = inr absent
           /\ missing' = absent || missing
  | Raises _ w' => only_console w w'
  end.
Proof.
  unfold check_path, bind. rewrite path_missing_verdict.
  destruct (missing_verdict (boot w) path) as [e | absent].
  - apply only_console_refl.
  - destruct absent; unfold write_console_arrow; destruct (arrow_error (boot w));
      try apply only_console_refl;
      rewrite on_proc_run; unfold ret;
      (split; [repeat split | eexists; split; reflexivity]).
Qed.

(** X16.  A [log_file] that is missing from the configuration, or is a
    bare file name (no drive, no separator), has an empty directory part,
    and an empty path never passes: whatever the other entries are and
    whatever exists on the disk, [validate_paths] does not return. *)
Theorem bare_log_file_aborts (w : world) (d : dict) :
  (dict_get d "log_file" = None
   \/ exists s, dict_get d "log_file" = Some (JStr s) /\ valid_name s = true) ->
  exists e w', validate_paths (JObj d) w = Raises e w'.
Proof.
  intros Hlog.
  assert (Hdir : exists v, (match dict_get d "log_file" with
                            | Some v => v | None => JStr EmptyString end) = JStr v
                           /\ dirname v = EmptyString).
  { destruct Hlog as [-> | (s & -> & Hs)].
    - exists EmptyString. split; reflexivity.
    - exists s. split; [reflexivity | apply dirname_valid_name, Hs]. }
  destruct Hdir as (v & Hv & Hd).
  unfold validate_paths, config_get, os_path_dirname. rewrite Hv.
  unfold bind at 1 2 3 4 5, ret. cbv beta iota. rewrite Hd.
  unfold bind at 1.
  destruct (on_proc (write_console [Lit "Preloading configuration paths"] "TITLE" 0) w)
    as [[] w0 | e w0]; [|eauto].
  unfold bind at 1. cbn [for_each]. unfold bind at 1.
  destruct (check_path _ false w0) as [m1 w1 | e w1]; [|eauto].
  unfold bind at 1.
  destruct (check_path _ m1 w1) as [m2 w2 | e w2]; [|eauto].
  unfold bind at 1.
  pose proof (check_path_any "log_file (parent dir)" (JStr EmptyString) m2 w2) as H3.
  destruct (check_path _ m2 w2) as [m3 w3 | e w3]; [|eauto].
  destruct H3 as (_ & absent & Hv3 & ->).
  rewrite missing_verdict_str in Hv3. injection Hv3 as <-.
  cbn [usable pystr.nonempty andb negb orb]. unfold bind at 1.
  pose proof (check_path_any "inbox_path"
                (match dict_get d "inbox_path" with
                 | Some v0 => v0 | None => JNull end) true w3) as H4.
  destruct (check_path _ true w3) as [m4 w4 | e w4]; [|eauto].
  destruct H4 as (_ & absent & _ & ->). rewrite orb_true_r.
  unfold ret. unfold bind at 1.
  destruct (on_proc _ w4) as [[] w5 | e w5]; eauto.
Qed.

(** With [log_file] set to a bare [triage.log], validation does not
    return even though every other path exists. *)
Lemma bare_log_file_aborts_witness :
  let d := [("python_path", JStr "C:\py\python.exe");
            ("triage_script", JStr "C:\triage\src\triage.py");
            ("log_file", JStr "triage.log");
            ("inbox_path", JStr "D:\INBOX")] in
  dict_get d "log_file" = Some (JStr "triage.log")
  /\ valid_name "triage.log" = true
  /\ exists e w', validate_paths (JObj d) example_world = Raises e w'.
Proof.
  intros d. split; [reflexivity|]. split; [reflexivity|].
  apply (bare_log_file_aborts example_world d).
  right. exists "triage.log". split; reflexivity.
Defined.

(* ===================================================================== *)
(** * The whole run                                                       *)
(* ===================================================================== *)

Lemma summary_loop (folders : list string) (p : proc) :
  fold_left (fun p folder => write_console [Lit "- "; Lit folder] "ERROR" 1 p)
            folders p
  = mkProc (folders_marked_for_deletion p)
           (stdout p ++ map (fun folder => console_line [Lit "- "; Lit folder] "ERROR" 1)
                            folders)
           (debug_log p).
Proof.
  revert p. induction folders as [|f fs IH]; intros p.
  - simpl. rewrite app_nil_r. destruct p; reflexivity.
  - cbn [fold_left map]. rewrite IH. unfold write_console.
    cbn [folders_marked_for_deletion stdout debug_log].
    rewrite <- app_assoc. reflexivity.
Qed.

(** X17.  [show_deletion_summary] prints nothing when there is no
    candidate; otherwise it prints three header lines and then one line
    per candidate, in the order of the list.  It changes neither the list
    nor the debug log. *)
Theorem deletion_summary_output (p : proc) :
  show_deletion_summary p
  = mkProc (folders_marked_for_deletion p)
           (stdout p ++ summary_lines (folders_marked_for_deletion p))
           (debug_log p).
Proof.
  unfold show_deletion_summary, summary_lines.
  destruct (folders_marked_for_deletion p) as [|f fs] eqn:E.
  - rewrite app_nil_r. destruct p; simpl in E; subst; reflexivity.
  - rewrite summary_loop. unfold write_console.
    cbn [folders_marked_for_deletion stdout debug_log].
    rewrite E, <- !app_assoc. reflexivity.
Qed.

(** X18.  When [config.json] cannot be read or parsed, [main] empties the
    debug log, prints the reason and exits with status 1: no directory is
    asked for, no descriptor is written, nothing is marked or removed. *)
Theorem unreadable_config_is_fatal
    (rmtree : gmap string string -> string -> gmap string string * option string)
    (w : world) (e : string) :
  config_json (boot w) = Unreadable e ->
  open_w_error (machine w) (DEBUG_LOG_PATH (boot w)) = None ->
  exists w',
    main rmtree w = Raises "SystemExit: 1" w'
    /\ only_console w w'
    /\ stdout (console (machine w'))
       = stdout (console (machine w))
         ++ [console_line [Lit "[FATAL] Failed to load config.json: "; Lit e] "INFO" 0]
    /\ debug_log (console (machine w')) = [].
Proof.
  intros Hcfg Hopen.
  unfold main, clear_debug_log, load_config, gets.
  unfold bind at 1. rewrite Hopen.
  unfold bind at 1. unfold bind at 1.
  cbn [boot with_machine]. rewrite Hcfg.
  unfold bind at 1. rewrite on_proc_run.
  eexists. split; [reflexivity|].
  split; [repeat split|]. split; reflexivity.
Qed.

(** On [broken_world] the run ends with the exit status 1. *)
Lemma unreadable_config_is_fatal_witness :
  config_json (boot broken_world)
  = Unreadable "Expecting value: line 1 column 1 (char 0)"
  /\ open_w_error (machine broken_world) (DEBUG_LOG_PATH (boot broken_world)) = None
  /\ exists w',
       main rmtree_all broken_world = Raises "SystemExit: 1" w'
       /\ only_console broken_world w'.
Proof.
  split; [reflexivity|]. split; [reflexivity|].
  destruct (unreadable_config_is_fatal rmtree_all broken_world _ eq_refl eq_refl)
    as (w' & Hrun & Honly & _).
  exists w'. split; assumption.
Defined.

Ltac run := unfold bind at 1; cbv beta iota; try rewrite on_proc_run; cbv beta iota.

Lemma check_paths_any (items : list (string * jvalue)) (missing : bool) (w : world) :
  match for_each items check_path missing w with
  | Returns missing' w' =>
      only_console w w'
      /\ (missing' = false ->
          missing = false
          /\ Forall (fun it => missing_verdict (boot w) it.2 = inr false) items)
  | Raises _ w' => only_console w w'
  end.
Proof.
  revert missing w. induction items as [|[name path] items IH]; intros missing w.
  - simpl. split; [apply only_console_refl | auto].
  - cbn [for_each]. unfold bind.
    pose proof (check_path_any name path missing w) as H1.
    destruct (check_path (name, path) missing w) as [m1 w1 | e w1]; [|exact H1].
    destruct H1 as (K1 & absent & Hv & ->).
    pose proof (IH (absent || missing) w1) as H2.
    destruct (for_each items check_path (absent || missing) w1) as [m2 w2 | e w2].
    + destruct H2 as (K2 & H2). split; [exact (only_console_trans _ _ _ K1 K2)|].
      intros Hm. destruct (H2 Hm) as (Hor & Hall).
      apply orb_false_iff in Hor as [-> ->]. split; [reflexivity|].
      constructor; [exact Hv|].
      destruct K1 as (Hb & _). rewrite Hb in Hall. exact Hall.
    + exact (only_console_trans _ _ _ K1 H2).
Qed.

(** Validation changes nothing but the console, and it returns only for
    an object whose [inbox_path] is not empty and exists. *)
Lemma validate_paths_any (config : jvalue) (w : world) :
  match validate_paths config w with
  | Returns _ w' =>
      only_console w w'
      /\ exists d v,
           config = JObj d /\ dict_get d "inbox_path" = Some v
           /\ missing_verdict (boot w) v = inr false
  | Raises _ w' => only_console w w'
  end.
Proof.
  unfold validate_paths.
  destruct config as [ | b | z | zero | s | xs | d];
    try (unfold config_get, bind, raise; apply only_console_refl).
  unfold config_get. unfold bind at 1 2 3, ret.
  unfold bind at 1.
  destruct (os_path_dirname _ w) as [log_dir w0 | e w0] eqn:Hdir.
  2: { unfold os_path_dirname in Hdir.
       destruct (match dict_get d "log_file" with Some v => v | None => JStr "" end);
         try (injection Hdir as _ <-; apply only_console_refl); discriminate. }
  assert (w0 = w) as ->.
  { unfold os_path_dirname in Hdir.
    destruct (match dict_get d "log_file" with Some v => v | None => JStr "" end);
      try discriminate; injection Hdir as _ <-; reflexivity. }
  unfold bind at 1. unfold bind at 1. rewrite on_proc_run.
  set (w1 := with_machine w _).
  assert (K1 : only_console w w1) by (repeat split).
  unfold bind at 1.
  match goal with |- context [for_each ?items check_path false w1] =>
    pose proof (check_paths_any items false w1) as H2;
    destruct (for_each items check_path false w1) as [m2 w2 | e w2]
  end.
  2: { cbv beta iota in H2 |- *. exact (only_console_trans _ _ _ K1 H2). }
  destruct H2 as (K2 & H2). cbv beta iota.
  destruct m2.
  - unfold bind. rewrite on_proc_run. unfold sys_exit_1, raise.
    apply (only_console_trans _ _ _ (only_console_trans _ _ _ K1 K2)).
    repeat split.
  - unfold ret. split; [exact (only_console_trans _ _ _ K1 K2)|].
    destruct (H2 eq_refl) as (_ & Hall).
    apply Forall_cons in Hall as [_ Hall]. apply Forall_cons in Hall as [_ Hall].
    apply Forall_cons in Hall as [_ Hall]. apply Forall_cons in Hall as [Hinbox _].
    cbn [snd] in Hinbox.
    destruct (dict_get d "inbox_path") as [v|] eqn:Hget.
    + exists d, v. auto.
    + discriminate.
Qed.

(** X19.  The inbox is never created.  [initialize_triage] is written to
    make the inbox when it is missing, but [main] calls it after
    [validate_paths], which returns only when the inbox exists: the one
    directory the two together ask for is the [logs] directory beside the
    script (the answer of [os.path.exists] for a path is taken to be the
    same in both functions).  When both return, the configuration has gained a [system]
    entry that holds that path. *)
Theorem inbox_never_created (config : jvalue) (w : world) :
  let logs_path := logs_path_of (boot w) in
  match (validate_paths config ;;; initialize_triage config)%py w with
  | Returns config' w' =>
      made w' = made w ++ [logs_path]
      /\ exists d,
           config = JObj d
           /\ config' = JObj (dict_set d "system" (JObj [("logs_path", JStr logs_path)]))
  | Raises _ w' => made w' = made w \/ made w' = made w ++ [logs_path]
  end.
Proof.
  intros logs_path. unfold bind at 1.
  pose proof (validate_paths_any config w) as H1.
  destruct (validate_paths config w) as [[] w1 | e w1].
  2: { left. apply H1. }
  destruct H1 as (K1 & d & v & -> & Hget & Hv).
  assert (Hb : boot w1 = boot w) by apply K1.
  assert (Hm : made w1 = made w) by apply K1.
  unfold initialize_triage, config_index. rewrite Hget.
  unfold bind at 1, ret. unfold bind at 1.
  destruct v as [ | b | z | zero | s | xs | d']; unfold os_path_dirname, raise;
    try (left; exact Hm).
  unfold ret. run. run. run. run.
  unfold bind at 1. unfold os_path_exists. cbn [boot with_machine exists_verdict].
  rewrite missing_verdict_str in Hv. injection Hv as Hv.
  apply negb_false_iff in Hv. unfold usable in Hv.
  apply andb_true_iff in Hv as [_ Hv]. rewrite Hb, Hv. cbn [negb].
  run. run. unfold gets. cbv beta iota. cbn [boot with_machine]. rewrite Hb.
  fold logs_path.
  run. unfold os_makedirs.
  cbn [boot made with_machine]. rewrite Hb, Hm.
  destruct (makedirs_error (boot w) logs_path true) as [e|].
  - right. reflexivity.
  - run. unfold ret.
    split; [reflexivity|]. exists d. split; reflexivity.
Qed.

(** ** Frame rules *)

Lemma undisturbed_refl (w : world) : undisturbed w w.
Proof. repeat split. Qed.

Lemma undisturbed_trans (w1 w2 w3 : world) :
  undisturbed w1 w2 -> undisturbed w2 w3 -> undisturbed w1 w3.
Proof.
  unfold undisturbed. intros H1 H2.
  repeat match goal with H : _ /\ _ |- _ => destruct H end.
  repeat split; congruence.
Qed.

Lemma only_console_undisturbed (w w' : world) :
  only_console w w' -> undisturbed w w'.
Proof.
  unfold only_console, undisturbed. intros H.
  repeat match goal with H : _ /\ _ |- _ => destruct H end.
  repeat split; assumption.
Qed.

Lemma keeps_ret {A} (a : A) : keeps undisturbed (ret a).
Proof. intros w. apply undisturbed_refl. Qed.

Lemma keeps_raise {A} (e : string) : keeps undisturbed (raise (A := A) e).
Proof. intros w. apply undisturbed_refl. Qed.

Lemma keeps_gets {A} (f : world -> A) : keeps undisturbed (gets f).
Proof. intros w. apply undisturbed_refl. Qed.

Lemma keeps_bind {A B} (m : M world A) (k : A -> M world B) :
  keeps undisturbed m -> (forall a, keeps undisturbed (k a)) ->
  keeps undisturbed (bind m k).
Proof.
  intros Hm Hk w. unfold bind. specialize (Hm w).
  destruct (m w) as [a w1 | e w1]; [|exact Hm].
  exact (undisturbed_trans _ _ _ Hm (Hk a w1)).
Qed.

Lemma keeps_on_proc (f : proc -> proc) :
  (forall p, folders_marked_for_deletion (f p) = folders_marked_for_deletion p) ->
  keeps undisturbed (on_proc f).
Proof.
  intros Hf w. rewrite on_proc_run. repeat split. apply Hf.
Qed.

Lemma keeps_write_console (message : text) (level : string) (indent : nat) :
  keeps undisturbed (on_proc (write_console message level indent)).
Proof. apply keeps_on_proc. reflexivity. Qed.

Lemma keeps_config_index (config : jvalue) (key : string) :
  keeps undisturbed (config_index config key).
Proof.
  unfold config_index. destruct config; try apply keeps_raise.
  destruct (dict_get _ key); [apply keeps_ret | apply keeps_raise].
Qed.

Lemma keeps_os_path_dirname (v : jvalue) : keeps undisturbed (os_path_dirname v).
Proof. destruct v; try apply keeps_raise. apply keeps_ret. Qed.

Lemma keeps_os_path_exists (v : jvalue) : keeps undisturbed (os_path_exists v).
Proof.
  intros w. unfold os_path_exists.
  destruct (exists_verdict (boot w) v); apply undisturbed_refl.
Qed.

Lemma keeps_os_makedirs (path : jvalue) (exist_ok : bool) :
  keeps undisturbed (os_makedirs path exist_ok).
Proof.
  destruct path; try apply keeps_raise.
  intros w. unfold os_makedirs.
  destruct (makedirs_error (boot w) s exist_ok); repeat split.
Qed.

Lemma keeps_clear_debug_log : keeps undisturbed clear_debug_log.
Proof.
  intros w. unfold clear_debug_log.
  destruct (open_w_error (machine w) (DEBUG_LOG_PATH (boot w))); repeat split.
Qed.

Lemma keeps_load_config : keeps undisturbed load_config.
Proof.
  unfold load_config. apply keeps_bind; [apply keeps_gets|].
  intros [config | e]; [apply keeps_ret|].
  apply keeps_bind; [apply keeps_write_console | intros; apply keeps_raise].
Qed.

Lemma keeps_validate_paths (config : jvalue) :
  keeps undisturbed (validate_paths config).
Proof.
  intros w. apply only_console_undisturbed.
  pose proof (validate_paths_any config w) as H.
  destruct (validate_paths config w); [apply H | exact H].
Qed.

Lemma keeps_initialize_triage (config : jvalue) :
  keeps undisturbed (initialize_triage config).
Proof.
  unfold initialize_triage.
  apply keeps_bind; [apply keeps_config_index | intros inbox].
  apply keeps_bind; [apply keeps_os_path_dirname | intros root_path].
  apply keeps_bind; [apply keeps_config_index | intros inbox_path].
  apply keeps_bind; [apply keeps_write_console | intros _].
  apply keeps_bind; [apply keeps_write_console | intros _].
  apply keeps_bind; [apply keeps_write_console | intros _].
  apply keeps_bind; [apply keeps_os_path_exists | intros found].
  apply keeps_bind.
  { destruct found; cbn [negb]; [apply keeps_write_console|].
    apply keeps_bind; [apply keeps_os_makedirs | intros; apply keeps_write_console]. }
  intros _.
  apply keeps_bind; [apply keeps_gets | intros logs_path].
  apply keeps_bind; [apply keeps_os_makedirs | intros _].
  apply keeps_bind; [apply keeps_write_console | intros _].
  destruct config; try apply keeps_raise. apply keeps_ret.
Qed.

(** ** Without a purge request *)

Lemma no_marking_visit (drive : drive_info) (visits : list visit) :
  truthy (purge_flag (drive_json drive)) = false ->
  List.filter (marking_visit drive) visits = [].
Proof.
  intros H. apply filter_none. intros v _. unfold marking_visit. rewrite H.
  reflexivity.
Qed.

(** Drives that do not ask for a purge add no candidate. *)
Lemma import_without_purge (volumes : string -> scan) (drives : list drive_info)
    (p : proc) :
  Forall (fun d => truthy (purge_flag (drive_json d)) = false) drives ->
  folders_marked_for_deletion (import_from_external_drives volumes drives p)
  = folders_marked_for_deletion p.
Proof.
  intros H. unfold import_from_external_drives.
  change (folders_marked_for_deletion p)
    with (folders_marked_for_deletion
            (write_console [Lit "Importing from external drives"] "TITLE" 0 p)).
  generalize (write_console [Lit "Importing from external drives"] "TITLE" 0 p).
  induction H as [|d ds Hd _ IH]; intros q; [reflexivity|].
  cbn [fold_left]. rewrite IH, import_drive_marked, no_marking_visit by exact Hd.
  apply app_nil_r.
Qed.

(** Discovery does not touch the candidate list. *)
Lemma detect_drive_marked (drive : string) (vd : list drive_info) (h : host) :
  folders_marked_for_deletion (console (state_of (detect_drive drive vd h)))
  = folders_marked_for_deletion (console h).
Proof.
  unfold detect_drive, bind, on_console, modify, gets, ret. simpl.
  destruct (descriptors h !! ntpath.join2 drive "drive.json") as [[data | e] | ];
    simpl; [|reflexivity|reflexivity].
  destruct data as [ | b | z | zero | s | xs | data]; simpl; try reflexivity.
  destruct (is_True (dict_get data "source")); simpl; [|reflexivity].
  destruct (dict_has data "id"); simpl.
  - destruct (dict_has data "name"); simpl; [reflexivity|].
    unfold json_dump; simpl.
    match goal with |- context [open_w_error h ?p] =>
      destruct (open_w_error h p) end; reflexivity.
  - match goal with |- context [dict_has ?d "name"] =>
      destruct (dict_has d "name") end; simpl; unfold json_dump; simpl;
    match goal with |- context [open_w_error h ?p] =>
      destruct (open_w_error h p) end; reflexivity.
Qed.

Lemma detect_loop_marked (roots : list string) (vd : list drive_info) (h : host) :
  folders_marked_for_deletion (console (state_of (for_each roots detect_drive vd h)))
  = folders_marked_for_deletion (console h).
Proof.
  revert vd h. induction roots as [|r rs IH]; intros vd h; [reflexivity|].
  cbn [for_each]. unfold bind.
  pose proof (detect_drive_marked r vd h) as H.
  destruct (detect_drive r vd h) as [vd' h' | e h']; [|exact H].
  rewrite IH. exact H.
Qed.

Lemma detect_external_drives_marked (h : host) :
  folders_marked_for_deletion (console (state_of (detect_external_drives h)))
  = folders_marked_for_deletion (console h).
Proof.
  unfold detect_external_drives.
  unfold bind at 1. unfold on_console at 1, modify at 1.
  unfold bind at 1. unfold gets at 1. cbn [GetDriveTypeW].
  unfold bind at 1.
  match goal with |- context [match ?l with [] => _ | _ => _ end ?s] =>
    destruct l; unfold on_console, modify, ret
  end; rewrite detect_loop_marked; reflexivity.
Qed.

(** The drives discovery returns ask for a purge only if a descriptor
    did before the run. *)
Lemma discovery_without_purge (h : host) (drives : list drive_info) (h' : host) :
  map_Forall (fun _ file => purge_requested file = false) (descriptors h) ->
  detect_external_drives h = Returns drives h' ->
  Forall (fun d => truthy (purge_flag (drive_json d)) = false) drives.
Proof.
  intros Hno Hrun.
  pose proof (detect_external_drives_spec h) as H. unfold wp in H.
  rewrite Hrun in H. destruct H as [Hev Hreg].
  destruct Hev as (_ & _ & _ & _ & ws & _ & Hsame & Hnew).
  eapply Forall_impl; [exact Hreg|].
  intros d (Hfile & _). cbv beta.
  destruct (decide (descriptor_path (drive_path d) ∈ ws)) as [Hin | Hout].
  - destruct (Hnew _ Hin) as (data & extra & E & E' & P & _).
    rewrite Hfile in E'. injection E' as ->.
    unfold purge_flag. rewrite (provisioned_other _ _ "purge" P) by discriminate.
    exact (Hno _ _ E).
  - rewrite (Hsame _ Hout) in Hfile. exact (Hno _ _ Hfile).
Qed.

Lemma after_keeps {A B} (m : M world A) (k : A -> M world B)
    (P : world -> Prop) (w0 w : world) :
  keeps undisturbed m ->
  undisturbed w0 w ->
  (forall w1, undisturbed w0 w1 -> P w1) ->
  (forall a w1, undisturbed w0 w1 -> P (state_of (k a w1))) ->
  P (state_of (bind m k w)).
Proof.
  intros Hm H0 Hraise Hk. unfold bind. specialize (Hm w).
  destruct (m w) as [a w1 | e w1].
  - apply Hk. exact (undisturbed_trans _ _ _ H0 Hm).
  - apply Hraise. exact (undisturbed_trans _ _ _ H0 Hm).
Qed.

Lemma undisturbed_nothing_deleted (w w' : world) :
  undisturbed w w' -> nothing_deleted w w'.
Proof.
  unfold undisturbed, nothing_deleted. intros H.
  repeat match goal with H : _ /\ _ |- _ => destruct H end. auto.
Qed.

(** With no candidate, the deletion pipeline is not entered. *)
Lemma finalize_without_candidates
    (rmtree : gmap string string -> string -> gmap string string * option string)
    (config : jvalue) (w : world) :
  folders_marked_for_deletion (console (machine w)) = [] ->
  finalize_with_config rmtree config w = Returns tt w.
Proof.
  intros H. unfold finalize_with_config, bind, gets. rewrite H. reflexivity.
Qed.

(** X20.  Without a purge request nothing is deleted.  When [main] starts
    with an empty candidate list and no descriptor on the machine holds a
    truthy [purge], then however the run ends (normally, or with an
    exception at any point) [shutil.rmtree] was never called, the deletion
    log was not written (the text files the pipeline reads are as they
    were), and the candidate list is still empty.  The run does what every
    run does besides: it may write the [id] and [name] of a descriptor, it
    asks for the [logs] directory, and it empties the debug log. *)
Theorem no_purge_nothing_deleted
    (rmtree : gmap string string -> string -> gmap string string * option string)
    (w : world) :
  folders_marked_for_deletion (console (machine w)) = [] ->
  map_Forall (fun _ file => purge_requested file = false) (descriptors (machine w)) ->
  nothing_deleted w (state_of (main rmtree w)).
Proof.
  intros Hempty Hno. unfold main.
  apply (after_keeps _ _ _ w w keeps_clear_debug_log (undisturbed_refl w));
    [apply undisturbed_nothing_deleted|]. intros _ w1 U1.
  apply (after_keeps _ _ _ w w1 keeps_load_config U1);
    [apply undisturbed_nothing_deleted|]. intros config w2 U2.
  apply (after_keeps _ _ _ w w2 (keeps_validate_paths config) U2);
    [apply undisturbed_nothing_deleted|]. intros _ w3 U3.
  apply (after_keeps _ _ _ w w3 (keeps_initialize_triage config) U3);
    [apply undisturbed_nothing_deleted|]. intros config' w4 U4.
  destruct U4 as (_ & _ & Hdisk & Hrem & Hdesc & _ & _ & Hmark).
  rewrite <- Hdesc in Hno. rewrite Hempty in Hmark.
  unfold bind at 1. unfold in_host at 1.
  pose proof (detect_external_drives_marked (machine w4)) as Hm.
  pose proof (discovery_without_purge (machine w4)) as Hp.
  destruct (detect_external_drives (machine w4)) as [drives h' | e h'].
  2: { split; [exact Hdisk|]. split; [exact Hrem|].
       cbn [state_of machine with_machine] in Hm |- *. congruence. }
  specialize (Hp drives h' Hno eq_refl). cbn [state_of] in Hm.
  unfold bind at 1. unfold gets at 1.
  run. run. run. run. run.
  unfold bind at 1. rewrite finalize_without_candidates.
  2: { cbn [machine with_machine console with_console].
       unfold recover_failed_copies, refill_from_inbox, get_root_files, write_console.
       cbn [folders_marked_for_deletion].
       fold (write_console [Lit "Getting files in root folder..."] "INFO" 0).
       rewrite import_without_purge by exact Hp. congruence. }
  rewrite on_proc_run.
  split; [exact Hdisk|]. split; [exact Hrem|].
  cbn [state_of machine with_machine console with_console].
  unfold recover_failed_copies, refill_from_inbox, get_root_files, write_console.
  cbn [folders_marked_for_deletion].
  rewrite import_without_purge by exact Hp. congruence.
Qed.

(** On [idle_world] the one descriptor holds no [purge]. *)
Lemma no_purge_nothing_deleted_witness :
  folders_marked_for_deletion (console (machine idle_world)) = []
  /\ map_Forall (fun _ file => purge_requested file = false)
                (descriptors (machine idle_world))
  /\ nothing_deleted idle_world (state_of (main rmtree_all idle_world)).
Proof.
  assert (H : map_Forall (fun _ file => purge_requested file = false)
                         (descriptors (machine idle_world))).
  { apply map_Forall_singleton. reflexivity. }
  split; [reflexivity|]. split; [exact H|].
  exact (no_purge_nothing_deleted rmtree_all idle_world eq_refl H).
Defined.
